(** * AMF side-car protocols: health server, registration client, cnode client

    A shallow embedding of [src/NFs/amf/amf-health.c] and
    [src/NFs/amf/cnode/amf_cnode.c], with the properties of the design
    document proved (or refuted) on the embedded code.

    C integers are [Z] with the wrap-around of their type written out,
    bytes are [Z] in [0, 256), buffers are [list Z] updated by index, and a
    connected socket is a record holding what the peer still delivers and
    what it has been handed so far. *)

From Stdlib Require Import ZArith Lia Bool List String Ascii.
From stdpp Require Import base tactics option list strings gmap.

Local Open Scope Z_scope.

(** ** C integer conversions *)

Definition to_uint8 (z : Z) : Z := z mod 2 ^ 8.
Definition to_uint16 (z : Z) : Z := z mod 2 ^ 16.
Definition to_uint32 (z : Z) : Z := z mod 2 ^ 32.
Definition to_uint64 (z : Z) : Z := z mod 2 ^ 64.

(** [(int)z]: conversion to a 32-bit two's-complement [int]. *)
Definition to_int (z : Z) : Z := (z + 2 ^ 31) mod 2 ^ 32 - 2 ^ 31.

Definition INT_MAX : Z := 2 ^ 31 - 1.

Definition OGS_OK : Z := 0.
Definition OGS_ERROR : Z := -1.

(** ** Sockets

    [rx] lists the segments in which the peer's bytes arrive: one [recv]
    never returns bytes of two segments, and may return only part of one.
    Once no segment is left [recv] reports end of stream or a timeout; both
    reach the callers as [n <= 0].  [tx_room] is the number of bytes the
    connection still takes before [send] comes back short; [tx] is what was
    handed to the peer so far. *)

Record sock : Type := Sock {
  rx : list (list Z);
  tx_room : nat;
  tx : list Z;
  is_open : bool
}.

Definition set_rx (s : sock) (r : list (list Z)) : sock :=
  Sock r (tx_room s) (tx s) (is_open s).

(** The bytes of the first segment that carries data, at most [len] of them. *)
Fixpoint rx_take (len : nat) (segs : list (list Z)) : list Z * list (list Z) :=
  match segs with
  | [] => ([], [])
  | [] :: rest => rx_take len rest
  | seg :: rest => (take len seg, drop len seg :: rest)
  end.

(** [recv(fd, p, len, 0)]: the count, the bytes stored at [p], the socket. *)
Definition recv (s : sock) (len : Z) : Z * list Z * sock :=
  if is_open s then
    let '(got, rest) := rx_take (Z.to_nat len) (rx s) in
    (Z.of_nat (length got), got, set_rx s rest)
  else (-1, [], s).

(** [send(fd, data, len, MSG_NOSIGNAL)] with [data] the [len] bytes offered. *)
Definition send (s : sock) (data : list Z) : Z * sock :=
  if is_open s then
    let k := Nat.min (length data) (tx_room s) in
    (if Nat.eqb k 0 && negb (Nat.eqb (length data) 0) then -1 else Z.of_nat k,
     Sock (rx s) (tx_room s - k)%nat (tx s ++ take k data) (is_open s))
  else (-1, s).

Definition close (s : sock) : sock := Sock (rx s) (tx_room s) (tx s) false.

(** [memcpy]-like store of [data] at [buf + off]. *)
Definition buf_store (buf : list Z) (off : Z) (data : list Z) : list Z :=
  list_inserts (Z.to_nat off) data buf.

(** The loop shared by both readers,
    [while (total < len) { n = recv(fd, buf + total, len - total, 0);
                           if (n <= 0) return -1; total += n; }],
    by recursion on a bound [left] of the iterations still possible
    ([len - total], as every round adds at least one byte).  The result is
    [-1] or the final [total]. *)
Fixpoint recv_exact (left : nat) (s : sock) (buf : list Z) (len total : Z)
  : Z * list Z * sock :=
  match left with
  | O => (total, buf, s)
  | S left' =>
      if total <? len then
        let '(n, got, s1) := recv s (len - total) in
        if n <=? 0 then (-1, buf, s1)
        else recv_exact left' s1 (buf_store buf total got) len (total + n)
      else (total, buf, s)
  end.

(** ** The process environment

    [getenv] is a lookup in a finite map.  Both files test their enable
    flag with [env && strcmp(env, "1") != 0] and read their ports with
    [if (env && atoi(env) > 0) port = (uint16_t)atoi(env)]; [atoi] is the
    C library's. *)

Definition env_disables (env : gmap string string) (name : string) : bool :=
  match env !! name with
  | Some v => negb (String.eqb v "1")
  | None => false
  end.

Definition env_port (atoi : string → Z) (env : gmap string string)
    (name : string) (old : Z) : Z :=
  match env !! name with
  | Some v => if atoi v >? 0 then to_uint16 (atoi v) else old
  | None => old
  end.

(** ** amf-health.c *)

Module Health.

(** [varint_encode]: the do-while loop by recursion on the room left in
    [buf] ([bufsz - n]); with no room left the function returns [-1]. *)
Fixpoint varint_encode_from (room : nat) (v : Z) (buf : list Z) (n : Z)
  : Z * list Z :=
  match room with
  | O => (-1, buf)
  | S room' =>
      let b := to_uint8 (Z.land v 0x7F) in
      let v := Z.shiftr v 7 in
      let b := if v =? 0 then b else Z.lor b 0x80 in
      let buf := <[Z.to_nat n := b]> buf in
      if v =? 0 then (n + 1, buf)
      else varint_encode_from room' v buf (n + 1)
  end.

Definition varint_encode (v : Z) (buf : list Z) (bufsz : Z) : Z * list Z :=
  varint_encode_from (Z.to_nat bufsz) v buf 0.

(** The length prefix of [read_delimited]: the [for (i = 0; i < 10; i++)]
    loop by recursion on the rounds left.  [None] is the [return -1]. *)
Fixpoint read_varint (rounds : nat) (s : sock) (msg_len shift : Z)
  : option Z * sock :=
  match rounds with
  | O => (Some msg_len, s)
  | S rounds' =>
      let '(n, got, s1) := recv s 1 in
      if n <=? 0 then (None, s1)
      else
        let b := default 0 (head got) in
        let msg_len :=
          Z.lor msg_len (to_uint64 (Z.shiftl (Z.land b 0x7F) shift)) in
        let shift := shift + 7 in
        if Z.land b 0x80 =? 0 then (Some msg_len, s1)
        else read_varint rounds' s1 msg_len shift
  end.

(** What [read_delimited] does once the prefix is decoded. *)
Definition read_delimited_body (msg_len : Z) (s : sock) (buf : list Z)
    (max_len : Z) : Z * list Z * sock :=
  if msg_len =? 0 then (0, buf, s)
  else if to_int msg_len >? max_len then (-1, buf, s)
  else recv_exact (Z.to_nat (to_int msg_len)) s buf (to_int msg_len) 0.

Definition read_delimited (s : sock) (buf : list Z) (max_len : Z)
  : Z * list Z * sock :=
  match read_varint 10 s 0 0 with
  | (None, s1) => (-1, buf, s1)
  | (Some msg_len, s1) => read_delimited_body msg_len s1 buf max_len
  end.

(** [write_delimited(fd, data, data_len)]; [lenbuf] is uninitialised
    storage of 10 bytes. *)
Definition write_delimited (s : sock) (data : list Z) (data_len : Z)
  : Z * sock :=
  let lenbuf := replicate 10 0 in
  let '(lbytes, lenbuf) := varint_encode (to_uint64 data_len) lenbuf 10 in
  if lbytes <? 0 then (-1, s)
  else
    let '(n1, s1) := send s (take (Z.to_nat lbytes) lenbuf) in
    if negb (n1 =? lbytes) then (-1, s1)
    else
      let '(n2, s2) := send s1 (take (Z.to_nat data_len) data) in
      if negb (n2 =? data_len) then (-1, s2)
      else (0, s2).

Definition HEALTH_RESP_SERVING : list Z := [0x08; 0x01].
Definition HEALTH_RESP_NOT_SERVING : list Z := [0x08; 0x02].
Definition HEALTH_RESP_LEN : Z := 2.

(** [handle_connection(cfd)]: the request buffer is 64 bytes of
    uninitialised storage [req_buf]; the receive timeout only decides when
    [recv] gives up, which the socket model folds into the end of [rx]. *)
Definition handle_connection (req_buf : list Z) (cfd : sock) : sock :=
  let '(_, _, s1) := read_delimited cfd req_buf 64 in
  let '(_, s2) := write_delimited s1 HEALTH_RESP_SERVING HEALTH_RESP_LEN in
  close s2.

(** *** Server state and configuration *)

(** What the life-cycle functions do to the outside, in order. *)
Inductive health_event : Type :=
  | AcceptLoopStarted
  | AcceptLoopJoined
  | FdClosed (fd : Z)
  | RegistrationStarted
  | Warned.

(** The file's static variables, and the events so far. *)
Record health_state : Type := HealthState {
  server_fd : Z;
  server_running : Z;
  g_bind_addr : string;
  g_advertise_ip : string;
  g_port : Z;
  g_reg_enable : Z;
  g_reg_server_ip : string;
  g_reg_server_port : Z;
  health_events : list health_event
}.

Definition health_init : health_state :=
  HealthState (-1) 0 "0.0.0.0" "0.0.0.0" 50051 0 "" 0 [].

Definition set_server (st : health_state) (fd running : Z)
    (evs : list health_event) : health_state :=
  HealthState fd running (g_bind_addr st) (g_advertise_ip st) (g_port st)
    (g_reg_enable st) (g_reg_server_ip st) (g_reg_server_port st)
    (health_events st ++ evs).

(** The results of the system calls of [amf_health_open]. *)
Record os_outcome : Type := OsOutcome {
  os_socket : Z;
  os_bind : Z;
  os_listen : Z;
  os_pthread_create : Z
}.

(** [strncpy(dst, src, sizeof(dst) - 1)] into a zeroed 64-byte array. *)
Definition strncpy63 (src : string) : string := String.substring 0 63 src.

Section WithLibc.

Variable atoi : string → Z.

(** The configuration part of [amf_health_open]. *)
Definition health_load_config (env : gmap string string) (st : health_state)
  : health_state :=
  let port := env_port atoi env "AMF_GRPC_PORT" (g_port st) in
  let bind_addr :=
    match env !! "AMF_GRPC_BIND_ADDR" with
    | Some v => if (0 <? String.length v)%nat then strncpy63 v else g_bind_addr st
    | None => g_bind_addr st
    end in
  let advertise_ip :=
    match env !! "AMF_GRPC_ADVERTISE_IP" with
    | Some v => if (0 <? String.length v)%nat then strncpy63 v else strncpy63 bind_addr
    | None => strncpy63 bind_addr
    end in
  let reg_enable :=
    match env !! "AMF_GRPC_REGISTRATION_ENABLE" with
    | Some v => if String.eqb v "1" then 1 else 0
    | None => 0
    end in
  let reg_ip :=
    if reg_enable =? 0 then g_reg_server_ip st
    else match env !! "AMF_GRPC_REGISTRATION_SERVER_IP" with
         | Some v => strncpy63 v
         | None => g_reg_server_ip st
         end in
  let reg_port :=
    if reg_enable =? 0 then g_reg_server_port st
    else env_port atoi env "AMF_GRPC_REGISTRATION_SERVER_PORT" (g_reg_server_port st) in
  HealthState (server_fd st) (server_running st) bind_addr advertise_ip port
    reg_enable reg_ip reg_port (health_events st).

Definition amf_health_open (env : gmap string string) (os : os_outcome)
    (st : health_state) : Z * health_state :=
  if env_disables env "AMF_GRPC_ENABLE" then (OGS_OK, st)
  else
    let st := health_load_config env st in
    let fd := os_socket os in
    if fd <? 0 then (OGS_ERROR, set_server st fd (server_running st) [])
    else if os_bind os <? 0 then
      (OGS_ERROR, set_server st (-1) (server_running st) [FdClosed fd])
    else if os_listen os <? 0 then
      (OGS_ERROR, set_server st (-1) (server_running st) [FdClosed fd])
    else if negb (os_pthread_create os =? 0) then
      (OGS_ERROR, set_server st (-1) 0 [FdClosed fd])
    else (OGS_OK, set_server st fd 1 [AcceptLoopStarted]).

End WithLibc.

Definition amf_health_close (st : health_state) : health_state :=
  if server_fd st <? 0 then st
  else set_server st (-1) 0 [FdClosed (server_fd st); AcceptLoopJoined].

(** *** Registration client *)

Definition string_bytes (s : string) : list Z :=
  map (λ c, Z.of_N (N_of_ascii c)) (list_ascii_of_string s).

(** The first part of [do_registration]: the RegisterRequest built in
    [proto] (256 bytes of uninitialised storage).  [None] is a
    [goto done] on a failed [varint_encode]; otherwise the final [offset]
    and buffer.  [varint_encode(v, proto + offset, sizeof(proto) - offset)]
    works on the part of the buffer from [offset] on. *)
Definition register_request (st : health_state) (proto : list Z)
  : option (Z * list Z) :=
  let offset := 0 in
  let proto := <[Z.to_nat offset := 0x08]> proto in
  let offset := offset + 1 in
  let proto := <[Z.to_nat offset := 13]> proto in
  let offset := offset + 1 in
  let ip_len := to_int (Z.of_nat (String.length (g_advertise_ip st))) in
  let proto := <[Z.to_nat offset := 0x12]> proto in
  let offset := offset + 1 in
  let '(vn, rest) :=
    varint_encode (to_uint64 ip_len) (drop (Z.to_nat offset) proto)
      (256 - offset) in
  let proto := take (Z.to_nat offset) proto ++ rest in
  if vn <? 0 then None
  else
    let offset := offset + vn in
    let proto :=
      buf_store proto offset
        (take (Z.to_nat ip_len) (string_bytes (g_advertise_ip st))) in
    let offset := offset + ip_len in
    let proto := <[Z.to_nat offset := 0x18]> proto in
    let offset := offset + 1 in
    let '(vn, rest) :=
      varint_encode (to_uint64 (g_port st)) (drop (Z.to_nat offset) proto)
        (256 - offset) in
    let proto := take (Z.to_nat offset) proto ++ rest in
    if vn <? 0 then None
    else Some (offset + vn, proto).

(** What dialling a server comes to. *)
Inductive reg_dial : Type :=
  | RegBadAddress
  | RegNoSocket
  | RegRefused
  | RegConnected (sfd : sock).

Inductive reg_log : Type :=
  | RegSent
  | RegAccepted
  | RegRejected
  | RegWarn.

(** [do_registration]: the log lines and the socket as it is left. *)
Definition do_registration (st : health_state) (proto resp_buf : list Z)
    (d : reg_dial) : list reg_log * option sock :=
  match register_request st proto with
  | None => ([], None)
  | Some (offset, proto) =>
      match d with
      | RegBadAddress | RegNoSocket | RegRefused => ([RegWarn], None)
      | RegConnected sfd =>
          let '(rc, s1) := write_delimited sfd proto offset in
          if rc <? 0 then ([RegWarn], Some (close s1))
          else
            let '(resp_len, resp_buf, s2) := read_delimited s1 resp_buf 128 in
            let verdict :=
              if (resp_len >=? 2) && (default 0 (resp_buf !! 0%nat) =? 0x08)
              then if default 0 (resp_buf !! 1%nat) =? 0x01
                   then [RegAccepted] else [RegRejected]
              else [] in
            (RegSent :: verdict, Some (close s2))
      end
  end.

(** [amf_health_send_registration]; [thread_rc] is the result of
    [pthread_create]. *)
Definition amf_health_send_registration (thread_rc : Z) (st : health_state)
  : health_state :=
  if g_reg_enable st =? 0 then st
  else if (String.length (g_reg_server_ip st) =? 0)%nat
          || (g_reg_server_port st =? 0) then
    set_server st (server_fd st) (server_running st) [Warned]
  else if negb (thread_rc =? 0) then
    set_server st (server_fd st) (server_running st) [Warned]
  else set_server st (server_fd st) (server_running st) [RegistrationStarted].

(** *** Accept loop *)

(** [<errno.h>] on Linux. *)
Definition EINTR : Z := 4.
Definition EBADF : Z := 9.
Definition EAGAIN : Z := 11.
Definition EWOULDBLOCK : Z := 11.

(** What one [accept(server_fd, ...)] comes to. *)
Inductive accept_result : Type :=
  | AcceptFailed (errno : Z)
  | Accepted (cfd : sock).

(** The surroundings of the accept-loop thread: the reads of
    [server_running] that still find it set ([amf_health_close] clears it
    on another thread), the results of the calls of [accept] to come (none
    left: the listening socket is closed, [EBADF]), the accepted
    connections as [handle_connection] left them, and the number of
    "accept() error" lines logged. *)
Record server_world : Type := ServerWorld {
  serving : nat;
  accepts : list accept_result;
  handled : list sock;
  accept_errors : nat
}.

(** The loop of [health_server_loop], by recursion on the reads of
    [server_running] that still find it set: one at the head of every
    round, one more after a failed [accept].  The request buffer of
    [handle_connection] is 64 bytes that are written and never read. *)
Fixpoint accept_loop (k : nat) (acc : list accept_result) (done : list sock)
    (errors : nat) : server_world :=
  match k with
  | O => ServerWorld O acc done errors
  | S k1 =>
      match acc with
      | Accepted cfd :: acc' =>
          accept_loop k1 acc'
            (done ++ [handle_connection (replicate 64 0) cfd]) errors
      | AcceptFailed errno :: acc' =>
          match k1 with
          | O => ServerWorld O acc' done errors
          | S k2 =>
              if (errno =? EINTR) || (errno =? EAGAIN) || (errno =? EWOULDBLOCK)
              then accept_loop k2 acc' done errors
              else if errno =? EBADF then ServerWorld k2 acc' done errors
              else accept_loop k2 acc' done (S errors)
          end
      | [] =>
          match k1 with
          | O => ServerWorld O [] done errors
          | S k2 => ServerWorld k2 [] done errors
          end
      end
  end.

Definition health_server_loop (w : server_world) : server_world :=
  accept_loop (serving w) (accepts w) (handled w) (accept_errors w).

End Health.

(** ** cnode/amf_cnode.c *)

Module Cnode.

(** A [uint32_t] seen as its four bytes in memory, least significant first
    (the "native LE" of the source), and back. *)
Fixpoint le_bytes (n : nat) (v : Z) : list Z :=
  match n with
  | O => []
  | S n' => to_uint8 v :: le_bytes n' (Z.shiftr v 8)
  end.

Fixpoint le_value (bs : list Z) : Z :=
  match bs with
  | [] => 0
  | b :: bs' => Z.lor (to_uint8 b) (Z.shiftl (le_value bs') 8)
  end.

(** [read_framed]: the header loop fills the four bytes of [payload_len],
    which starts as [0]. *)
Definition read_framed (s : sock) (buf : list Z) (max_len : Z)
  : Z * list Z * sock :=
  let '(rc, hdr, s1) := recv_exact 4 s (le_bytes 4 0) 4 0 in
  if rc <? 0 then (-1, buf, s1)
  else
    let payload_len := le_value hdr in
    if payload_len =? 0 then (0, buf, s1)
    else if to_int payload_len >? max_len then (-1, buf, s1)
    else
      let '(rc, buf, s2) :=
        recv_exact (Z.to_nat (to_int payload_len)) s1 buf (to_int payload_len) 0 in
      if rc <? 0 then (-1, buf, s2)
      else (to_int payload_len, buf, s2).

Definition write_framed (s : sock) (data : list Z) (data_len : Z) : Z * sock :=
  let payload_len := to_uint32 data_len in
  let '(n1, s1) := send s (le_bytes 4 payload_len) in
  if negb (n1 =? 4) then (-1, s1)
  else if data_len >? 0 then
    let '(n2, s2) := send s1 (take (Z.to_nat data_len) data) in
    if negb (n2 =? data_len) then (-1, s2)
    else (0, s2)
  else (0, s1).

Definition NODETYPE_AMF : list Z := [0x08; 0x0D].
Definition HEALTH_RESP_SERVING : list Z := [0x08; 0x01].

(** [<poll.h>] on Linux. *)
Definition POLLIN : Z := 0x001.
Definition POLLERR : Z := 0x008.
Definition POLLHUP : Z := 0x010.
Definition POLLNVAL : Z := 0x020.

(** What one [poll(&pfd, 1, 5000)] comes to. *)
Inductive poll_result : Type :=
  | PollFailed (eintr : bool)
  | PollTimeout
  | PollReady (revents : Z).

(** What dialling the cnode server comes to; a connection carries its
    socket and the results of the polls made on it (none left: the poll
    times out). *)
Inductive dial : Type :=
  | BadAddress
  | NoSocket
  | Refused
  | Connected (sfd : sock) (polls : list poll_result).

(** What the thread does that can be seen from outside: [serve_session] is
    entered; a connected socket is closed, in the state it is left in; the
    line "session ended; reconnecting in [backoff] s" is logged; [sleep(1)]
    has returned. *)
Inductive event : Type :=
  | Attempt
  | Hung (s : sock)
  | Reconnecting (backoff : Z)
  | Slept.

(** The surroundings of the client thread.  [g_running] is cleared by
    [amf_cnode_stop] on another thread and never set again while the
    thread lives: the thread's next [running] reads of it find it set, all
    later ones find it cleared.  [dials] are the connection attempts to
    come (none left: refused). *)
Record world : Type := World {
  running : nat;
  dials : list dial;
  trace : list event
}.

Definition read_running (w : world) : bool * world :=
  match running w with
  | O => (false, w)
  | S k => (true, World k (dials w) (trace w))
  end.

Definition log (e : event) (w : world) : world :=
  World (running w) (dials w) (trace w ++ [e]).

Definition next_dial (w : world) : dial * world :=
  match dials w with
  | [] => (Refused, w)
  | d :: ds => (d, World (running w) ds (trace w))
  end.

(** The [while (g_running)] loop of [serve_session], by recursion on the
    reads of [g_running] that still find it set; the result is what is
    left of them after the loop, and the socket. *)
Fixpoint session_loop (k : nat) (polls : list poll_result) (s : sock)
    (req_buf : list Z) : nat * sock :=
  match k with
  | O => (O, s)
  | S k' =>
      match polls with
      | [] => session_loop k' [] s req_buf
      | PollFailed true :: polls' => session_loop k' polls' s req_buf
      | PollFailed false :: _ => (k', s)
      | PollTimeout :: polls' => session_loop k' polls' s req_buf
      | PollReady revents :: polls' =>
          if negb (Z.land revents (Z.lor POLLERR (Z.lor POLLHUP POLLNVAL)) =? 0)
          then (k', s)
          else
            let '(n, req_buf, s1) := read_framed s req_buf 256 in
            if n <? 0 then (k', s1)
            else
              let '(rc, s2) := write_framed s1 HEALTH_RESP_SERVING 2 in
              if rc <? 0 then (k', s2)
              else session_loop k' polls' s2 req_buf
      end
  end.

(** [serve_session]; [req_buf] is 256 bytes that are written and never
    read. *)
Definition serve_session (w : world) : Z * world :=
  let '(d, w) := next_dial (log Attempt w) in
  match d with
  | BadAddress | NoSocket | Refused => (-1, w)
  | Connected sfd polls =>
      let '(rc, s1) := write_framed sfd NODETYPE_AMF 2 in
      if rc <? 0 then (-1, log (Hung (close s1)) w)
      else
        let '(k, s2) := session_loop (running w) polls s1 (replicate 256 0) in
        let w := log (Hung (close s2)) (World k (dials w) (trace w)) in
        let '(r, w) := read_running w in
        (if r then -1 else 0, w)
  end.

(** [while (slept < backoff && g_running) { sleep(1); slept++; }] by
    recursion on [backoff - slept]. *)
Fixpoint backoff_sleep (todo : nat) (w : world) : world :=
  match todo with
  | O => w
  | S todo' =>
      let '(r, w) := read_running w in
      if r then backoff_sleep todo' (log Slept w) else w
  end.

(** The loop of [cnode_thread].  Every round starts with a read of
    [g_running], so [fuel] above [running w] is never used up. *)
Fixpoint cnode_loop (fuel : nat) (backoff : Z) (w : world) : world :=
  match fuel with
  | O => w
  | S fuel' =>
      let '(r, w) := read_running w in
      if r then
        let '(rc, w) := serve_session w in
        if rc =? 0 then w
        else
          let w := log (Reconnecting backoff) w in
          let w := backoff_sleep (Z.to_nat backoff) w in
          let backoff := to_uint32 (backoff * 2) in
          let backoff := if backoff >? 30 then 30 else backoff in
          cnode_loop fuel' backoff w
      else w
  end.

Definition cnode_thread (w : world) : world :=
  cnode_loop (S (running w)) 1 w.

(** *** Start and stop *)

Inductive cnode_event : Type :=
  | ThreadStarted
  | ThreadJoined.

Record cnode_state : Type := CnodeState {
  g_running : Z;
  g_server_ip : string;
  g_server_port : Z;
  cnode_events : list cnode_event
}.

Definition cnode_init : cnode_state := CnodeState 0 "" 9090 [].

Section WithLibc.

Variable atoi : string → Z.

(** [thread_rc] is the result of [pthread_create]. *)
Definition amf_cnode_start (env : gmap string string) (thread_rc : Z)
    (st : cnode_state) : Z * cnode_state :=
  if env_disables env "AMF_CNODE_ENABLE" then (OGS_OK, st)
  else
    match env !! "AMF_CNODE_SERVER_IP" with
    | None => (OGS_OK, st)
    | Some ip =>
        if (String.length ip =? 0)%nat then (OGS_OK, st)
        else
          let ip := String.substring 0 63 ip in
          let port :=
            env_port atoi env "AMF_CNODE_SERVER_PORT" (g_server_port st) in
          if negb (thread_rc =? 0) then
            (OGS_ERROR, CnodeState 0 ip port (cnode_events st))
          else
            (OGS_OK, CnodeState 1 ip port (cnode_events st ++ [ThreadStarted]))
    end.

End WithLibc.

Definition amf_cnode_stop (st : cnode_state) : cnode_state :=
  if g_running st =? 0 then st
  else CnodeState 0 (g_server_ip st) (g_server_port st)
         (cnode_events st ++ [ThreadJoined]).

End Cnode.

(** * Vocabulary of the statements

    Views of the model used to state and prove the properties: the bytes
    a socket has still to deliver, the bytes of a varint and of a frame,
    and what can be read off a trace of the client thread. *)

(** The bytes still to come, whatever their segmentation. *)
Definition stream (s : sock) : list Z := concat (rx s).

(** The groups [varint_encode] emits for [v], at most [k] of them. *)
Fixpoint varint_groups (k : nat) (v : Z) : list Z :=
  match k with
  | O => []
  | S k' =>
      let b := to_uint8 (Z.land v 0x7F) in
      let r := Z.shiftr v 7 in
      if r =? 0 then [b] else Z.lor b 0x80 :: varint_groups k' r
  end.

(** The prefix loop of [read_delimited] on the bytes it is fed. *)
Fixpoint varint_scan (rounds : nat) (bs : list Z) (msg_len shift : Z)
  : option Z * list Z :=
  match rounds with
  | O => (Some msg_len, bs)
  | S rounds' =>
      match bs with
      | [] => (None, [])
      | b :: bs' =>
          let msg_len :=
            Z.lor msg_len (to_uint64 (Z.shiftl (Z.land b 0x7F) shift)) in
          if Z.land b 0x80 =? 0 then (Some msg_len, bs')
          else varint_scan rounds' bs' msg_len (shift + 7)
      end
  end.

(** The low seven bits of each byte, the first byte at [shift]. *)
Fixpoint low7_sum (shift : Z) (bs : list Z) : Z :=
  match bs with
  | [] => 0
  | b :: bs' => Z.land b 0x7F * 2 ^ shift + low7_sum (shift + 7) bs'
  end.

(** The bytes handed to the peer between two states of a socket. *)
Definition sent_since (before after : sock) : list Z :=
  drop (length (tx before)) (tx after).

(** The bytes the design document gives for
    [RegisterRequest{node_type=13, ip="10.0.0.1", port=50051}]. *)
Definition documented_register_request : list Z :=
  [0x08; 0x0D; 0x12; 0x08; 0x31; 0x30; 0x2E; 0x30; 0x2E; 0x30; 0x2E; 0x31;
   0x18; 0xC3; 0x86; 0x03].

(** The bytes [do_registration] builds for it. *)
Definition encoded_register_request : list Z :=
  [0x08; 0x0D; 0x12; 0x08; 0x31; 0x30; 0x2E; 0x30; 0x2E; 0x30; 0x2E; 0x31;
   0x18; 0x83; 0x87; 0x03].

(** A Variant-F frame on the wire. *)
Definition frame (payload : list Z) : list Z :=
  Cnode.le_bytes 4 (Z.of_nat (length payload)) ++ payload.

(** A poll result that does not end the session. *)
Definition poll_ok (p : Cnode.poll_result) : Prop :=
  match p with
  | Cnode.PollFailed eintr => eintr = true
  | Cnode.PollTimeout => True
  | Cnode.PollReady revents =>
      Z.land revents
        (Z.lor Cnode.POLLERR (Z.lor Cnode.POLLHUP Cnode.POLLNVAL)) = 0
  end.

(** The polls that report data. *)
Fixpoint readable (polls : list Cnode.poll_result) : nat :=
  match polls with
  | [] => 0
  | Cnode.PollReady _ :: polls' => S (readable polls')
  | _ :: polls' => readable polls'
  end.

(** What was handed to the peer on the connections hung up in a trace. *)
Fixpoint session_bytes (tr : list Cnode.event) : list (list Z) :=
  match tr with
  | [] => []
  | Cnode.Hung s :: tr' => tx s :: session_bytes tr'
  | _ :: tr' => session_bytes tr'
  end.

(** The delay announced after the failed cycle number [i], counted from 0. *)
Definition backoff_after (i : nat) : Z := Z.min (2 ^ Z.of_nat i) 30.

Fixpoint leading_sleeps (tr : list Cnode.event) : nat :=
  match tr with
  | Cnode.Slept :: tr' => S (leading_sleeps tr')
  | _ => 0
  end.

(** For every "reconnecting in [b] s" of a trace, [b] and the seconds
    slept right after it. *)
Fixpoint backoffs (tr : list Cnode.event) : list (Z * nat) :=
  match tr with
  | [] => []
  | Cnode.Reconnecting b :: tr' => (b, leading_sleeps tr') :: backoffs tr'
  | _ :: tr' => backoffs tr'
  end.

Fixpoint attempts (tr : list Cnode.event) : nat :=
  match tr with
  | [] => 0
  | Cnode.Attempt :: tr' => S (attempts tr')
  | _ :: tr' => attempts tr'
  end.

(** What a session adds to the trace after its [Attempt]. *)
Definition quiet (sess : list Cnode.event) : Prop :=
  sess = [] ∨ ∃ s, sess = [Cnode.Hung s].

(** The shape of what the thread adds to the trace from its cycle number
    [j] on: it stops, or a session ends cleanly, or a session fails, the
    delay [backoff_after j] is announced, at most that many seconds are
    slept, and the next cycle follows; fewer seconds are slept only when
    nothing follows. *)
Inductive cycles : nat → list Cnode.event → Prop :=
  | cycles_stop j : cycles j []
  | cycles_clean j sess : quiet sess → cycles j (Cnode.Attempt :: sess)
  | cycles_retry j sess n T :
      quiet sess →
      (n ≤ Z.to_nat (backoff_after j))%nat →
      ((n < Z.to_nat (backoff_after j))%nat → T = []) →
      cycles (S j) T →
      cycles j (Cnode.Attempt :: sess
                ++ Cnode.Reconnecting (backoff_after j)
                   :: replicate n Cnode.Slept ++ T).

(** The wire form of a varint: bytes below 256, of which the last one and
    no other has the high bit clear. *)
Definition varint_wire (bs : list Z) : Prop :=
  bs ≠ [] ∧
  ∀ (i : nat) b, bs !! i = Some b →
    0 <= b < 256 ∧ (Z.land b 0x80 = 0 ↔ S i = length bs).

(** A Variant-V frame on the wire, with the prefix as [write_delimited]
    computes it. *)
Definition delimited_frame (payload : list Z) : list Z :=
  let enc :=
    Health.varint_encode (Z.of_nat (length payload)) (replicate 10 0) 10 in
  take (Z.to_nat enc.1) enc.2 ++ payload.

(** The connections among the results of [accept]. *)
Fixpoint accepted (acc : list Health.accept_result) : list sock :=
  match acc with
  | [] => []
  | Health.Accepted cfd :: acc' => cfd :: accepted acc'
  | Health.AcceptFailed _ :: acc' => accepted acc'
  end.

(** The failures of [accept] that are neither interruptions nor
    would-block. *)
Fixpoint hard_failures (acc : list Health.accept_result) : nat :=
  match acc with
  | [] => 0
  | Health.AcceptFailed errno :: acc' =>
      if (errno =? Health.EINTR) || (errno =? Health.EAGAIN)
         || (errno =? Health.EWOULDBLOCK)
      then hard_failures acc' else S (hard_failures acc')
  | Health.Accepted _ :: acc' => hard_failures acc'
  end.

(** A result of [accept] on a listening socket that is still there: an
    open connection, or a failure other than [EBADF]. *)
Definition accept_ok (a : Health.accept_result) : Prop :=
  match a with
  | Health.Accepted cfd => is_open cfd = true
  | Health.AcceptFailed errno => errno ≠ Health.EBADF
  end.

(** The configuration fits the variables that hold it: strings of at
    most 63 characters (64-byte arrays), ports that are [uint16_t]. *)
Definition config_fits (st : Health.health_state) : Prop :=
  (String.length (Health.g_bind_addr st) ≤ 63)%nat ∧
  (String.length (Health.g_advertise_ip st) ≤ 63)%nat ∧
  (String.length (Health.g_reg_server_ip st) ≤ 63)%nat ∧
  0 <= Health.g_port st < 2 ^ 16 ∧
  0 <= Health.g_reg_server_port st < 2 ^ 16.

(** The bytes of the varint of [v], as [varint_encode] stores them in a
    buffer of ten bytes. *)
Definition varint_bytes (v : Z) : list Z :=
  let enc := Health.varint_encode v (replicate 10 0) 10 in
  take (Z.to_nat enc.1) enc.2.

(** The RegisterRequest message of the protocol description in
    [amf-health.c]: field 1 (node type 13), field 2 (the address, length
    delimited), field 3 (the port). *)
Definition register_request_message (ip : string) (port : Z) : list Z :=
  [0x08; 0x0D; 0x12; Z.of_nat (String.length ip)]
  ++ Health.string_bytes ip ++ [0x18] ++ varint_bytes port.

(** How [do_registration] reads a response payload: accepted when it
    starts with [08 01], rejected when it starts with [08] and another
    byte, no verdict otherwise. *)
Definition expected_verdict (resp : list Z) : list Health.reg_log :=
  match resp with
  | b0 :: b1 :: _ =>
      if b0 =? 0x08
      then if b1 =? 0x01 then [Health.RegAccepted] else [Health.RegRejected]
      else []
  | _ => []
  end.

(** * Properties *)

(** ** The socket model *)

Lemma stream_set_rx s r : stream (set_rx s r) = concat r.
Proof. done. Qed.

Lemma set_rx_set_rx s r r' : set_rx (set_rx s r) r' = set_rx s r'.
Proof. done. Qed.

Lemma rx_take_spec len segs got rest :
  rx_take len segs = (got, rest) →
  ∃ k : nat, (k ≤ len)%nat ∧ (k ≤ length (concat segs))%nat ∧
    got = take k (concat segs) ∧ concat rest = drop k (concat segs) ∧
    ((0 < len)%nat → concat segs ≠ [] → (0 < k)%nat).
Proof.
  revert got rest. induction segs as [|seg segs IH]; intros got rest H.
  - simpl in H. injection H as <- <-. exists 0%nat. simpl.
    repeat split; try done; lia.
  - destruct seg as [|z seg].
    + simpl in H. simpl. by apply IH.
    + cbn [rx_take] in H. injection H as <- <-.
      exists (Nat.min len (length (z :: seg))).
      cbn [concat]. rewrite length_app.
      repeat split; try lia.
      * rewrite take_app_le by lia.
        destruct (Nat.le_gt_cases len (length (z :: seg))).
        -- by rewrite Nat.min_l by lia.
        -- rewrite Nat.min_r by lia. by rewrite !take_ge by lia.
      * cbn [concat].
        destruct (Nat.le_gt_cases len (length (z :: seg))).
        -- rewrite Nat.min_l by lia. by rewrite drop_app_le by lia.
        -- rewrite Nat.min_r by lia. rewrite drop_ge by lia.
           by rewrite drop_app_length.
      * intros ? _. simpl. lia.
Qed.

Lemma recv_open s len :
  is_open s = true →
  ∃ (k : nat) r,
    recv s len = (Z.of_nat k, take k (stream s), set_rx s r) ∧
    concat r = drop k (stream s) ∧
    (k ≤ Z.to_nat len)%nat ∧ (k ≤ length (stream s))%nat ∧
    (0 < len → stream s ≠ [] → (0 < k)%nat).
Proof.
  intros Ho. unfold recv. rewrite Ho.
  destruct (rx_take (Z.to_nat len) (rx s)) as [got rest] eqn:E.
  apply rx_take_spec in E as (k & Hk & Hl & -> & Hr & Hpos).
  exists k, rest. unfold stream. split.
  - by rewrite length_take_le by lia.
  - repeat split; try done. intros. apply Hpos; [lia|done].
Qed.

Lemma recv_end s len :
  stream s = [] → ∃ s1, recv s len = (fst (fst (recv s len)), [], s1) ∧
    fst (fst (recv s len)) <= 0 ∧ tx s1 = tx s ∧ tx_room s1 = tx_room s ∧
    is_open s1 = is_open s ∧ stream s1 = [].
Proof.
  intros He. destruct (is_open s) eqn:Ho.
  - destruct (recv_open s len Ho) as (k & r & E & Hr & _ & Hk & _).
    rewrite He in *. simpl in Hk. assert (k = 0%nat) as -> by lia.
    rewrite E. simpl. exists (set_rx s r). repeat split; try done.
  - unfold recv. rewrite Ho. simpl. exists s. repeat split; done.
Qed.

Lemma buf_store_nil buf off : buf_store buf off [] = buf.
Proof. done. Qed.

Lemma buf_store_app buf off d1 d2 :
  0 <= off →
  buf_store (buf_store buf off d1) (off + Z.of_nat (length d1)) d2
  = buf_store buf off (d1 ++ d2).
Proof.
  intros. unfold buf_store. rewrite list_inserts_app_l. f_equal. lia.
Qed.

Lemma buf_store_0_take buf data :
  (length data ≤ length buf)%nat →
  take (length data) (buf_store buf 0 data) = data.
Proof.
  intros H. unfold buf_store. simpl.
  rewrite <- (take_drop (length data) buf) at 1.
  rewrite list_inserts_0_r by (rewrite length_take; lia).
  by rewrite take_app_length.
Qed.

Lemma length_buf_store buf off data :
  length (buf_store buf off data) = length buf.
Proof. apply length_inserts. Qed.

(** With [len - total] bytes still to come the loop stores exactly those
    bytes at [buf + total] and leaves the rest of the stream unread. *)
Lemma recv_exact_stream left s buf len total :
  is_open s = true → 0 <= total <= len → len - total <= Z.of_nat left →
  len - total <= Z.of_nat (length (stream s)) →
  ∃ r, recv_exact left s buf len total
       = (len, buf_store buf total (take (Z.to_nat (len - total)) (stream s)),
          set_rx s r) ∧
       concat r = drop (Z.to_nat (len - total)) (stream s).
Proof.
  revert s buf total.
  induction left as [|left IH]; intros s buf total Ho Ht Hl Hs.
  - assert (total = len) as -> by lia. exists (rx s). simpl.
    rewrite Z.sub_diag. simpl. split; [by destruct s|done].
  - cbn [recv_exact]. destruct (total <? len) eqn:Hlt.
    + apply Z.ltb_lt in Hlt.
      destruct (recv_open s (len - total) Ho) as (k & r & E & Hr & Hk & Hks & Hpos).
      rewrite E.
      assert (0 < k)%nat.
      { apply Hpos; [lia|]. intros Hnil. rewrite Hnil in Hs. simpl in Hs. lia. }
      destruct (Z.of_nat k <=? 0) eqn:Hle; [apply Z.leb_le in Hle; lia|].
      destruct (IH (set_rx s r) (buf_store buf total (take k (stream s)))
                  (total + Z.of_nat k)) as (r' & E' & Hr'); try (simpl; done || lia).
      { rewrite stream_set_rx, Hr, length_drop. lia. }
      exists r'. rewrite E'. rewrite stream_set_rx, Hr in *.
      rewrite set_rx_set_rx. split.
      * f_equal. f_equal.
        replace (total + Z.of_nat k) with
          (total + Z.of_nat (length (take k (stream s))))
          by (rewrite length_take; lia).
        rewrite buf_store_app by lia. f_equal.
        rewrite take_take_drop, length_take. f_equal. lia.
      * rewrite Hr', drop_drop. f_equal. lia.
    + apply Z.ltb_ge in Hlt. assert (total = len) as -> by lia.
      exists (rx s). rewrite Z.sub_diag. simpl. split; [by destruct s|done].
Qed.

(** The bound [left] only has to cover [len - total]: every round of the
    loop stores at least one byte. *)
Lemma recv_exact_fuel left left' s buf len total :
  len - total <= Z.of_nat left → len - total <= Z.of_nat left' →
  recv_exact left s buf len total = recv_exact left' s buf len total.
Proof.
  revert left' s buf total.
  induction left as [|left IH]; intros left' s buf total Hl Hl'.
  - destruct left' as [|left']; [done|]. cbn [recv_exact].
    by destruct (Z.ltb_spec total len); [lia|].
  - destruct left' as [|left']; cbn [recv_exact].
    + by destruct (Z.ltb_spec total len); [lia|].
    + destruct (Z.ltb_spec total len); [|done].
      destruct (recv s (len - total)) as [[n got] s1].
      destruct (Z.leb_spec n 0); [done|]. apply IH; lia.
Qed.

(** With fewer than [len - total] bytes to come the receive loop fails. *)
Lemma recv_exact_short left s buf len total :
  is_open s = true → 0 <= total →
  Z.of_nat (length (stream s)) < len - total → len - total <= Z.of_nat left →
  (recv_exact left s buf len total).1.1 = -1.
Proof.
  revert s buf total.
  induction left as [|left IH]; intros s buf total Ho Ht Hs Hl; [lia|].
  cbn [recv_exact]. destruct (Z.ltb_spec total len); [|lia].
  destruct (recv_open s (len - total) Ho) as (k & r & E & Hr & Hk & Hks & Hpos).
  rewrite E. destruct (Z.leb_spec (Z.of_nat k) 0); [done|].
  apply IH; try (done || lia).
  rewrite stream_set_rx, Hr, length_drop. lia.
Qed.

(** ** Bit-level arithmetic *)

Lemma lor_shiftl_add a b n :
  0 <= n → 0 <= a < 2 ^ n → Z.lor a (Z.shiftl b n) = a + b * 2 ^ n.
Proof.
  intros Hn Ha. rewrite <- Z.shiftl_mul_pow2 by done.
  assert (Z.land a (Z.shiftl b n) = 0) as Hd.
  { apply Z.bits_inj'. intros m Hm. rewrite Z.land_spec, Z.bits_0.
    destruct (Z.lt_ge_cases m n).
    - rewrite Z.shiftl_spec_low by done. apply andb_false_r.
    - rewrite <- (Z.mod_small a (2 ^ n)) by done.
      rewrite Z.mod_pow2_bits_high by lia. done. }
  rewrite <- Z.lxor_lor by done. symmetry. by apply Z.add_nocarry_lxor.
Qed.

Lemma land_0x7F v : Z.land v 0x7F = v mod 128.
Proof. apply (Z.land_ones v 7). lia. Qed.

Lemma land_0x80 v : Z.land v 0x80 = 128 * ((v / 128) mod 2).
Proof.
  change 0x80 with (2 ^ 7). rewrite <- (Z.testbit_spec' v 7) by lia.
  apply Z.bits_inj'. intros m Hm.
  rewrite Z.land_spec, Z.pow2_bits_eqb by lia.
  destruct (Z.testbit v 7) eqn:Hb; simpl Z.b2z.
  - rewrite Z.mul_1_r, Z.pow2_bits_eqb by lia.
    destruct (Z.eqb_spec 7 m) as [<-|]; [by rewrite Hb|apply andb_false_r].
  - rewrite Z.mul_0_r, Z.bits_0.
    destruct (Z.eqb_spec 7 m) as [<-|]; [by rewrite Hb|apply andb_false_r].
Qed.

Lemma shiftr_7 v : Z.shiftr v 7 = v / 128.
Proof. apply (Z.shiftr_div_pow2 v 7). lia. Qed.

(** [msg_len |= (uint64_t)g << shift] adds the group in place, modulo
    [2^64], when [msg_len] lies below the group. *)
Lemma lor_group msg_len g shift :
  0 <= shift <= 64 → 0 <= msg_len < 2 ^ shift → 0 <= g →
  Z.lor msg_len (to_uint64 (Z.shiftl g shift))
  = (msg_len + g * 2 ^ shift) mod 2 ^ 64.
Proof.
  intros Hs Hm Hg. unfold to_uint64.
  rewrite Z.shiftl_mul_pow2 by lia.
  assert (2 ^ 64 = 2 ^ (64 - shift) * 2 ^ shift) as Hsplit.
  { rewrite <- Z.pow_add_r by lia. f_equal. lia. }
  assert (0 < 2 ^ shift) by (apply Z.pow_pos_nonneg; lia).
  assert (0 < 2 ^ (64 - shift)) by (apply Z.pow_pos_nonneg; lia).
  rewrite Hsplit, Z.mul_mod_distr_r by lia.
  pose proof (Z.mod_pos_bound g (2 ^ (64 - shift)) ltac:(lia)) as Hb.
  rewrite <- Z.shiftl_mul_pow2, lor_shiftl_add by lia.
  rewrite <- Hsplit.
  rewrite (Z.div_mod g (2 ^ (64 - shift))) at 2 by lia.
  replace (msg_len + (2 ^ (64 - shift) * (g / 2 ^ (64 - shift))
                      + g mod 2 ^ (64 - shift)) * 2 ^ shift)
    with (msg_len + g mod 2 ^ (64 - shift) * 2 ^ shift
          + (g / 2 ^ (64 - shift)) * 2 ^ 64) by (rewrite Hsplit; ring).
  rewrite Z.mod_add by lia. symmetry. apply Z.mod_small.
  split; [nia|]. rewrite Hsplit. nia.
Qed.

(** ** Varints *)

Lemma pow128_pos (k : nat) : 0 < 128 ^ Z.of_nat k.
Proof. apply Z.pow_pos_nonneg; lia. Qed.

Lemma pow128_succ (k : nat) : 128 ^ Z.of_nat (S k) = 128 * 128 ^ Z.of_nat k.
Proof. rewrite Nat2Z.inj_succ, Z.pow_succ_r by lia. done. Qed.

Lemma div128_bound (k : nat) v :
  0 <= v < 128 ^ Z.of_nat (S k) → 0 <= v / 128 < 128 ^ Z.of_nat k.
Proof.
  rewrite pow128_succ. intros [H0 H1]. split.
  - apply Z.div_pos; lia.
  - apply Z.div_lt_upper_bound; lia.
Qed.

Lemma low_group_byte v : 0 <= v → to_uint8 (Z.land v 0x7F) = v mod 128.
Proof.
  intros. rewrite land_0x7F. unfold to_uint8.
  pose proof (Z.mod_pos_bound v 128 ltac:(lia)).
  apply Z.mod_small. change (2 ^ 8) with 256. lia.
Qed.

Lemma continued_byte g : 0 <= g < 128 → Z.lor g 0x80 = g + 128.
Proof.
  intros. change 0x80 with (Z.shiftl 1 7).
  rewrite lor_shiftl_add by (change (2 ^ 7) with 128; lia). done.
Qed.

Lemma length_varint_groups (room k : nat) v :
  0 <= v < 128 ^ Z.of_nat k → (0 < room)%nat → (0 < k)%nat →
  (1 ≤ length (varint_groups room v) ≤ k)%nat.
Proof.
  revert k v. induction room as [|room IH]; intros k v Hv Hr Hk; [lia|].
  cbn [varint_groups]. rewrite shiftr_7.
  destruct (Z.eqb_spec (v / 128) 0) as [|Hne]; [simpl; lia|].
  destruct k as [|k]; [lia|]. pose proof (div128_bound k v Hv) as Hd.
  destruct k as [|k]; [simpl in Hd; lia|].
  destruct room as [|room]; [simpl; lia|].
  specialize (IH (S k) (v / 128) Hd ltac:(lia) ltac:(lia)).
  cbn [length]. lia.
Qed.

(** With room for all of them, [varint_encode] stores the groups of [v]
    from [buf + n] on and returns the index after the last one. *)
Lemma varint_encode_from_groups (room : nat) v buf n :
  0 <= n → 0 <= v < 128 ^ Z.of_nat room → (0 < room)%nat →
  Health.varint_encode_from room v buf n
  = (n + Z.of_nat (length (varint_groups room v)),
     buf_store buf n (varint_groups room v)).
Proof.
  revert v buf n. induction room as [|room IH]; intros v buf n Hn Hv Hr; [lia|].
  cbn [Health.varint_encode_from varint_groups]. rewrite shiftr_7.
  destruct (Z.eqb_spec (v / 128) 0) as [|Hne].
  - done.
  - pose proof (div128_bound room v Hv) as Hd.
    destruct room as [|room]; [simpl in Hd; lia|].
    rewrite IH by lia. f_equal; [cbn [length]; lia|].
    unfold buf_store. cbn [list_inserts].
    rewrite list_insert_inserts_lt by lia. do 2 f_equal. lia.
Qed.

(** Whatever the room, the index returned is [-1] or at most [k] past [n]
    when [v] fits [k] groups. *)
Lemma varint_encode_from_bound (room k : nat) v buf n :
  0 <= v < 128 ^ Z.of_nat k → (0 < k)%nat →
  (Health.varint_encode_from room v buf n).1 = -1 ∨
  n < (Health.varint_encode_from room v buf n).1 <= n + Z.of_nat k.
Proof.
  revert k v buf n. induction room as [|room IH]; intros k v buf n Hv Hk.
  - by left.
  - cbn [Health.varint_encode_from]. rewrite shiftr_7.
    destruct (Z.eqb_spec (v / 128) 0) as [|Hne]; [simpl; lia|].
    destruct k as [|k]; [lia|]. pose proof (div128_bound k v Hv) as Hd.
    destruct k as [|k]; [simpl in Hd; lia|].
    match goal with |- context [Health.varint_encode_from room ?v' ?b' ?n'] =>
      destruct (IH (S k) v' b' n' Hd ltac:(lia)) as [->|?] end; [by left|lia].
Qed.

(** Whatever the room, only the [k] bytes from [buf + n] on can change
    when [v] fits [k] groups. *)
Lemma varint_encode_from_stores (room k : nat) v buf n :
  0 <= n → 0 <= v < 128 ^ Z.of_nat k → (0 < k)%nat →
  ∃ bytes, (Health.varint_encode_from room v buf n).2 = buf_store buf n bytes ∧
    (length bytes ≤ k)%nat.
Proof.
  revert k v buf n. induction room as [|room IH]; intros k v buf n Hn Hv Hk.
  - exists []. split; [done|simpl; lia].
  - cbn [Health.varint_encode_from]. rewrite shiftr_7.
    destruct (Z.eqb_spec (v / 128) 0) as [|Hne].
    + eexists [_]. split; [done|simpl; lia].
    + destruct k as [|k]; [lia|]. pose proof (div128_bound k v Hv) as Hd.
      destruct k as [|k]; [simpl in Hd; lia|].
      match goal with |- context [Health.varint_encode_from room ?v' ?b' ?n'] =>
        destruct (IH (S k) v' b' n' ltac:(lia) Hd ltac:(lia))
          as (bytes & -> & Hlen) end.
      eexists (_ :: bytes). split; [|simpl; lia].
      unfold buf_store. cbn [list_inserts].
      rewrite list_insert_inserts_lt by lia. do 2 f_equal. lia.
Qed.

Lemma drop_buf_store buf bytes (k : nat) :
  (length bytes ≤ k)%nat → drop k (buf_store buf 0 bytes) = drop k buf.
Proof.
  intros H. apply list_eq. intros i. rewrite !lookup_drop.
  unfold buf_store. apply list_lookup_inserts_ge. simpl. lia.
Qed.

(** Decoding the groups of [v] placed at [shift] adds [v * 2^shift]. *)
Lemma varint_scan_groups (k rounds : nat) v rest msg_len shift :
  0 <= v < 128 ^ Z.of_nat k → (0 < k ≤ rounds)%nat →
  0 <= shift <= 64 → 0 <= msg_len < 2 ^ shift →
  msg_len + v * 2 ^ shift < 2 ^ 64 →
  varint_scan rounds (varint_groups k v ++ rest) msg_len shift
  = (Some (msg_len + v * 2 ^ shift), rest).
Proof.
  revert rounds v msg_len shift.
  induction k as [|k IH]; intros rounds v msg_len shift Hv Hk Hs Hm Hfit; [lia|].
  destruct rounds as [|rounds]; [lia|].
  cbn [varint_groups]. rewrite shiftr_7, low_group_byte by lia.
  pose proof (Z.mod_pos_bound v 128 ltac:(lia)) as Hg.
  pose proof (Z.div_mod v 128 ltac:(lia)) as Hdm.
  assert (0 < 2 ^ shift) as Hp by (apply Z.pow_pos_nonneg; lia).
  assert (0 <= v / 128) as Hq by (apply Z.div_pos; lia).
  destruct (Z.eqb_spec (v / 128) 0) as [Hz|Hne].
  - cbn [app varint_scan]. rewrite land_0x80, land_0x7F, Z.mod_mod by lia.
    rewrite (Z.div_small (v mod 128)) by lia.
    change (128 * (0 mod 2) =? 0) with true. cbn iota.
    rewrite lor_group by lia.
    replace (v mod 128) with v by lia.
    rewrite Z.mod_small by nia. done.
  - pose proof (div128_bound k v Hv) as Hd.
    destruct k as [|k]; [simpl in Hd; lia|].
    rewrite continued_byte by lia.
    cbn [app varint_scan]. rewrite land_0x80, land_0x7F.
    replace ((v mod 128 + 128) / 128) with 1
      by (apply Z.div_unique with (r := v mod 128); lia).
    change (128 * (1 mod 2) =? 0) with false. cbn iota.
    replace ((v mod 128 + 128) mod 128) with (v mod 128)
      by (apply Z.mod_unique with (q := 1); lia).
    rewrite lor_group by lia.
    assert (2 ^ (shift + 7) = 128 * 2 ^ shift) as Hp7
      by (rewrite Z.pow_add_r by lia; change (2 ^ 7) with 128; lia).
    assert (msg_len + v * 2 ^ shift
            = msg_len + v mod 128 * 2 ^ shift + v / 128 * 2 ^ (shift + 7)) as Hv'
      by (rewrite Hp7; nia).
    rewrite Z.mod_small by nia.
    assert (shift + 7 <= 64).
    { destruct (Z.le_gt_cases (shift + 7) 64) as [|Hgt]; [done|exfalso].
      assert (2 ^ 64 <= 2 ^ (shift + 7)) by (apply Z.pow_le_mono_r; lia).
      nia. }
    rewrite IH; [by rewrite Hv'|done|lia|lia|rewrite Hp7; nia|lia].
Qed.

(** Bytes that all carry the continuation bit are read to the last round
    and leave the sum of their groups modulo [2^64]. *)
Lemma varint_scan_continued bs rest msg_len shift :
  Forall (λ b, Z.land b 0x80 ≠ 0) bs →
  0 <= shift → shift + 7 * Z.of_nat (length bs) <= 71 →
  0 <= msg_len < 2 ^ shift → msg_len < 2 ^ 64 →
  varint_scan (length bs) (bs ++ rest) msg_len shift
  = (Some ((msg_len + low7_sum shift bs) mod 2 ^ 64), rest).
Proof.
  revert msg_len shift.
  induction bs as [|b bs IH]; intros msg_len shift Hc Hs Hl Hm Hw.
  - simpl. rewrite Z.add_0_r, Z.mod_small by lia. done.
  - apply Forall_cons in Hc as [Hb Hc]. cbn [length] in *.
    cbn [app varint_scan low7_sum].
    destruct (Z.eqb_spec (Z.land b 0x80) 0) as [|_]; [done|].
    pose proof (land_0x7F b) as Hg.
    pose proof (Z.mod_pos_bound b 128 ltac:(lia)) as Hg'.
    assert (0 < 2 ^ shift) as Hp by (apply Z.pow_pos_nonneg; lia).
    assert (2 ^ (shift + 7) = 128 * 2 ^ shift) as Hp7
      by (rewrite Z.pow_add_r by lia; change (2 ^ 7) with 128; lia).
    rewrite lor_group by lia.
    pose proof (Z.mod_pos_bound (msg_len + Z.land b 0x7F * 2 ^ shift)
                  (2 ^ 64) ltac:(lia)) as Hw'.
    assert ((msg_len + Z.land b 0x7F * 2 ^ shift) mod 2 ^ 64
            <= msg_len + Z.land b 0x7F * 2 ^ shift) as Hle
      by (apply Z.mod_le; nia).
    rewrite IH; [|done|lia|lia|nia|lia].
    rewrite Z.add_mod_idemp_l, Z.add_assoc by lia. done.
Qed.

(** On an open socket the prefix loop is [varint_scan] of the stream. *)
Lemma read_varint_scan rounds s msg_len shift :
  is_open s = true →
  ∃ r, Health.read_varint rounds s msg_len shift
       = ((varint_scan rounds (stream s) msg_len shift).1, set_rx s r) ∧
       concat r = (varint_scan rounds (stream s) msg_len shift).2.
Proof.
  revert s msg_len shift.
  induction rounds as [|rounds IH]; intros s msg_len shift Ho.
  - exists (rx s). simpl. split; [by destruct s|done].
  - cbn [Health.read_varint].
    destruct (recv_open s 1 Ho) as (k & r & E & Hr & Hk & Hks & Hpos).
    rewrite E. destruct (stream s) as [|b bs] eqn:Es.
    + simpl in Hks. assert (k = 0%nat) as -> by lia.
      exists r. simpl. split; [done|]. by rewrite Hr.
    + assert (k = 1%nat) as -> by (specialize (Hpos ltac:(lia) ltac:(done)); lia).
      simpl in Hr. cbn [varint_scan take]. simpl (default _ _). simpl (_ <=? _).
      cbn iota.
      destruct (Z.land b 0x80 =? 0).
      * exists r. by rewrite Hr.
      * destruct (IH (set_rx s r)
          (Z.lor msg_len (to_uint64 (Z.shiftl (Z.land b 0x7F) shift)))
          (shift + 7) Ho) as (r' & E' & Hr').
        rewrite stream_set_rx, Hr in E', Hr'.
        exists r'. by rewrite E', set_rx_set_rx.
Qed.

Lemma uint64_fits_ten_groups v : 0 <= v < 2 ^ 64 → 0 <= v < 128 ^ Z.of_nat 10.
Proof. intros. assert (2 ^ 64 < 128 ^ Z.of_nat 10) by done. lia. Qed.

(** C4. For every [v] in [0, 2^63), the prefix loop of [read_delimited],
    fed the bytes [varint_encode] stored for [v] (and whatever follows
    them), yields [v] and stops after those bytes; and for every 64-bit
    [w], whatever the buffer and its size, [varint_encode] returns at most
    10 and leaves the buffer beyond its first 10 bytes as it was. *)
Theorem varint_round_trip v w lenbuf buf bufsz s rest :
  0 <= v < 2 ^ 63 → 0 <= w < 2 ^ 64 →
  (10 ≤ length lenbuf)%nat → is_open s = true →
  stream s = take (Z.to_nat (Health.varint_encode v lenbuf 10).1)
               (Health.varint_encode v lenbuf 10).2 ++ rest →
  (∃ r, Health.read_varint 10 s 0 0 = (Some v, set_rx s r) ∧ concat r = rest)
  ∧ (Health.varint_encode w buf bufsz).1 <= 10
  ∧ drop 10 (Health.varint_encode w buf bufsz).2 = drop 10 buf.
Proof.
  intros Hv Hw Hlen Ho Hs. split; [|split].
  - assert (0 <= v < 128 ^ Z.of_nat 10) as Hv10
      by (apply uint64_fits_ten_groups; lia).
    pose proof (length_varint_groups 10 10 v Hv10 ltac:(lia) ltac:(lia)) as Hg.
    unfold Health.varint_encode in Hs. change (Z.to_nat 10) with 10%nat in Hs.
    rewrite varint_encode_from_groups in Hs by (done || lia).
    cbn [fst snd] in Hs. rewrite Z.add_0_l, Nat2Z.id in Hs.
    rewrite buf_store_0_take in Hs by lia.
    destruct (read_varint_scan 10 s 0 0 Ho) as (r & E & Hr).
    rewrite Hs, varint_scan_groups in E, Hr; try (done || lia).
    exists r. by rewrite E, Hr, Z.add_0_l, Z.mul_1_r.
  - unfold Health.varint_encode.
    destruct (varint_encode_from_bound (Z.to_nat bufsz) 10 w buf 0
                (uint64_fits_ten_groups w Hw) ltac:(lia)); lia.
  - unfold Health.varint_encode.
    destruct (varint_encode_from_stores (Z.to_nat bufsz) 10 w buf 0
                ltac:(lia) (uint64_fits_ten_groups w Hw) ltac:(lia))
      as (bytes & -> & Hlen'). by apply drop_buf_store.
Qed.

Lemma varint_round_trip_witness :
  (∃ r, Health.read_varint 10 (Sock [[0xAC]; [0x02; 0x07]] 0 [] true) 0 0
        = (Some 300, set_rx (Sock [[0xAC]; [0x02; 0x07]] 0 [] true) r)
        ∧ concat r = [0x07])
  ∧ (Health.varint_encode (2 ^ 64 - 1) (replicate 4 0) 32).1 <= 10
  ∧ drop 10 (Health.varint_encode (2 ^ 64 - 1) (replicate 4 0) 32).2
    = drop 10 (replicate 4 0).
Proof.
  apply (varint_round_trip 300 (2 ^ 64 - 1) (replicate 10 0) (replicate 4 0) 32
           (Sock [[0xAC]; [0x02; 0x07]] 0 [] true) [0x07]);
    [lia | lia | simpl; lia | reflexivity | reflexivity].
Defined.

(** What [read_delimited] does with a decoded length [V]: the three
    tests of the source, [msg_len == 0], [(int)msg_len > max_len] and
    [total < (int)msg_len]. *)
Lemma read_delimited_body_decision V s buf max_len :
  is_open s = true →
  (V = 0 → Health.read_delimited_body V s buf max_len = (0, buf, s)) ∧
  (V ≠ 0 → to_int V > max_len →
   Health.read_delimited_body V s buf max_len = (-1, buf, s)) ∧
  (V ≠ 0 → to_int V <= max_len → to_int V <= 0 →
   Health.read_delimited_body V s buf max_len = (0, buf, s)) ∧
  (0 < to_int V <= max_len → max_len <= Z.of_nat (length buf) →
   ∀ payload rest,
     stream s = payload ++ rest → Z.of_nat (length payload) = to_int V →
     ∃ out r, Health.read_delimited_body V s buf max_len
              = (to_int V, out, set_rx s r) ∧
       take (length payload) out = payload ∧
       drop (length payload) out = drop (length payload) buf ∧
       concat r = rest) ∧
  (0 < to_int V <= max_len → Z.of_nat (length (stream s)) < to_int V →
   (Health.read_delimited_body V s buf max_len).1.1 = -1).
Proof.
  intros Ho. unfold Health.read_delimited_body.
  split; [by intros ->|].
  split.
  { intros Hne Hgt. destruct (Z.eqb_spec V 0); [done|].
    by destruct (Z.gtb_spec (to_int V) max_len); [|lia]. }
  split.
  { intros Hne Hle Hneg. destruct (Z.eqb_spec V 0); [done|].
    destruct (Z.gtb_spec (to_int V) max_len); [lia|].
    by replace (Z.to_nat (to_int V)) with 0%nat by lia. }
  assert (0 < to_int V → V ≠ 0) as Hnz by (by intros H ->).
  split.
  - intros Hr Hbuf payload rest Hs Hlen.
    destruct (Z.eqb_spec V 0) as [E|_]; [by apply Hnz in E; [|lia]|].
    destruct (Z.gtb_spec (to_int V) max_len); [lia|].
    destruct (recv_exact_stream (Z.to_nat (to_int V)) s buf (to_int V) 0)
      as (r & E & Hr'); try (done || lia).
    { rewrite Hs, length_app. lia. }
    rewrite Hs, Z.sub_0_r, <- Hlen, Nat2Z.id in E, Hr'.
    rewrite take_app_length in E. rewrite drop_app_length in Hr'.
    rewrite <- Hlen, Nat2Z.id. exists (buf_store buf 0 payload), r.
    split; [by rewrite E|]. split; [apply buf_store_0_take; lia|].
    split; [apply drop_buf_store; lia|done].
  - intros Hr Hshort.
    destruct (Z.eqb_spec V 0) as [E|_]; [by apply Hnz in E; [|lia]|].
    destruct (Z.gtb_spec (to_int V) max_len); [lia|].
    apply recv_exact_short; (done || lia).
Qed.

(** C10. When the first ten bytes of the stream all carry the continuation
    bit, the prefix loop of [read_delimited] reads exactly those ten bytes
    and reports no error; the length [V] is the sum of their low seven bits
    (at shifts 0, 7, ..., 63) modulo [2^64], and [read_delimited] decides on
    it as on any other length: [V = 0] is an empty frame ([0], nothing more
    read); [(int)V] above [max_len] is rejected ([-1], nothing more read);
    [(int)V] not positive, as for ten [FF] bytes, returns [0] with nothing
    more read; otherwise exactly [(int)V] payload bytes are read into the
    buffer and [(int)V] is returned, or [-1] when the stream ends before
    them.  [(int)V] is [V] for every [V] up to [INT_MAX]. *)
Theorem read_delimited_unterminated_prefix bs rest s buf max_len :
  length bs = 10%nat → Forall (λ b, Z.land b 0x80 ≠ 0) bs →
  is_open s = true → stream s = bs ++ rest →
  let V := low7_sum 0 bs mod 2 ^ 64 in
  ∃ r, Health.read_varint 10 s 0 0 = (Some V, set_rx s r) ∧
       concat r = rest ∧
       (V = 0 → Health.read_delimited s buf max_len = (0, buf, set_rx s r)) ∧
       (V ≠ 0 → to_int V > max_len →
        Health.read_delimited s buf max_len = (-1, buf, set_rx s r)) ∧
       (V ≠ 0 → to_int V <= max_len → to_int V <= 0 →
        Health.read_delimited s buf max_len = (0, buf, set_rx s r)) ∧
       (0 < to_int V <= max_len → max_len <= Z.of_nat (length buf) →
        ∀ payload rest',
          rest = payload ++ rest' → Z.of_nat (length payload) = to_int V →
          ∃ out r', Health.read_delimited s buf max_len
                    = (to_int V, out, set_rx s r') ∧
            take (length payload) out = payload ∧
            drop (length payload) out = drop (length payload) buf ∧
            concat r' = rest') ∧
       (0 < to_int V <= max_len → Z.of_nat (length rest) < to_int V →
        (Health.read_delimited s buf max_len).1.1 = -1) ∧
       (V <= INT_MAX → to_int V = V).
Proof.
  intros Hl Hc Ho Hs V.
  destruct (read_varint_scan 10 s 0 0 Ho) as (r & E & Hr).
  assert (varint_scan 10 (stream s) 0 0 = (Some V, rest)) as Hscan.
  { rewrite Hs, <- Hl, varint_scan_continued by (done || lia).
    by rewrite Z.add_0_l. }
  rewrite Hscan in E, Hr. cbn [fst snd] in E, Hr.
  assert (Health.read_delimited s buf max_len
          = Health.read_delimited_body V (set_rx s r) buf max_len) as ->
    by (unfold Health.read_delimited; by rewrite E).
  destruct (read_delimited_body_decision V (set_rx s r) buf max_len Ho)
    as (H0 & Hover & Hneg & Hbody & Hshort).
  rewrite stream_set_rx, Hr in Hbody, Hshort.
  exists r. repeat split; try done.
  intros HV. unfold to_int, INT_MAX in *.
  pose proof (Z.mod_pos_bound (low7_sum 0 bs) (2 ^ 64) ltac:(lia)).
  rewrite Z.mod_small; subst V; lia.
Qed.

Lemma read_delimited_unterminated_prefix_witness :
  let ones := replicate 10 0xFF in
  let three := 0x83 :: replicate 9 0x80 in
  let large := [0xC8; 0x81] ++ replicate 8 0x80 in
  let s1 := Sock [ones; [0x01]] 0 [] true in
  let s2 := Sock [take 4 three; drop 4 three ++ [0xAA; 0xBB]; [0xCC; 0xDD]]
              0 [] true in
  let s3 := Sock [large; [0xAA]] 0 [] true in
  (low7_sum 0 ones mod 2 ^ 64 = 2 ^ 64 - 1 ∧
   ∃ r, Health.read_varint 10 s1 0 0 = (Some (2 ^ 64 - 1), set_rx s1 r) ∧
        concat r = [0x01] ∧
        Health.read_delimited s1 (replicate 64 0) 64
        = (0, replicate 64 0, set_rx s1 r)) ∧
  (low7_sum 0 three mod 2 ^ 64 = 3 ∧
   ∃ out r', Health.read_delimited s2 (replicate 64 0) 64
             = (3, out, set_rx s2 r') ∧
     take 3 out = [0xAA; 0xBB; 0xCC] ∧
     drop 3 out = replicate 61 0 ∧ concat r' = [0xDD]) ∧
  (low7_sum 0 large mod 2 ^ 64 = 200 ∧
   ∃ r, Health.read_delimited s3 (replicate 64 0) 64
        = (-1, replicate 64 0, set_rx s3 r) ∧ concat r = [0xAA]).
Proof.
  intros ones three large s1 s2 s3.
  assert (∀ bs, bs = ones ∨ bs = three ∨ bs = large →
            Forall (λ b, Z.land b 0x80 ≠ 0) bs) as Hc
    by (intros bs [->|[->| ->]]; repeat constructor; done).
  split; [|split]; (split; [reflexivity|]).
  - destruct (read_delimited_unterminated_prefix ones [0x01] s1
                (replicate 64 0) 64 eq_refl (Hc _ (or_introl eq_refl))
                eq_refl eq_refl)
      as (r & E & Hr & _ & _ & Hneg & _).
    exists r. split; [exact E|]. split; [exact Hr|]. apply Hneg; by vm_compute.
  - destruct (read_delimited_unterminated_prefix three
                [0xAA; 0xBB; 0xCC; 0xDD] s2 (replicate 64 0) 64 eq_refl
                (Hc _ (or_intror (or_introl eq_refl))) eq_refl eq_refl)
      as (r & _ & _ & _ & _ & _ & Hbody & _).
    apply (Hbody ltac:(by vm_compute) ltac:(by vm_compute)
             [0xAA; 0xBB; 0xCC] [0xDD]); reflexivity.
  - destruct (read_delimited_unterminated_prefix large [0xAA] s3
                (replicate 64 0) 64 eq_refl
                (Hc _ (or_intror (or_intror eq_refl))) eq_refl eq_refl)
      as (r & _ & Hr & _ & Hover & _).
    exists r. split; [|exact Hr]. apply Hover; by vm_compute.
Defined.

(** ** Frames *)

Lemma send_all s d :
  is_open s = true → (length d ≤ tx_room s)%nat →
  send s d = (Z.of_nat (length d),
              Sock (rx s) (tx_room s - length d) (tx s ++ d) true).
Proof.
  intros Ho Hr. unfold send. rewrite Ho, Nat.min_l by lia.
  rewrite firstn_all. f_equal.
  by destruct (length d).
Qed.

Lemma length_le_bytes n v : length (Cnode.le_bytes n v) = n.
Proof. revert v. induction n; intros; simpl; auto. Qed.

Lemma le_value_le_bytes n v :
  Cnode.le_value (Cnode.le_bytes n v) = v mod 2 ^ (8 * Z.of_nat n).
Proof.
  revert v. induction n as [|n IH]; intros v.
  - simpl. by rewrite Z.mod_1_r.
  - cbn [Cnode.le_bytes Cnode.le_value]. rewrite IH.
    unfold to_uint8. rewrite Z.mod_mod by lia.
    assert (0 < 2 ^ (8 * Z.of_nat n)) by (apply Z.pow_pos_nonneg; lia).
    pose proof (Z.mod_pos_bound v (2 ^ 8) ltac:(lia)).
    rewrite lor_shiftl_add by lia.
    replace (8 * Z.of_nat (S n)) with (8 + 8 * Z.of_nat n) by lia.
    rewrite Z.pow_add_r, Z.rem_mul_r by lia.
    rewrite Z.shiftr_div_pow2 by lia. lia.
Qed.

Lemma of_nat_length_0 {A} (l : list A) : Z.of_nat (length l) = 0 → l = [].
Proof. by destruct l. Qed.

Lemma to_int_small z : 0 <= z <= INT_MAX → to_int z = z.
Proof.
  unfold to_int, INT_MAX. intros. rewrite Z.mod_small; lia.
Qed.

(** [write_delimited] on a connection that takes the whole frame. *)
Lemma write_delimited_sends s data :
  is_open s = true → Z.of_nat (length data) <= INT_MAX →
  (length (varint_groups 10 (Z.of_nat (length data))) + length data
   ≤ tx_room s)%nat →
  ∃ s', Health.write_delimited s data (Z.of_nat (length data)) = (0, s') ∧
    tx s' = tx s ++ varint_groups 10 (Z.of_nat (length data)) ++ data ∧
    rx s' = rx s ∧ is_open s' = true.
Proof.
  intros Ho Hmax Hroom. unfold Health.write_delimited, Health.varint_encode.
  set (len := Z.of_nat (length data)) in *.
  assert (to_uint64 len = len) as ->
    by (unfold to_uint64, INT_MAX in *; apply Z.mod_small; lia).
  assert (0 <= len < 128 ^ Z.of_nat 10) as Hv
    by (apply uint64_fits_ten_groups; unfold INT_MAX in *; lia).
  pose proof (length_varint_groups 10 10 len Hv ltac:(lia) ltac:(lia)) as Hg.
  change (Z.to_nat 10) with 10%nat.
  rewrite varint_encode_from_groups by (done || lia).
  rewrite Z.add_0_l.
  destruct (Z.ltb_spec (Z.of_nat (length (varint_groups 10 len))) 0); [lia|].
  rewrite Nat2Z.id.
  rewrite buf_store_0_take by (rewrite length_replicate; lia).
  rewrite send_all by (done || lia). rewrite Z.eqb_refl. cbn [negb].
  subst len. rewrite Nat2Z.id, firstn_all.
  rewrite send_all by (cbn [is_open tx_room]; done || lia).
  rewrite Z.eqb_refl. cbn [negb].
  eexists. split; [done|]. cbn [tx rx is_open]. by rewrite <- app_assoc.
Qed.

(** [write_framed] on a connection that takes the whole frame. *)
Lemma write_framed_sends s data :
  is_open s = true → Z.of_nat (length data) <= INT_MAX →
  (length data + 4 ≤ tx_room s)%nat →
  ∃ s', Cnode.write_framed s data (Z.of_nat (length data)) = (0, s') ∧
    tx s' = tx s ++ Cnode.le_bytes 4 (Z.of_nat (length data)) ++ data ∧
    rx s' = rx s ∧ is_open s' = true ∧
    tx_room s' = (tx_room s - (length data + 4))%nat.
Proof.
  intros Ho Hmax Hroom. unfold Cnode.write_framed.
  set (len := Z.of_nat (length data)) in *.
  assert (to_uint32 len = len) as ->
    by (unfold to_uint32, INT_MAX in *; apply Z.mod_small; lia).
  rewrite send_all by (rewrite ?length_le_bytes; done || lia).
  rewrite length_le_bytes. change (Z.of_nat 4 =? 4) with true. cbn [negb].
  destruct (Z.gtb_spec len 0) as [Hpos|Hz].
  - subst len. rewrite Nat2Z.id, firstn_all.
    rewrite send_all by (cbn [is_open tx_room]; rewrite ?length_le_bytes; done || lia).
    rewrite Z.eqb_refl. cbn [negb].
    eexists. split; [done|]. cbn [tx rx is_open tx_room].
    rewrite <- app_assoc. repeat split; try done. lia.
  - assert (data = []) as -> by (subst len; apply of_nat_length_0; lia).
    eexists. split; [done|]. cbn [tx rx is_open tx_room length].
    rewrite app_nil_r. repeat split; try done.
Qed.

(** [read_delimited] on a stream that starts with a Variant-V frame. *)
Lemma read_delimited_frame r data rest buf max_len :
  is_open r = true →
  Z.of_nat (length data) <= max_len → max_len <= INT_MAX →
  max_len <= Z.of_nat (length buf) →
  stream r = varint_groups 10 (Z.of_nat (length data)) ++ data ++ rest →
  ∃ out r', Health.read_delimited r buf max_len
            = (Z.of_nat (length data), out, set_rx r r') ∧
    take (length data) out = data ∧ concat r' = rest ∧
    length out = length buf.
Proof.
  intros Ho Hlen Hmax Hbuf Hs.
  set (len := Z.of_nat (length data)) in *.
  assert (0 <= len < 128 ^ Z.of_nat 10) as Hv
    by (apply uint64_fits_ten_groups; unfold INT_MAX in *; lia).
  destruct (read_varint_scan 10 r 0 0 Ho) as (r1 & E & Hr1).
  rewrite Hs, varint_scan_groups in E, Hr1;
    try (done || unfold INT_MAX in *; lia).
  cbn [fst snd] in E, Hr1. rewrite Z.add_0_l, Z.mul_1_r in E.
  unfold Health.read_delimited. rewrite E. unfold Health.read_delimited_body.
  destruct (Z.eqb_spec len 0) as [Hz|Hnz].
  - assert (data = []) as -> by (subst len; apply of_nat_length_0; lia).
    exists buf, r1. by rewrite Hr1.
  - rewrite to_int_small by lia.
    destruct (Z.gtb_spec len max_len); [lia|].
    destruct (recv_exact_stream (Z.to_nat len) (set_rx r r1) buf len 0)
      as (r2 & E2 & Hr2); try (simpl; done || lia).
    { rewrite stream_set_rx, Hr1, length_app. lia. }
    rewrite stream_set_rx, Hr1, Z.sub_0_r in E2, Hr2.
    subst len. rewrite Nat2Z.id in E2, Hr2 |- *.
    rewrite take_app_length in E2. rewrite drop_app_length in Hr2.
    rewrite E2, set_rx_set_rx. exists (buf_store buf 0 data), r2.
    rewrite buf_store_0_take, length_buf_store by lia. done.
Qed.

(** [read_framed] on a stream that starts with a Variant-F frame. *)
Lemma read_framed_frame r data rest buf max_len :
  is_open r = true →
  Z.of_nat (length data) <= max_len → max_len <= INT_MAX →
  max_len <= Z.of_nat (length buf) →
  stream r = Cnode.le_bytes 4 (Z.of_nat (length data)) ++ data ++ rest →
  ∃ out r', Cnode.read_framed r buf max_len
            = (Z.of_nat (length data), out, set_rx r r') ∧
    take (length data) out = data ∧ concat r' = rest ∧
    length out = length buf.
Proof.
  intros Ho Hlen Hmax Hbuf Hs.
  set (len := Z.of_nat (length data)) in *.
  unfold Cnode.read_framed.
  destruct (recv_exact_stream 4 r (Cnode.le_bytes 4 0) 4 0)
    as (r1 & E & Hr1); try (done || lia).
  { rewrite Hs, length_app, length_le_bytes. lia. }
  rewrite Hs in E, Hr1. change (Z.to_nat (4 - 0)) with 4%nat in E, Hr1.
  rewrite take_app_length' in E by (by rewrite length_le_bytes).
  rewrite drop_app_length' in Hr1 by (by rewrite length_le_bytes).
  assert (buf_store (Cnode.le_bytes 4 0) 0 (Cnode.le_bytes 4 len)
          = Cnode.le_bytes 4 len) as Hhdr.
  { rewrite <- (buf_store_0_take (Cnode.le_bytes 4 0) (Cnode.le_bytes 4 len))
      at 2 by (rewrite !length_le_bytes; lia).
    rewrite take_ge; [done|]. by rewrite length_buf_store, !length_le_bytes. }
  rewrite Hhdr in E. rewrite E. change (4 <? 0) with false. cbn iota.
  rewrite le_value_le_bytes.
  assert (len mod 2 ^ (8 * Z.of_nat 4) = len) as ->
    by (apply Z.mod_small; unfold INT_MAX in *; change (2 ^ (8 * Z.of_nat 4))
          with (2 ^ 32); lia).
  destruct (Z.eqb_spec len 0) as [Hz|Hnz].
  - assert (data = []) as -> by (subst len; apply of_nat_length_0; lia).
    exists buf, r1. by rewrite Hr1.
  - rewrite to_int_small by lia.
    destruct (Z.gtb_spec len max_len); [lia|].
    destruct (recv_exact_stream (Z.to_nat len) (set_rx r r1) buf len 0)
      as (r2 & E2 & Hr2); try (simpl; done || lia).
    { rewrite stream_set_rx, Hr1, length_app. lia. }
    rewrite stream_set_rx, Hr1, Z.sub_0_r in E2, Hr2.
    subst len. rewrite Nat2Z.id in E2, Hr2 |- *.
    rewrite take_app_length in E2. rewrite drop_app_length in Hr2.
    rewrite E2, set_rx_set_rx.
    destruct (Z.ltb_spec (Z.of_nat (length data)) 0); [lia|].
    exists (buf_store buf 0 data), r2.
    rewrite buf_store_0_take, length_buf_store by lia. done.
Qed.

(** C5. A payload of at most [max_len] bytes written with
    [write_delimited] (resp. [write_framed]) on a connection that takes it,
    and read with [read_delimited] (resp. [read_framed]) from a stream that
    starts with what was written, however it is segmented: the reader
    returns the payload's length (so [0], not the error value [-1], for an
    empty payload), stores the payload at the start of [buf] and leaves the
    rest of the stream unread. *)
Theorem frame_round_trip data buf max_len w rv rf rest :
  Z.of_nat (length data) <= max_len → max_len <= INT_MAX →
  max_len <= Z.of_nat (length buf) →
  is_open w = true → (length data + 10 ≤ tx_room w)%nat →
  is_open rv = true →
  stream rv
  = sent_since w (Health.write_delimited w data (Z.of_nat (length data))).2
    ++ rest →
  is_open rf = true →
  stream rf
  = sent_since w (Cnode.write_framed w data (Z.of_nat (length data))).2
    ++ rest →
  ((Health.write_delimited w data (Z.of_nat (length data))).1 = 0 ∧
   ∃ out r', Health.read_delimited rv buf max_len
             = (Z.of_nat (length data), out, set_rx rv r') ∧
     take (length data) out = data ∧ concat r' = rest)
  ∧
  ((Cnode.write_framed w data (Z.of_nat (length data))).1 = 0 ∧
   ∃ out r', Cnode.read_framed rf buf max_len
             = (Z.of_nat (length data), out, set_rx rf r') ∧
     take (length data) out = data ∧ concat r' = rest).
Proof.
  intros Hlen Hmax Hbuf Hw Hroom Hv Hsv Hf Hsf. split.
  - assert (0 <= Z.of_nat (length data) < 128 ^ Z.of_nat 10) as Hfit
      by (apply uint64_fits_ten_groups; unfold INT_MAX in *; lia).
    pose proof (length_varint_groups 10 10 _ Hfit ltac:(lia) ltac:(lia)).
    destruct (write_delimited_sends w data Hw ltac:(lia) ltac:(lia))
      as (w' & E & Htx & _).
    rewrite E in Hsv |- *. cbn [fst snd] in *. split; [done|].
    unfold sent_since in Hsv. rewrite Htx, drop_app_length, <- app_assoc in Hsv.
    destruct (read_delimited_frame rv data rest buf max_len Hv Hlen Hmax Hbuf Hsv)
      as (out & r' & E' & Ho & Hr & _).
    by exists out, r'.
  - destruct (write_framed_sends w data Hw ltac:(lia) ltac:(lia))
      as (w' & E & Htx & _).
    rewrite E in Hsf |- *. cbn [fst snd] in *. split; [done|].
    unfold sent_since in Hsf. rewrite Htx, drop_app_length, <- app_assoc in Hsf.
    destruct (read_framed_frame rf data rest buf max_len Hf Hlen Hmax Hbuf Hsf)
      as (out & r' & E' & Ho & Hr & _).
    by exists out, r'.
Qed.

Lemma frame_round_trip_witness :
  ((Health.write_delimited (Sock [] 20 [] true) [1; 2; 3] 3).1 = 0 ∧
   ∃ out r', Health.read_delimited (Sock [[3; 1]; [2; 3; 9]] 0 [] true)
               (replicate 8 0) 8
             = (3, out, set_rx (Sock [[3; 1]; [2; 3; 9]] 0 [] true) r') ∧
     take 3 out = [1; 2; 3] ∧ concat r' = [9])
  ∧
  ((Cnode.write_framed (Sock [] 20 [] true) [1; 2; 3] 3).1 = 0 ∧
   ∃ out r', Cnode.read_framed (Sock [[3; 0; 0]; [0; 1; 2; 3; 9]] 0 [] true)
               (replicate 8 0) 8
             = (3, out, set_rx (Sock [[3; 0; 0]; [0; 1; 2; 3; 9]] 0 [] true) r') ∧
     take 3 out = [1; 2; 3] ∧ concat r' = [9]).
Proof.
  apply (frame_round_trip [1; 2; 3] (replicate 8 0) 8 (Sock [] 20 [] true)
           (Sock [[3; 1]; [2; 3; 9]] 0 [] true)
           (Sock [[3; 0; 0]; [0; 1; 2; 3; 9]] 0 [] true) [9]);
    first [reflexivity | simpl; lia | by vm_compute].
Defined.

(** An empty payload is one prefix byte [0x00] (resp. four) on the wire and
    reads back as length [0] with the buffer untouched. *)
Example empty_payload_frames :
  (Health.write_delimited (Sock [] 8 [] true) [] 0).1 = 0 ∧
  tx (Health.write_delimited (Sock [] 8 [] true) [] 0).2 = [0x00] ∧
  Health.read_delimited (Sock [[0x00]] 0 [] true) [7; 7] 2
  = (0, [7; 7], Sock [[]] 0 [] true) ∧
  tx (Cnode.write_framed (Sock [] 8 [] true) [] 0).2 = [0; 0; 0; 0] ∧
  Cnode.read_framed (Sock [[0; 0; 0; 0]] 0 [] true) [7; 7] 2
  = (0, [7; 7], Sock [[]] 0 [] true) ∧
  Health.read_delimited (Sock [] 0 [] true) [7; 7] 2 = (-1, [7; 7], Sock [] 0 [] true).
Proof. by vm_compute. Qed.

(** ** Oversized frames *)

(** A declared length above [max_len] that still fits an [int] is
    rejected by the Variant-V reader before any payload byte is read. *)
Lemma read_delimited_body_oversize msg_len s buf max_len :
  0 <= max_len → max_len < msg_len <= INT_MAX →
  Health.read_delimited_body msg_len s buf max_len = (-1, buf, s).
Proof.
  intros H0 H1. unfold Health.read_delimited_body.
  destruct (Z.eqb_spec msg_len 0); [lia|].
  rewrite to_int_small by lia.
  by destruct (Z.gtb_spec msg_len max_len); [|lia].
Qed.

Lemma read_framed_header r plen rest :
  is_open r = true → 0 <= plen < 2 ^ 32 →
  stream r = Cnode.le_bytes 4 plen ++ rest →
  ∃ r1, recv_exact 4 r (Cnode.le_bytes 4 0) 4 0
        = (4, Cnode.le_bytes 4 plen, set_rx r r1) ∧
    concat r1 = rest ∧ Cnode.le_value (Cnode.le_bytes 4 plen) = plen.
Proof.
  intros Ho Hp Hs.
  destruct (recv_exact_stream 4 r (Cnode.le_bytes 4 0) 4 0)
    as (r1 & E & Hr1); try (done || lia).
  { rewrite Hs, length_app, length_le_bytes. lia. }
  rewrite Hs in E, Hr1. change (Z.to_nat (4 - 0)) with 4%nat in E, Hr1.
  rewrite take_app_length' in E by (by rewrite length_le_bytes).
  rewrite drop_app_length' in Hr1 by (by rewrite length_le_bytes).
  assert (buf_store (Cnode.le_bytes 4 0) 0 (Cnode.le_bytes 4 plen)
          = Cnode.le_bytes 4 plen) as Hhdr.
  { rewrite <- (buf_store_0_take (Cnode.le_bytes 4 0) (Cnode.le_bytes 4 plen))
      at 2 by (rewrite !length_le_bytes; lia).
    rewrite take_ge; [done|]. by rewrite length_buf_store, !length_le_bytes. }
  rewrite Hhdr in E. exists r1. repeat split; try done.
  rewrite le_value_le_bytes. apply Z.mod_small.
  change (2 ^ (8 * Z.of_nat 4)) with (2 ^ 32). lia.
Qed.

(** The Variant-F reader returns a negative value for every declared
    length above [max_len] that the prefix can express, and reads no
    payload byte; the value is [-1] up to [INT_MAX] and the length seen as
    an [int] above. *)
Lemma read_framed_oversize r plen rest buf max_len :
  is_open r = true → 0 <= max_len → max_len < plen < 2 ^ 32 →
  stream r = Cnode.le_bytes 4 plen ++ rest →
  ∃ r1, Cnode.read_framed r buf max_len
        = (if plen <=? INT_MAX then -1 else plen - 2 ^ 32, buf, set_rx r r1) ∧
    concat r1 = rest.
Proof.
  intros Ho H0 Hp Hs.
  destruct (read_framed_header r plen rest Ho ltac:(lia) Hs)
    as (r1 & E & Hr1 & Hv).
  exists r1. split; [|done]. unfold Cnode.read_framed. rewrite E, Hv.
  change (4 <? 0) with false. cbn iota.
  destruct (Z.eqb_spec plen 0); [lia|].
  destruct (Z.leb_spec plen INT_MAX) as [Hle|Hgt].
  - rewrite to_int_small by lia.
    by destruct (Z.gtb_spec plen max_len); [|lia].
  - assert (to_int plen = plen - 2 ^ 32) as ->.
    { unfold to_int, INT_MAX in *.
      rewrite <- (Z.mod_unique (plen + 2 ^ 31) (2 ^ 32) 1 (plen - 2 ^ 31)); lia. }
    destruct (Z.gtb_spec (plen - 2 ^ 32) max_len); [lia|].
    assert (Z.to_nat (plen - 2 ^ 32) = 0%nat) as -> by lia.
    cbn [recv_exact]. change (0 <? 0) with false. done.
Qed.

(** C1, the code at the failing input.  The Variant-V prefix
    [81 80 80 80 10] declares [2^32 + 1] bytes, far above [max_len = 64];
    [(int)msg_len] is [1], the guard passes, one payload byte is read from
    the stream and [1] is returned.  The prefix [80 80 80 80 08] declares
    [2^31] bytes; [(int)msg_len] is negative and the reader returns [0],
    the result of an empty frame. *)
Theorem read_delimited_declared_length_truncated :
  Health.read_varint 10
    (Sock [[0x81; 0x80; 0x80; 0x80; 0x10]; [0xAA; 0xBB]] 0 [] true) 0 0
  = (Some (2 ^ 32 + 1), Sock [[]; [0xAA; 0xBB]] 0 [] true) ∧
  Health.read_delimited
    (Sock [[0x81; 0x80; 0x80; 0x80; 0x10]; [0xAA; 0xBB]] 0 [] true)
    (replicate 64 0) 64
  = (1, 0xAA :: replicate 63 0, Sock [[0xBB]] 0 [] true) ∧
  Health.read_delimited
    (Sock [[0x80; 0x80; 0x80; 0x80; 0x08]; [0xAA; 0xBB]] 0 [] true)
    (replicate 64 0) 64
  = (0, replicate 64 0, Sock [[]; [0xAA; 0xBB]] 0 [] true).
Proof. by vm_compute. Qed.

(** ** The health server's connection handler *)

Lemma set_rx_id s : set_rx s (rx s) = s.
Proof. by destruct s. Qed.

Lemma recv_keeps_tx s len : ∃ r, (recv s len).2 = set_rx s r.
Proof.
  unfold recv. destruct (is_open s).
  - destruct (rx_take (Z.to_nat len) (rx s)) as [got rest]. by exists rest.
  - exists (rx s). by rewrite set_rx_id.
Qed.

Lemma recv_exact_keeps_tx left s buf len total :
  ∃ r, (recv_exact left s buf len total).2 = set_rx s r.
Proof.
  revert s buf total. induction left as [|left IH]; intros s buf total.
  - exists (rx s). by rewrite set_rx_id.
  - cbn [recv_exact]. destruct (total <? len).
    + destruct (recv_keeps_tx s (len - total)) as (r & Hr).
      destruct (recv s (len - total)) as [[n got] s1]. cbn [snd] in Hr. subst s1.
      destruct (n <=? 0); [by exists r|].
      destruct (IH (set_rx s r) (buf_store buf total got) (total + n))
        as (r' & Hr').
      exists r'. by rewrite Hr', set_rx_set_rx.
    + exists (rx s). by rewrite set_rx_id.
Qed.

Lemma read_varint_keeps_tx rounds s msg_len shift :
  ∃ r, (Health.read_varint rounds s msg_len shift).2 = set_rx s r.
Proof.
  revert s msg_len shift.
  induction rounds as [|rounds IH]; intros s msg_len shift.
  - exists (rx s). by rewrite set_rx_id.
  - cbn [Health.read_varint].
    destruct (recv_keeps_tx s 1) as (r & Hr).
    destruct (recv s 1) as [[n got] s1]. cbn [snd] in Hr. subst s1.
    destruct (n <=? 0); [by exists r|].
    destruct (Z.land (default 0 (head got)) 0x80 =? 0); [by exists r|].
    match goal with |- context [Health.read_varint rounds _ ?m ?sh] =>
      destruct (IH (set_rx s r) m sh) as (r' & Hr') end.
    exists r'. by rewrite Hr', set_rx_set_rx.
Qed.

(** Reading changes nothing but [rx]. *)
Lemma read_delimited_keeps_tx s buf max_len :
  ∃ r, (Health.read_delimited s buf max_len).2 = set_rx s r.
Proof.
  unfold Health.read_delimited.
  destruct (read_varint_keeps_tx 10 s 0 0) as (r & Hr).
  destruct (Health.read_varint 10 s 0 0) as [[msg_len|] s1];
    cbn [snd] in Hr; subst s1; [|by exists r].
  unfold Health.read_delimited_body.
  destruct (msg_len =? 0); [by exists r|].
  destruct (to_int msg_len >? max_len); [by exists r|].
  match goal with |- context [recv_exact ?l _ ?b ?n ?t] =>
    destruct (recv_exact_keeps_tx l (set_rx s r) b n t) as (r' & Hr') end.
  exists r'. by rewrite Hr', set_rx_set_rx.
Qed.

(** C2. On every accepted connection that is able to take three bytes,
    whatever the client sends and however it arrives (nothing at all, one
    byte, a whole frame, a malformed or oversized prefix), and whatever
    the request buffer held, [handle_connection] hands the peer exactly
    [02 08 01] and closes the connection. *)
Theorem handle_connection_always_serving req_buf cfd incoming :
  is_open cfd = true → (3 ≤ tx_room cfd)%nat →
  tx (Health.handle_connection req_buf (set_rx cfd incoming))
  = tx cfd ++ [0x02; 0x08; 0x01] ∧
  is_open (Health.handle_connection req_buf (set_rx cfd incoming)) = false.
Proof.
  intros Ho Hroom. unfold Health.handle_connection.
  destruct (read_delimited_keeps_tx (set_rx cfd incoming) req_buf 64)
    as (r & Hr).
  destruct (Health.read_delimited (set_rx cfd incoming) req_buf 64)
    as [[n out] s1]. cbn [snd] in Hr. subst s1. rewrite set_rx_set_rx.
  destruct (write_delimited_sends (set_rx cfd r) Health.HEALTH_RESP_SERVING)
    as (s2 & E & Htx & _ & _); [done|by vm_compute|simpl; lia|].
  change (Z.of_nat (length Health.HEALTH_RESP_SERVING)) with 2 in E.
  unfold Health.HEALTH_RESP_LEN. rewrite E. split; [|done].
  cbn [close tx]. by rewrite Htx.
Qed.

Lemma handle_connection_always_serving_witness :
  tx (Health.handle_connection (replicate 64 0)
        (set_rx (Sock [] 3 [] true) [[0x01; 0x7F]]))
  = [] ++ [0x02; 0x08; 0x01] ∧
  is_open (Health.handle_connection (replicate 64 0)
             (set_rx (Sock [] 3 [] true) [[0x01; 0x7F]])) = false.
Proof.
  apply (handle_connection_always_serving (replicate 64 0) (Sock [] 3 [] true)
           [[0x01; 0x7F]]); [reflexivity | simpl; lia].
Defined.

(** ** The RegisterRequest encoder *)

(** C7, as documented, fails: for the advertised address ["10.0.0.1"] and
    port [50051] the encoder does not produce the documented bytes; the
    port field differs ([C3 86 03] is the varint of 49987). *)
Lemma register_request_not_as_documented :
  ∃ proto,
    Health.register_request
      (Health.HealthState (-1) 0 "0.0.0.0" "10.0.0.1" 50051 0 "" 0 [])
      (replicate 256 0) = Some (16, proto) ∧
    take 16 proto ≠ documented_register_request ∧
    (Health.varint_encode 49987 (replicate 10 0) 10).2
    = [0xC3; 0x86; 0x03; 0; 0; 0; 0; 0; 0; 0].
Proof.
  eexists. split; [by vm_compute|]. split; [|by vm_compute].
  vm_compute. discriminate.
Qed.

(** C7, amended.  For the advertised address ["10.0.0.1"] and port
    [50051], whatever the buffer held, the encoder fills the first 16 bytes
    with [08 0D], [12 08] and the 8 characters of the address, then [18]
    and the varint of 50051, which is [83 87 03]. *)
Theorem register_request_encoding st proto :
  Health.g_advertise_ip st = "10.0.0.1"%string → Health.g_port st = 50051 →
  length proto = 256%nat →
  Health.register_request st proto
  = Some (16, encoded_register_request ++ drop 16 proto) ∧
  Health.varint_encode 50051 (replicate 10 0) 10
  = (3, [0x83; 0x87; 0x03; 0; 0; 0; 0; 0; 0; 0]).
Proof.
  intros Hip Hport Hlen. split; [|by vm_compute].
  destruct st as [fd run bind ip port en rip rport evs].
  cbn [Health.g_advertise_ip Health.g_port] in Hip, Hport. subst ip port.
  do 16 (destruct proto as [|? proto]; [discriminate Hlen|]).
  by vm_compute.
Qed.

Lemma register_request_encoding_witness :
  Health.register_request
    (Health.HealthState (-1) 0 "0.0.0.0" "10.0.0.1" 50051 0 "" 0 [])
    (replicate 256 0xEE)
  = Some (16, encoded_register_request ++ drop 16 (replicate 256 0xEE)) ∧
  Health.varint_encode 50051 (replicate 10 0) 10
  = (3, [0x83; 0x87; 0x03; 0; 0; 0; 0; 0; 0; 0]).
Proof.
  apply (register_request_encoding
           (Health.HealthState (-1) 0 "0.0.0.0" "10.0.0.1" 50051 0 "" 0 [])
           (replicate 256 0xEE)); reflexivity.
Defined.

(** ** Start, stop and disabled configurations *)

Lemma amf_health_close_twice st :
  Health.amf_health_close (Health.amf_health_close st)
  = Health.amf_health_close st.
Proof.
  unfold Health.amf_health_close.
  destruct (Health.server_fd st <? 0) eqn:E; [by rewrite E|done].
Qed.

Lemma amf_cnode_stop_twice st :
  Cnode.amf_cnode_stop (Cnode.amf_cnode_stop st) = Cnode.amf_cnode_stop st.
Proof.
  unfold Cnode.amf_cnode_stop.
  destruct (Cnode.g_running st =? 0) eqn:E; [by rewrite E|done].
Qed.

(** C8. A second [amf_health_close] / [amf_cnode_stop] leaves the state
    (variables and events: nothing is closed or joined again) as the first
    one left it; before any open/start, and after an open/start that
    returned [OGS_OK] because the subsystem is disabled, they leave the
    state untouched. *)
Theorem stop_close_idempotent atoi env os thread_rc hst cst :
  env_disables env "AMF_GRPC_ENABLE" = true →
  env_disables env "AMF_CNODE_ENABLE" = true
  ∨ env !! "AMF_CNODE_SERVER_IP" = None
  ∨ env !! "AMF_CNODE_SERVER_IP" = Some ""%string →
  Health.amf_health_close (Health.amf_health_close hst)
  = Health.amf_health_close hst ∧
  Cnode.amf_cnode_stop (Cnode.amf_cnode_stop cst) = Cnode.amf_cnode_stop cst ∧
  Health.amf_health_close Health.health_init = Health.health_init ∧
  Cnode.amf_cnode_stop Cnode.cnode_init = Cnode.cnode_init ∧
  Health.amf_health_open atoi env os Health.health_init
  = (OGS_OK, Health.health_init) ∧
  Health.amf_health_close
    (Health.amf_health_open atoi env os Health.health_init).2
  = Health.health_init ∧
  Cnode.amf_cnode_start atoi env thread_rc Cnode.cnode_init
  = (OGS_OK, Cnode.cnode_init) ∧
  Cnode.amf_cnode_stop
    (Cnode.amf_cnode_start atoi env thread_rc Cnode.cnode_init).2
  = Cnode.cnode_init.
Proof.
  intros Hh Hc.
  assert (Health.amf_health_open atoi env os Health.health_init
          = (OGS_OK, Health.health_init)) as Eh
    by (unfold Health.amf_health_open; by rewrite Hh).
  assert (Cnode.amf_cnode_start atoi env thread_rc Cnode.cnode_init
          = (OGS_OK, Cnode.cnode_init)) as Ec.
  { unfold Cnode.amf_cnode_start.
    destruct (env_disables env "AMF_CNODE_ENABLE"); [done|].
    destruct Hc as [?|[->| ->]]; done. }
  rewrite Eh, Ec.
  repeat split; auto using amf_health_close_twice, amf_cnode_stop_twice.
Qed.

Lemma stop_close_idempotent_witness :
  let env : gmap string string :=
    <["AMF_GRPC_ENABLE"%string := "0"%string]> ∅ in
  let hst := Health.HealthState 7 1 "0.0.0.0" "0.0.0.0" 50051 0 "" 0
               [Health.AcceptLoopStarted] in
  let cst := Cnode.CnodeState 1 "10.0.0.9" 9090 [Cnode.ThreadStarted] in
  Health.amf_health_close (Health.amf_health_close hst)
  = Health.amf_health_close hst ∧
  Cnode.amf_cnode_stop (Cnode.amf_cnode_stop cst) = Cnode.amf_cnode_stop cst ∧
  Health.amf_health_close Health.health_init = Health.health_init ∧
  Cnode.amf_cnode_stop Cnode.cnode_init = Cnode.cnode_init ∧
  Health.amf_health_open (λ _, 0) env (Health.OsOutcome 3 0 0 0)
    Health.health_init
  = (OGS_OK, Health.health_init) ∧
  Health.amf_health_close
    (Health.amf_health_open (λ _, 0) env (Health.OsOutcome 3 0 0 0)
       Health.health_init).2
  = Health.health_init ∧
  Cnode.amf_cnode_start (λ _, 0) env 0 Cnode.cnode_init
  = (OGS_OK, Cnode.cnode_init) ∧
  Cnode.amf_cnode_stop
    (Cnode.amf_cnode_start (λ _, 0) env 0 Cnode.cnode_init).2
  = Cnode.cnode_init.
Proof.
  intros env hst cst.
  apply (stop_close_idempotent (λ _, 0) env (Health.OsOutcome 3 0 0 0) 0
           hst cst); [reflexivity | right; left; reflexivity].
Defined.




(** ** The cnode session *)

Lemma write_framed_serving s :
  is_open s = true → (6 ≤ tx_room s)%nat →
  ∃ s', Cnode.write_framed s Cnode.HEALTH_RESP_SERVING 2 = (0, s') ∧
    tx s' = tx s ++ frame Cnode.HEALTH_RESP_SERVING ∧
    rx s' = rx s ∧ is_open s' = true ∧ tx_room s' = (tx_room s - 6)%nat.
Proof.
  intros Ho Hr.
  destruct (write_framed_sends s Cnode.HEALTH_RESP_SERVING Ho)
    as (s' & E & Htx & ?); [by vm_compute|simpl; lia|].
  by exists s'.
Qed.

(** C3, as stated, fails: after the identity frame a peer frame whose
    payload has 257 bytes gets no answer; the session ends as a failure
    with only the identity frame sent. *)
Lemma cnode_session_oversize_unanswered :
  let peer := Sock [frame (replicate 257 0)] 64 [] true in
  let w := Cnode.World 3 [Cnode.Connected peer [Cnode.PollReady Cnode.POLLIN]] [] in
  (Cnode.serve_session w).1 = -1 ∧
  session_bytes (Cnode.trace (Cnode.serve_session w).2)
  = [frame Cnode.NODETYPE_AMF] ∧
  frame Cnode.NODETYPE_AMF ≠
  frame Cnode.NODETYPE_AMF ++ frame Cnode.HEALTH_RESP_SERVING.
Proof. by vm_compute. Qed.

(** With no poll result left every poll times out, until the flag is
    found cleared. *)
Lemma session_loop_idle k s buf : Cnode.session_loop k [] s buf = (0%nat, s).
Proof. induction k as [|k IH]; [done|]. cbn [Cnode.session_loop]. apply IH. Qed.

(** The rounds of the loop in which the polls [pre] report the frames
    [Xs], whatever comes after them: each frame is read and answered, and
    the loop goes on with the rest of the stream and of the polls. *)
Lemma session_loop_prefix k pre post Xs s buf rest :
  Forall poll_ok pre → readable pre = length Xs →
  Forall (λ X, (length X ≤ 256)%nat) Xs →
  is_open s = true → length buf = 256%nat →
  stream s = concat (map frame Xs) ++ rest →
  (6 * length Xs ≤ tx_room s)%nat → (length pre ≤ k)%nat →
  ∃ s1 buf1,
    Cnode.session_loop k (pre ++ post) s buf
    = Cnode.session_loop (k - length pre) post s1 buf1 ∧
    tx s1 = tx s
            ++ concat (replicate (length Xs) (frame Cnode.HEALTH_RESP_SERVING)) ∧
    stream s1 = rest ∧ is_open s1 = true ∧ length buf1 = 256%nat.
Proof.
  revert k Xs s buf.
  induction pre as [|p pre IH]; intros k Xs s buf Hp Hn HX Ho Hb Hs Hroom Hk.
  - destruct Xs; [|done]. exists s, buf. cbn [app length replicate concat].
    rewrite Nat.sub_0_r, app_nil_r. done.
  - apply Forall_cons in Hp as [Hp0 Hp]. cbn [length] in Hk.
    destruct k as [|k]; [lia|].
    change (S k - length (p :: pre))%nat with (k - length pre)%nat.
    destruct p as [[|]| |revents]; cbn [app Cnode.session_loop readable] in *.
    + apply IH; (done || lia).
    + done.
    + apply IH; (done || lia).
    + simpl in Hp0. rewrite Hp0. change (negb (0 =? 0)) with false. cbn iota.
      destruct Xs as [|X Xs]; [done|].
      apply Forall_cons in HX as [HX0 HX]. cbn [length] in Hn, Hroom.
      cbn [map concat] in Hs. unfold frame at 1 in Hs.
      rewrite <- !app_assoc in Hs.
      destruct (read_framed_frame s X _ buf 256 Ho ltac:(lia)
                  ltac:(by vm_compute) ltac:(lia) Hs)
        as (out & r' & E & _ & Hr' & Hout).
      rewrite E.
      destruct (Z.ltb_spec (Z.of_nat (length X)) 0); [lia|].
      destruct (write_framed_serving (set_rx s r') Ho ltac:(simpl; lia))
        as (s2 & E2 & Htx & Hrx & Ho2 & Hroom2).
      rewrite E2. change (0 <? 0) with false. cbn iota.
      destruct (IH k Xs s2 out) as (s1 & buf1 & E' & Htx' & Hs' & Ho' & Hb');
        try (done || lia).
      { unfold stream. by rewrite Hrx. }
      { rewrite Hroom2. simpl. lia. }
      exists s1, buf1. split; [done|]. split; [|done].
      rewrite Htx', Htx. cbn [length replicate concat tx set_rx].
      by rewrite <- !app_assoc.
Qed.

(** C3, amended.  In a session whose identity frame was sent, while the
    flag stays set, the polls report the frames and the connection takes
    the answers, every Variant-F frame of at most 256 payload bytes (the
    request buffer) that the peer sends is read and answered with exactly
    one Variant-F frame of payload [08 01], whatever its content and
    however it is segmented, and whatever follows it.  Three ways for the
    session to go on are covered.  The peer sends nothing more: the
    session ends with [0] when the flag is found cleared, the rest of the
    stream unread.  A readable poll finds a frame that declares more than
    256 payload bytes: its header is read, it gets no answer, and the
    session ends there, with [-1] unless the flag is cleared by then.  A
    poll fails or reports error or hang-up: the session ends there in the
    same way.  Each time the bytes sent are the identity frame and one
    answer for each of the small frames, and the connection is closed. *)
Theorem cnode_session_answers Xs pre sfd k ds tr :
  Forall (λ X, (length X ≤ 256)%nat) Xs →
  Forall poll_ok pre → readable pre = length Xs →
  is_open sfd = true → (6 + 6 * length Xs ≤ tx_room sfd)%nat →
  (∀ rest,
     stream sfd = concat (map frame Xs) ++ rest → (length pre ≤ k)%nat →
     ∃ s',
       Cnode.serve_session (Cnode.World k (Cnode.Connected sfd pre :: ds) tr)
       = (0, Cnode.World 0 ds (tr ++ [Cnode.Attempt; Cnode.Hung s'])) ∧
       tx s' = tx sfd ++ frame Cnode.NODETYPE_AMF
               ++ concat (replicate (length Xs)
                            (frame Cnode.HEALTH_RESP_SERVING)) ∧
       stream s' = rest ∧ is_open s' = false) ∧
  (∀ plen revents post rest,
     256 < plen < 2 ^ 32 →
     Z.land revents
       (Z.lor Cnode.POLLERR (Z.lor Cnode.POLLHUP Cnode.POLLNVAL)) = 0 →
     stream sfd = concat (map frame Xs) ++ Cnode.le_bytes 4 plen ++ rest →
     (length pre < k)%nat →
     ∃ s',
       Cnode.serve_session
         (Cnode.World k
            (Cnode.Connected sfd (pre ++ Cnode.PollReady revents :: post)
             :: ds) tr)
       = (if (k - length pre =? 1)%nat then 0 else -1,
          Cnode.World (k - length pre - 2) ds
            (tr ++ [Cnode.Attempt; Cnode.Hung s'])) ∧
       tx s' = tx sfd ++ frame Cnode.NODETYPE_AMF
               ++ concat (replicate (length Xs)
                            (frame Cnode.HEALTH_RESP_SERVING)) ∧
       stream s' = rest ∧ is_open s' = false) ∧
  (∀ p post rest,
     ¬ poll_ok p →
     stream sfd = concat (map frame Xs) ++ rest → (length pre < k)%nat →
     ∃ s',
       Cnode.serve_session
         (Cnode.World k (Cnode.Connected sfd (pre ++ p :: post) :: ds) tr)
       = (if (k - length pre =? 1)%nat then 0 else -1,
          Cnode.World (k - length pre - 2) ds
            (tr ++ [Cnode.Attempt; Cnode.Hung s'])) ∧
       tx s' = tx sfd ++ frame Cnode.NODETYPE_AMF
               ++ concat (replicate (length Xs)
                            (frame Cnode.HEALTH_RESP_SERVING)) ∧
       stream s' = rest ∧ is_open s' = false).
Proof.
  intros HX Hp Hn Ho Hroom.
  destruct (write_framed_sends sfd Cnode.NODETYPE_AMF Ho)
    as (s1 & E1 & Htx1 & Hrx1 & Ho1 & Hroom1); [by vm_compute|simpl; lia|].
  change (Z.of_nat (length Cnode.NODETYPE_AMF)) with 2 in E1.
  assert (∀ post rest,
    stream sfd = concat (map frame Xs) ++ rest → (length pre ≤ k)%nat →
    ∃ s2 buf2,
      Cnode.session_loop k (pre ++ post) s1 (replicate 256 0)
      = Cnode.session_loop (k - length pre) post s2 buf2 ∧
      tx s2 = tx sfd ++ frame Cnode.NODETYPE_AMF
              ++ concat (replicate (length Xs)
                           (frame Cnode.HEALTH_RESP_SERVING)) ∧
      stream s2 = rest ∧ is_open s2 = true) as Hloop.
  { intros post rest Hs Hk.
    destruct (session_loop_prefix k pre post Xs s1 (replicate 256 0) rest)
      as (s2 & buf2 & E2 & Htx2 & Hs2 & Ho2 & _); try done.
    { unfold stream. by rewrite Hrx1. }
    { rewrite Hroom1. simpl. lia. }
    exists s2, buf2. split; [done|]. split; [|done].
    rewrite Htx2, Htx1. by rewrite <- !app_assoc. }
  assert (∀ polls j s2,
    Cnode.session_loop k polls s1 (replicate 256 0) = (j, s2) →
    Cnode.serve_session (Cnode.World k (Cnode.Connected sfd polls :: ds) tr)
    = (if (j =? 0)%nat then 0 else -1,
       Cnode.World (j - 1) ds (tr ++ [Cnode.Attempt; Cnode.Hung (close s2)])))
    as Hend.
  { intros polls j s2 E.
    unfold Cnode.serve_session, Cnode.next_dial, Cnode.log.
    cbn [Cnode.dials Cnode.running Cnode.trace]. rewrite E1.
    change (0 <? 0) with false. cbn iota. rewrite E.
    unfold Cnode.read_running. cbn [Cnode.running Cnode.dials Cnode.trace].
    rewrite <- app_assoc.
    destruct j as [|j]; cbn [Nat.eqb Nat.sub]; [done|by rewrite Nat.sub_0_r]. }
  split; [|split].
  - intros rest Hs Hk.
    destruct (Hloop [] rest Hs Hk) as (s2 & buf2 & E2 & Htx2 & Hs2 & Ho2).
    rewrite app_nil_r, session_loop_idle in E2.
    exists (close s2). by rewrite (Hend pre 0%nat s2 E2).
  - intros plen revents post rest Hplen Hrev Hs Hk.
    destruct (Hloop (Cnode.PollReady revents :: post) _ Hs ltac:(lia))
      as (s2 & buf2 & E2 & Htx2 & Hs2 & Ho2).
    destruct (k - length pre)%nat as [|j] eqn:Ej; [lia|].
    cbn [Cnode.session_loop] in E2. rewrite Hrev in E2.
    change (negb (0 =? 0)) with false in E2. cbn iota in E2.
    destruct (read_framed_oversize s2 plen rest buf2 256 Ho2 ltac:(lia)
                ltac:(lia) Hs2) as (r1 & E & Hr1).
    rewrite E in E2.
    assert (((if plen <=? INT_MAX then -1 else plen - 2 ^ 32) <? 0) = true)
      as Hn0.
    { apply Z.ltb_lt. destruct (plen <=? INT_MAX); lia. }
    rewrite Hn0 in E2. rewrite (Hend _ j (set_rx s2 r1) E2).
    exists (close (set_rx s2 r1)).
    replace (S j - 2)%nat with (j - 1)%nat by lia.
    split; [by destruct j|]. by rewrite <- Hr1.
  - intros p post rest Hbad Hs Hk.
    destruct (Hloop (p :: post) _ Hs ltac:(lia))
      as (s2 & buf2 & E2 & Htx2 & Hs2 & Ho2).
    destruct (k - length pre)%nat as [|j] eqn:Ej; [lia|].
    assert (Cnode.session_loop (S j) (p :: post) s2 buf2 = (j, s2)) as Eb.
    { cbn [Cnode.session_loop].
      destruct p as [[|]| |revents]; try done; try (by destruct Hbad).
      simpl in Hbad. by destruct (Z.eqb_spec
        (Z.land revents
           (Z.lor Cnode.POLLERR (Z.lor Cnode.POLLHUP Cnode.POLLNVAL))) 0). }
    rewrite Eb in E2. rewrite (Hend _ j s2 E2).
    exists (close s2). replace (S j - 2)%nat with (j - 1)%nat by lia.
    split; [by destruct j|done].
Qed.

Lemma cnode_session_answers_witness :
  let Xs := [[0x2A]; []] in
  let pre := [Cnode.PollTimeout; Cnode.PollReady Cnode.POLLIN;
              Cnode.PollReady Cnode.POLLIN] in
  let sfd :=
    Sock [[1; 0; 0]; [0; 0x2A; 0; 0; 0; 0]; [1; 1; 0; 0; 7; 7]] 18 [] true in
  let sent := frame Cnode.NODETYPE_AMF
              ++ frame Cnode.HEALTH_RESP_SERVING
              ++ frame Cnode.HEALTH_RESP_SERVING in
  (∃ s',
     Cnode.serve_session (Cnode.World 4 [Cnode.Connected sfd pre] [])
     = (0, Cnode.World 0 [] [Cnode.Attempt; Cnode.Hung s']) ∧
     tx s' = sent ∧ stream s' = [1; 1; 0; 0; 7; 7] ∧ is_open s' = false) ∧
  (∃ s',
     Cnode.serve_session
       (Cnode.World 9
          [Cnode.Connected sfd
             (pre ++ [Cnode.PollReady Cnode.POLLIN;
                      Cnode.PollReady Cnode.POLLIN])] [])
     = (-1, Cnode.World 4 [] [Cnode.Attempt; Cnode.Hung s']) ∧
     tx s' = sent ∧ stream s' = [7; 7] ∧ is_open s' = false) ∧
  (∃ s',
     Cnode.serve_session
       (Cnode.World 9
          [Cnode.Connected sfd (pre ++ [Cnode.PollReady Cnode.POLLHUP])] [])
     = (-1, Cnode.World 4 [] [Cnode.Attempt; Cnode.Hung s']) ∧
     tx s' = sent ∧ stream s' = [1; 1; 0; 0; 7; 7] ∧ is_open s' = false).
Proof.
  intros Xs pre sfd sent.
  assert (Forall (λ X : list Z, (length X ≤ 256)%nat) Xs) as HX
    by (repeat constructor; simpl; lia).
  assert (Forall poll_ok pre) as Hp by (repeat constructor).
  assert (6 + 6 * length Xs ≤ tx_room sfd)%nat as Hroom by (simpl; lia).
  split; [|split].
  - destruct (cnode_session_answers Xs pre sfd 4 [] [] HX Hp eq_refl eq_refl
                Hroom) as (Hclean & _ & _).
    apply (Hclean [1; 1; 0; 0; 7; 7]); [reflexivity | simpl; lia].
  - destruct (cnode_session_answers Xs pre sfd 9 [] [] HX Hp eq_refl eq_refl
                Hroom) as (_ & Hover & _).
    apply (Hover 257 Cnode.POLLIN [Cnode.PollReady Cnode.POLLIN] [7; 7]);
      [lia | reflexivity | reflexivity | simpl; lia].
  - destruct (cnode_session_answers Xs pre sfd 9 [] [] HX Hp eq_refl eq_refl
                Hroom) as (_ & _ & Hbad).
    apply (Hbad (Cnode.PollReady Cnode.POLLHUP) [] [1; 1; 0; 0; 7; 7]);
      [by vm_compute | reflexivity | simpl; lia].
Defined.

(** ** Reconnection backoff *)


Lemma session_loop_running k polls s buf :
  ((Cnode.session_loop k polls s buf).1 ≤ k)%nat.
Proof.
  revert polls s buf. induction k as [|k IH]; intros polls s buf; [done|].
  cbn [Cnode.session_loop].
  destruct polls as [|[[|]| |revents] polls];
    try (cbn [fst]; lia); try (specialize (IH polls s buf); lia).
  - specialize (IH [] s buf). lia.
  - destruct (negb _); [cbn [fst]; lia|].
    destruct (Cnode.read_framed s buf 256) as [[n out] s1].
    destruct (n <? 0); [cbn [fst]; lia|].
    destruct (Cnode.write_framed s1 Cnode.HEALTH_RESP_SERVING 2) as [rc s2].
    destruct (rc <? 0); [cbn [fst]; lia|].
    specialize (IH polls s2 out). lia.
Qed.

(** A session adds its [Attempt] and at most the hang-up of its
    connection to the trace, and never sets the flag. *)
Lemma serve_session_trace w :
  ∃ sess, Cnode.trace (Cnode.serve_session w).2
          = Cnode.trace w ++ Cnode.Attempt :: sess ∧
    quiet sess ∧
    (Cnode.running (Cnode.serve_session w).2 ≤ Cnode.running w)%nat.
Proof.
  unfold Cnode.serve_session, Cnode.next_dial, Cnode.log.
  cbn [Cnode.dials Cnode.running Cnode.trace].
  destruct (Cnode.dials w) as [|[| | |sfd polls] ds]; cbn [snd];
    try (exists []; cbn [Cnode.trace Cnode.running]; split; [done|];
         split; [by left|lia]).
  destruct (Cnode.write_framed sfd Cnode.NODETYPE_AMF 2) as [rc s1].
  destruct (rc <? 0).
  - exists [Cnode.Hung (close s1)]. cbn [snd Cnode.trace Cnode.running].
    rewrite <- app_assoc. split; [done|]. split; [right; by eexists|lia].
  - match goal with |- context [Cnode.session_loop ?a ?b ?c ?d] =>
      pose proof (session_loop_running a b c d) as Hk;
      destruct (Cnode.session_loop a b c d) as [k s2] end.
    cbn [fst Cnode.running] in Hk.
    exists [Cnode.Hung (close s2)].
    unfold Cnode.read_running. cbn [Cnode.running Cnode.dials Cnode.trace].
    destruct k as [|k]; cbn [snd Cnode.trace Cnode.running];
      rewrite <- app_assoc; (split; [done|]); (split; [right; by eexists|lia]).
Qed.

(** The backoff sleep: one second at a time, until the delay is over or
    the flag is found cleared. *)
Lemma backoff_sleep_trace todo w :
  Cnode.trace (Cnode.backoff_sleep todo w)
  = Cnode.trace w ++ replicate (Nat.min todo (Cnode.running w)) Cnode.Slept ∧
  Cnode.running (Cnode.backoff_sleep todo w)
  = (Cnode.running w - Nat.min todo (Cnode.running w))%nat.
Proof.
  revert w. induction todo as [|todo IH]; intros w.
  - simpl. rewrite app_nil_r. split; [done|lia].
  - cbn [Cnode.backoff_sleep]. unfold Cnode.read_running.
    destruct (Cnode.running w) as [|k] eqn:Ek.
    + rewrite Ek. simpl. rewrite app_nil_r. done.
    + destruct (IH (Cnode.log Cnode.Slept
                      (Cnode.World k (Cnode.dials w) (Cnode.trace w))))
        as [Ht Hr].
      rewrite Ht, Hr. cbn [Cnode.log Cnode.trace Cnode.running].
      rewrite <- app_assoc. split; [done|lia].
Qed.




Lemma attempts_quiet sess tr : quiet sess → attempts (sess ++ tr) = attempts tr.
Proof. by intros [->|[s ->]]. Qed.


Lemma attempts_sleeps n tr :
  attempts (replicate n Cnode.Slept ++ tr) = attempts tr.
Proof. induction n; simpl; auto. Qed.



Lemma cycles_attempts j T : cycles j T → T ≠ [] → (0 < attempts T)%nat.
Proof. destruct 1; [done|simpl; lia|simpl; lia]. Qed.


(** Every round of the thread's loop starts with a read of the flag, so
    the loop never runs out of the rounds [cnode_thread] allows it. *)
Lemma cnode_loop_fuel fuel fuel' b w :
  (Cnode.running w < fuel)%nat → (Cnode.running w < fuel')%nat →
  Cnode.cnode_loop fuel b w = Cnode.cnode_loop fuel' b w.
Proof.
  revert fuel' b w. induction fuel as [|fuel IH]; intros fuel' b w Hf Hf'; [lia|].
  destruct fuel' as [|fuel']; [lia|].
  cbn [Cnode.cnode_loop]. unfold Cnode.read_running.
  destruct (Cnode.running w) as [|k] eqn:Ek; [done|].
  set (w1 := Cnode.World k (Cnode.dials w) (Cnode.trace w)).
  destruct (serve_session_trace w1) as (_ & _ & _ & Hrun).
  destruct (Cnode.serve_session w1) as [rc w2]. cbn [snd w1 Cnode.running] in Hrun.
  destruct (rc =? 0); [done|].
  apply IH.
  - rewrite (proj2 (backoff_sleep_trace _ _)). cbn [Cnode.log Cnode.running]. lia.
  - rewrite (proj2 (backoff_sleep_trace _ _)). cbn [Cnode.log Cnode.running]. lia.
Qed.



(** A run in which every connection attempt is refused and the flag is
    cleared after 100 reads: the delays are 1, 2, 4, 8, 16, 30, 30, ... and
    each is slept in full but the last. *)
Example refused_dials_run :
  backoffs (Cnode.trace (Cnode.cnode_thread (Cnode.World 100 [] [])))
  = [(1, 1%nat); (2, 2%nat); (4, 4%nat); (8, 8%nat); (16, 16%nat);
     (30, 30%nat); (30, 30%nat); (30, 1%nat)].
Proof. by vm_compute. Qed.

(** * Further properties *)

(** ** [varint_encode] *)

Lemma varint_encode_from_overflow (room : nat) v buf n :
  0 <= v → 0 <= n →
  ((Health.varint_encode_from room v buf n).1 = -1
   ↔ room = 0%nat ∨ 128 ^ Z.of_nat room <= v).
Proof.
  revert v buf n. induction room as [|room IH]; intros v buf n Hv Hn.
  - simpl. split; [by left|done].
  - cbn [Health.varint_encode_from]. rewrite shiftr_7.
    pose proof (Z.div_mod v 128 ltac:(lia)) as Hdm.
    pose proof (Z.mod_pos_bound v 128 ltac:(lia)) as Hm.
    pose proof (pow128_pos room) as Hp. rewrite pow128_succ.
    destruct (Z.eqb_spec (v / 128) 0) as [Hz|Hnz].
    + cbn [fst]. split; [lia|]. intros [?|?]; [done|nia].
    + assert (0 < v / 128) by (pose proof (Z.div_pos v 128); lia).
      rewrite IH by lia. split.
      * intros [->|H']; right; [simpl; lia|nia].
      * intros [?|H']; [done|]. right. nia.
Qed.

Lemma varint_encode_fails_iff v buf bufsz :
  0 <= v →
  ((Health.varint_encode v buf bufsz).1 = -1
   ↔ bufsz <= 0 ∨ 128 ^ bufsz <= v).
Proof.
  intros Hv. unfold Health.varint_encode.
  rewrite varint_encode_from_overflow by lia.
  destruct (Z.le_gt_cases bufsz 0) as [Hle|Hgt].
  - split; [by left|]. intros _. left. lia.
  - rewrite Z2Nat.id by lia. split; (intros [?|?]; [lia|by right]).
Qed.

(** X1. [varint_encode] returns [-1] exactly when the buffer has no room
    at all or [v] needs more than [bufsz] groups of seven bits. *)
Theorem varint_encode_overflow v buf bufsz :
  0 <= v →
  ((Health.varint_encode v buf bufsz).1 = -1
   ↔ bufsz <= 0 ∨ 128 ^ bufsz <= v).
Proof. exact (varint_encode_fails_iff v buf bufsz). Qed.

Lemma varint_encode_overflow_witness :
  (Health.varint_encode 16384 (replicate 2 0) 2).1 = -1
  ↔ 2 <= 0 ∨ 128 ^ 2 <= 16384.
Proof. apply (varint_encode_overflow 16384 (replicate 2 0) 2). lia. Defined.

Lemma varint_groups_wire (k : nat) v :
  0 <= v < 128 ^ Z.of_nat k → (0 < k)%nat → varint_wire (varint_groups k v).
Proof.
  revert v. induction k as [|k IH]; intros v Hv Hk; [lia|].
  cbn [varint_groups]. rewrite shiftr_7, low_group_byte by lia.
  pose proof (Z.mod_pos_bound v 128 ltac:(lia)) as Hm.
  destruct (Z.eqb_spec (v / 128) 0) as [Hz|Hnz].
  - split; [done|]. intros [|i] b Hb; [|done]. injection Hb as <-.
    split; [lia|]. rewrite land_0x80, Z.div_small by lia. done.
  - pose proof (div128_bound k v Hv) as Hd.
    destruct k as [|k]; [simpl in Hd; lia|].
    destruct (IH (v / 128) Hd ltac:(lia)) as [Hne Hall].
    rewrite continued_byte by lia. split; [done|].
    intros [|i] b Hb.
    + injection Hb as <-. split; [lia|]. rewrite land_0x80.
      replace ((v mod 128 + 128) / 128) with 1
        by (apply Z.div_unique with (r := v mod 128); lia).
      cbn [length]. split; [done|].
      destruct (varint_groups (S k) (v / 128)); [done|simpl; lia].
    + cbn [lookup list_lookup] in Hb. destruct (Hall i b Hb) as [Hr Hlast].
      split; [done|]. cbn [length]. rewrite Hlast. lia.
Qed.

Lemma varint_groups_minimal (k : nat) v :
  0 <= v < 128 ^ Z.of_nat k → (0 < k)%nat →
  v < 128 ^ Z.of_nat (length (varint_groups k v)) ∧
  ((1 < length (varint_groups k v))%nat →
   128 ^ (Z.of_nat (length (varint_groups k v)) - 1) <= v).
Proof.
  revert v. induction k as [|k IH]; intros v Hv Hk; [lia|].
  cbn [varint_groups]. rewrite shiftr_7.
  pose proof (Z.div_mod v 128 ltac:(lia)) as Hdm.
  pose proof (Z.mod_pos_bound v 128 ltac:(lia)) as Hm.
  destruct (Z.eqb_spec (v / 128) 0) as [Hz|Hnz].
  - cbn [length]. split; [change (128 ^ Z.of_nat 1) with 128; lia|lia].
  - pose proof (div128_bound k v Hv) as Hd.
    destruct k as [|k]; [simpl in Hd; lia|].
    destruct (IH (v / 128) Hd ltac:(lia)) as [Hup Hlow].
    pose proof (length_varint_groups (S k) (S k) (v / 128) Hd ltac:(lia)
                  ltac:(lia)) as Hlen.
    set (m := length (varint_groups (S k) (v / 128))) in *.
    cbn [length]. fold m. rewrite pow128_succ. split; [nia|]. intros _.
    replace (Z.of_nat (S m) - 1) with (Z.of_nat m) by lia.
    destruct (Nat.eq_dec m 1%nat) as [Hm1|Hm1].
    + rewrite Hm1. change (128 ^ Z.of_nat 1) with 128. lia.
    + specialize (Hlow ltac:(lia)).
      replace (Z.of_nat m) with (Z.succ (Z.of_nat m - 1)) by lia.
      rewrite Z.pow_succ_r by lia. nia.
Qed.

(** X2. When [varint_encode] succeeds on a buffer of at least [bufsz]
    bytes, the [n] bytes it stored are below 256, all but the last carry the
    continuation bit and the last does not, and [n] is the least number of
    seven-bit groups that hold [v]. *)
Theorem varint_encode_wire_form v buf bufsz :
  0 <= v → bufsz <= Z.of_nat (length buf) →
  (Health.varint_encode v buf bufsz).1 ≠ -1 →
  let n := (Health.varint_encode v buf bufsz).1 in
  varint_wire (take (Z.to_nat n) (Health.varint_encode v buf bufsz).2) ∧
  1 <= n <= bufsz ∧ v < 128 ^ n ∧ (1 < n → 128 ^ (n - 1) <= v).
Proof.
  intros Hv Hbuf Hok. cbn zeta.
  pose proof (varint_encode_fails_iff v buf bufsz Hv) as Hov.
  assert (0 < bufsz ∧ v < 128 ^ bufsz) as [Hpos Hfit].
  { destruct (Z.le_gt_cases bufsz 0); [tauto|].
    destruct (Z.le_gt_cases (128 ^ bufsz) v); [tauto|lia]. }
  unfold Health.varint_encode in *.
  assert (0 <= v < 128 ^ Z.of_nat (Z.to_nat bufsz)) as Hv'
    by (rewrite Z2Nat.id by lia; lia).
  rewrite varint_encode_from_groups by (done || lia). cbn [fst snd].
  assert (0 < Z.to_nat bufsz)%nat as Hroom by lia.
  pose proof (length_varint_groups _ _ v Hv' Hroom Hroom) as Hlen.
  pose proof (varint_groups_minimal _ v Hv' Hroom) as [Hup Hlow].
  pose proof (varint_groups_wire _ v Hv' Hroom) as Hw.
  set (g := varint_groups (Z.to_nat bufsz) v) in *.
  rewrite Z.add_0_l, Nat2Z.id, buf_store_0_take by lia.
  split; [done|]. split; [lia|]. split; [done|]. intros H1.
  replace (Z.of_nat (length g) - 1) with (Z.of_nat (length g) - 1) by done.
  apply Hlow. lia.
Qed.

Lemma varint_encode_wire_form_witness :
  let n := (Health.varint_encode 300 (replicate 10 0) 10).1 in
  varint_wire (take (Z.to_nat n) (Health.varint_encode 300 (replicate 10 0) 10).2) ∧
  1 <= n <= 10 ∧ 300 < 128 ^ n ∧ (1 < n → 128 ^ (n - 1) <= 300).
Proof.
  apply (varint_encode_wire_form 300 (replicate 10 0) 10);
    [lia | simpl; lia | by vm_compute].
Defined.

(** ** The readers on arbitrary streams *)

(** One [recv]: it takes some [k] bytes off the front of the stream, at
    most [len], and returns [k], or [-1] on a closed socket. *)
Lemma recv_cases s len :
  ∃ (k : nat) r,
    (recv s len).2 = set_rx s r ∧ concat r = drop k (stream s) ∧
    (recv s len).1.2 = take k (stream s) ∧
    (k ≤ Z.to_nat len)%nat ∧ (k ≤ length (stream s))%nat ∧
    ((recv s len).1.1 = Z.of_nat k ∨ ((recv s len).1.1 = -1 ∧ k = 0%nat)).
Proof.
  destruct (is_open s) eqn:Ho.
  - destruct (recv_open s len Ho) as (k & r & E & Hr & Hk & Hks & _).
    exists k, r. rewrite E. cbn [fst snd]. repeat split; try done; by left.
  - exists 0%nat, (rx s). unfold recv. rewrite Ho. cbn [fst snd].
    rewrite set_rx_id. repeat split; try done; try lia; by right.
Qed.

(** The receive loop on any stream: it stores at [buf + total] the [k]
    bytes it takes off the front of the stream, never more than
    [len - total], and returns [-1] or [total + k]. *)
Lemma recv_exact_cases left s buf len total :
  0 <= total →
  ∃ (k : nat) r,
    (recv_exact left s buf len total).2 = set_rx s r ∧
    concat r = drop k (stream s) ∧
    (recv_exact left s buf len total).1.2
    = buf_store buf total (take k (stream s)) ∧
    Z.of_nat k <= Z.max 0 (len - total) ∧
    ((recv_exact left s buf len total).1.1 = -1
     ∨ (recv_exact left s buf len total).1.1 = total + Z.of_nat k).
Proof.
  revert s buf total. induction left as [|left IH]; intros s buf total Ht.
  - exists 0%nat, (rx s). cbn [recv_exact fst snd]. rewrite set_rx_id.
    repeat split; try done; lia.
  - cbn [recv_exact]. destruct (Z.ltb_spec total len) as [Hlt|Hge].
    + destruct (recv_cases s (len - total))
        as (k & r & Hs & Hr & Hgot & Hk & Hks & Hn).
      destruct (recv s (len - total)) as [[n got] s1]. cbn [fst snd] in *.
      subst s1 got.
      destruct (Z.leb_spec n 0) as [Hle|Hpos].
      * exists 0%nat, r. cbn [fst snd]. assert (k = 0%nat) as -> by lia.
        repeat split; try done; try lia; by left.
      * assert (n = Z.of_nat k) as -> by lia.
        destruct (IH (set_rx s r) (buf_store buf total (take k (stream s)))
                    (total + Z.of_nat k) ltac:(lia))
          as (k' & r' & Hs' & Hr' & Hout & Hk' & Hrc).
        rewrite stream_set_rx, Hr in Hr', Hout.
        exists (k + k')%nat, r'. rewrite Hs', Hout, set_rx_set_rx.
        split; [done|]. split; [by rewrite Hr', drop_drop|]. split.
        { replace (total + Z.of_nat k) with
            (total + Z.of_nat (length (take k (stream s))))
            by (rewrite length_take; lia).
          by rewrite buf_store_app, take_take_drop by lia. }
        split; [lia|]. destruct Hrc as [->| ->]; [by left|right; lia].
    + exists 0%nat, (rx s). cbn [fst snd]. rewrite set_rx_id.
      repeat split; try done; lia.
Qed.

(** The prefix loop takes at most [rounds] bytes off the stream. *)
Lemma read_varint_cases rounds s msg_len shift :
  ∃ (k : nat) r,
    (Health.read_varint rounds s msg_len shift).2 = set_rx s r ∧
    concat r = drop k (stream s) ∧ (k ≤ rounds)%nat.
Proof.
  revert s msg_len shift.
  induction rounds as [|rounds IH]; intros s msg_len shift.
  - exists 0%nat, (rx s). cbn. by rewrite set_rx_id.
  - cbn [Health.read_varint].
    destruct (recv_cases s 1) as (k & r & Hs & Hr & _ & Hk & _ & _).
    destruct (recv s 1) as [[n got] s1]. cbn [snd] in Hs. subst s1.
    destruct (n <=? 0); [exists k, r; cbn [snd]; repeat split; try done; lia|].
    destruct (Z.land (default 0 (head got)) 0x80 =? 0);
      [exists k, r; cbn [snd]; repeat split; try done; lia|].
    match goal with |- context [Health.read_varint rounds _ ?m ?sh] =>
      destruct (IH (set_rx s r) m sh) as (k' & r' & Hs' & Hr' & Hk') end.
    rewrite stream_set_rx, Hr in Hr'.
    exists (k + k')%nat, r'. rewrite Hs', set_rx_set_rx.
    split; [done|]. split; [by rewrite Hr', drop_drop|].
    change (Z.to_nat 1) with 1%nat in Hk. lia.
Qed.

Lemma to_int_range z : - 2 ^ 31 <= to_int z < 2 ^ 31.
Proof.
  unfold to_int. pose proof (Z.mod_pos_bound (z + 2 ^ 31) (2 ^ 32) ltac:(lia)).
  lia.
Qed.

Lemma read_delimited_effect s buf max_len :
  0 <= max_len →
  -1 <= (Health.read_delimited s buf max_len).1.1 <= max_len ∧
  drop (Z.to_nat max_len) (Health.read_delimited s buf max_len).1.2
  = drop (Z.to_nat max_len) buf ∧
  ∃ k : nat, stream (Health.read_delimited s buf max_len).2
             = drop k (stream s) ∧ Z.of_nat k <= 10 + max_len.
Proof.
  intros Hmax. unfold Health.read_delimited.
  destruct (read_varint_cases 10 s 0 0) as (k & r & Hs & Hr & Hk).
  destruct (Health.read_varint 10 s 0 0) as [[msg_len|] s1];
    cbn [snd] in Hs; subst s1; cbn [fst snd].
  2:{ split; [lia|]. split; [done|]. exists k. rewrite stream_set_rx.
      split; [done|lia]. }
  unfold Health.read_delimited_body.
  destruct (msg_len =? 0).
  { cbn [fst snd]. split; [lia|]. split; [done|]. exists k.
    rewrite stream_set_rx. split; [done|lia]. }
  destruct (Z.gtb_spec (to_int msg_len) max_len) as [Hgt|Hle].
  { cbn [fst snd]. split; [lia|]. split; [done|]. exists k.
    rewrite stream_set_rx. split; [done|lia]. }
  destruct (recv_exact_cases (Z.to_nat (to_int msg_len)) (set_rx s r) buf
              (to_int msg_len) 0 ltac:(lia))
    as (k' & r' & Hs' & Hr' & Hout & Hk' & Hrc).
  rewrite stream_set_rx, Hr in Hr', Hout. rewrite Hs', Hout.
  split; [destruct Hrc as [->| ->]; lia|]. split.
  - apply drop_buf_store. rewrite length_take. lia.
  - exists (k + k')%nat. rewrite stream_set_rx, Hr', drop_drop.
    split; [done|lia].
Qed.

(** X3. Whatever arrives on the socket (and whether it is open or not),
    [read_delimited] returns [-1] or a length in [0, max_len], leaves the
    buffer beyond its first [max_len] bytes as it was, and takes at most
    [10 + max_len] bytes off the stream. *)
Theorem read_delimited_bounds s buf max_len :
  0 <= max_len →
  -1 <= (Health.read_delimited s buf max_len).1.1 <= max_len ∧
  drop (Z.to_nat max_len) (Health.read_delimited s buf max_len).1.2
  = drop (Z.to_nat max_len) buf ∧
  ∃ k : nat, stream (Health.read_delimited s buf max_len).2
             = drop k (stream s) ∧ Z.of_nat k <= 10 + max_len.
Proof. exact (read_delimited_effect s buf max_len). Qed.

Lemma read_delimited_bounds_witness :
  -1 <= (Health.read_delimited
           (Sock [[0x81; 0x80; 0x80; 0x80; 0x10]; [0xAA; 0xBB]] 0 [] true)
           (replicate 4 0) 2).1.1 <= 2 ∧
  drop (Z.to_nat 2)
    (Health.read_delimited
       (Sock [[0x81; 0x80; 0x80; 0x80; 0x10]; [0xAA; 0xBB]] 0 [] true)
       (replicate 4 0) 2).1.2
  = drop (Z.to_nat 2) (replicate 4 0) ∧
  ∃ k : nat,
    stream (Health.read_delimited
              (Sock [[0x81; 0x80; 0x80; 0x80; 0x10]; [0xAA; 0xBB]] 0 [] true)
              (replicate 4 0) 2).2
    = drop k (stream (Sock [[0x81; 0x80; 0x80; 0x80; 0x10]; [0xAA; 0xBB]]
                        0 [] true)) ∧
    Z.of_nat k <= 10 + 2.
Proof.
  apply (read_delimited_bounds
           (Sock [[0x81; 0x80; 0x80; 0x80; 0x10]; [0xAA; 0xBB]] 0 [] true)
           (replicate 4 0) 2). lia.
Defined.

(** X4. Whatever arrives on the socket, [read_framed] returns a value of
    at most [max_len] (negative on failure), leaves the buffer beyond its
    first [max_len] bytes as it was, and takes at most [4 + max_len] bytes
    off the stream. *)
Theorem read_framed_bounds s buf max_len :
  0 <= max_len →
  - 2 ^ 31 <= (Cnode.read_framed s buf max_len).1.1 <= max_len ∧
  drop (Z.to_nat max_len) (Cnode.read_framed s buf max_len).1.2
  = drop (Z.to_nat max_len) buf ∧
  ∃ k : nat, stream (Cnode.read_framed s buf max_len).2
             = drop k (stream s) ∧ Z.of_nat k <= 4 + max_len.
Proof.
  intros Hmax. unfold Cnode.read_framed.
  destruct (recv_exact_cases 4 s (Cnode.le_bytes 4 0) 4 0 ltac:(lia))
    as (k & r & Hs & Hr & _ & Hk & _).
  destruct (recv_exact 4 s (Cnode.le_bytes 4 0) 4 0) as [[rc hdr] s1].
  cbn [fst snd] in Hs. subst s1.
  destruct (rc <? 0).
  { cbn [fst snd]. split; [lia|]. split; [done|]. exists k.
    rewrite stream_set_rx. split; [done|lia]. }
  destruct (Cnode.le_value hdr =? 0).
  { cbn [fst snd]. split; [lia|]. split; [done|]. exists k.
    rewrite stream_set_rx. split; [done|lia]. }
  pose proof (to_int_range (Cnode.le_value hdr)) as Hrange.
  destruct (Z.gtb_spec (to_int (Cnode.le_value hdr)) max_len) as [Hgt|Hle].
  { cbn [fst snd]. split; [lia|]. split; [done|]. exists k.
    rewrite stream_set_rx. split; [done|lia]. }
  destruct (recv_exact_cases (Z.to_nat (to_int (Cnode.le_value hdr)))
              (set_rx s r) buf (to_int (Cnode.le_value hdr)) 0 ltac:(lia))
    as (k' & r' & Hs' & Hr' & Hout & Hk' & Hrc).
  rewrite stream_set_rx, Hr in Hr', Hout.
  destruct (recv_exact _ (set_rx s r) buf _ 0) as [[rc' out] s2].
  cbn [fst snd] in Hs', Hout, Hrc. subst s2 out.
  assert (drop (Z.to_nat max_len)
            (buf_store buf 0 (take k' (drop k (stream s))))
          = drop (Z.to_nat max_len) buf) as Hdrop
    by (apply drop_buf_store; rewrite length_take; lia).
  destruct (rc' <? 0); cbn [fst snd].
  - split; [lia|]. split; [done|]. exists (k + k')%nat.
    rewrite stream_set_rx, Hr', drop_drop. split; [done|lia].
  - split; [lia|]. split; [done|]. exists (k + k')%nat.
    rewrite stream_set_rx, Hr', drop_drop. split; [done|lia].
Qed.

Lemma read_framed_bounds_witness :
  - 2 ^ 31 <= (Cnode.read_framed (Sock [[0; 0; 0; 0x80]; [0xAA]] 0 [] true)
                 (replicate 4 0) 2).1.1 <= 2 ∧
  drop (Z.to_nat 2)
    (Cnode.read_framed (Sock [[0; 0; 0; 0x80]; [0xAA]] 0 [] true)
       (replicate 4 0) 2).1.2
  = drop (Z.to_nat 2) (replicate 4 0) ∧
  ∃ k : nat,
    stream (Cnode.read_framed (Sock [[0; 0; 0; 0x80]; [0xAA]] 0 [] true)
              (replicate 4 0) 2).2
    = drop k (stream (Sock [[0; 0; 0; 0x80]; [0xAA]] 0 [] true)) ∧
    Z.of_nat k <= 4 + 2.
Proof.
  apply (read_framed_bounds (Sock [[0; 0; 0; 0x80]; [0xAA]] 0 [] true)
           (replicate 4 0) 2). lia.
Defined.

(** ** Streams that end early *)






(** ** The writers on connections that may come back short *)

Lemma send_cases s d :
  is_open s = true →
  tx (send s d).2 = tx s ++ take (tx_room s) d ∧
  rx (send s d).2 = rx s ∧ is_open (send s d).2 = true ∧
  tx_room (send s d).2 = (tx_room s - length d)%nat ∧
  ((send s d).1 = Z.of_nat (length d) ↔ (length d ≤ tx_room s)%nat).
Proof.
  intros Ho. unfold send. rewrite Ho. cbn [fst snd tx rx is_open tx_room].
  split.
  { f_equal. destruct (Nat.le_gt_cases (length d) (tx_room s)).
    - rewrite Nat.min_l by lia. by rewrite !take_ge by lia.
    - by rewrite Nat.min_r by lia. }
  split; [done|]. split; [done|]. split; [lia|].
  destruct (Nat.le_gt_cases (length d) (tx_room s)).
  - rewrite Nat.min_l by lia. split; [done|]. intros _.
    by destruct (length d).
  - rewrite Nat.min_r by lia. split; [|lia].
    destruct (tx_room s) as [|n] eqn:E; cbn [Nat.eqb andb negb].
    + destruct (length d); [lia|]. cbn [Nat.eqb negb]. lia.
    + lia.
Qed.

Lemma delimited_frame_groups data :
  Z.of_nat (length data) <= INT_MAX →
  delimited_frame data = varint_groups 10 (Z.of_nat (length data)) ++ data ∧
  Health.varint_encode (Z.of_nat (length data)) (replicate 10 0) 10
  = (Z.of_nat (length (varint_groups 10 (Z.of_nat (length data)))),
     buf_store (replicate 10 0) 0 (varint_groups 10 (Z.of_nat (length data)))) ∧
  (1 ≤ length (varint_groups 10 (Z.of_nat (length data))) ≤ 10)%nat.
Proof.
  intros Hmax.
  assert (0 <= Z.of_nat (length data) < 128 ^ Z.of_nat 10) as Hv
    by (apply uint64_fits_ten_groups; unfold INT_MAX in *; lia).
  pose proof (length_varint_groups 10 10 _ Hv ltac:(lia) ltac:(lia)) as Hg.
  assert (Health.varint_encode (Z.of_nat (length data)) (replicate 10 0) 10
          = (Z.of_nat (length (varint_groups 10 (Z.of_nat (length data)))),
             buf_store (replicate 10 0) 0
               (varint_groups 10 (Z.of_nat (length data))))) as E.
  { unfold Health.varint_encode. change (Z.to_nat 10) with 10%nat.
    rewrite varint_encode_from_groups by (done || lia). by rewrite Z.add_0_l. }
  split; [|done]. unfold delimited_frame. cbn zeta. rewrite E. cbn [fst snd].
  rewrite Nat2Z.id, buf_store_0_take by (rewrite length_replicate; lia). done.
Qed.

Lemma write_delimited_cases s data :
  is_open s = true → Z.of_nat (length data) <= INT_MAX →
  tx (Health.write_delimited s data (Z.of_nat (length data))).2
  = tx s ++ take (tx_room s) (delimited_frame data) ∧
  rx (Health.write_delimited s data (Z.of_nat (length data))).2 = rx s ∧
  ((Health.write_delimited s data (Z.of_nat (length data))).1 = 0
   ↔ (length (delimited_frame data) ≤ tx_room s)%nat) ∧
  ((Health.write_delimited s data (Z.of_nat (length data))).1 = 0
   ∨ (Health.write_delimited s data (Z.of_nat (length data))).1 = -1).
Proof.
  intros Ho Hmax.
  destruct (delimited_frame_groups data Hmax) as (-> & E & Hg).
  unfold Health.write_delimited.
  assert (to_uint64 (Z.of_nat (length data)) = Z.of_nat (length data)) as ->
    by (unfold to_uint64, INT_MAX in *; apply Z.mod_small; lia).
  rewrite E. set (g := varint_groups 10 (Z.of_nat (length data))) in *.
  destruct (Z.ltb_spec (Z.of_nat (length g)) 0); [lia|].
  rewrite Nat2Z.id, buf_store_0_take by (rewrite length_replicate; lia).
  destruct (send_cases s g Ho) as (Htx1 & Hrx1 & Ho1 & Hroom1 & Hret1).
  destruct (send s g) as [n1 s1]. cbn [fst snd] in *.
  rewrite length_app.
  destruct (Z.eqb_spec n1 (Z.of_nat (length g))) as [Hn1|Hn1]; cbn [negb].
  - apply Hret1 in Hn1. rewrite Nat2Z.id, firstn_all.
    destruct (send_cases s1 data Ho1) as (Htx2 & Hrx2 & Ho2 & Hroom2 & Hret2).
    destruct (send s1 data) as [n2 s2]. cbn [fst snd] in *.
    assert (tx s2 = tx s ++ take (tx_room s) (g ++ data)) as Htx.
    { rewrite Htx2, Htx1, Hroom1, take_app_ge by lia.
      by rewrite (take_ge g), <- app_assoc by lia. }
    destruct (Z.eqb_spec n2 (Z.of_nat (length data))) as [Hn2|Hn2];
      cbn [negb fst snd].
    + apply Hret2 in Hn2.
      repeat split; try done; try lia; try congruence; by left.
    + repeat split; try done; try congruence; try lia;
        try (intros Hfit; apply Hn2, Hret2; lia); by right.
  - cbn [fst snd]. rewrite Htx1.
    assert (¬ (length g ≤ tx_room s)%nat) by (intros H'; by apply Hn1, Hret1).
    rewrite take_app_le by lia.
    repeat split; try done; try lia; by right.
Qed.

(** X7. On an open connection [write_delimited] hands the peer a prefix
    of the frame, as much of it as the connection takes, and never anything
    else; it returns [0] exactly when the whole frame was taken and [-1]
    otherwise. *)
Theorem write_delimited_prefix s data :
  is_open s = true → Z.of_nat (length data) <= INT_MAX →
  tx (Health.write_delimited s data (Z.of_nat (length data))).2
  = tx s ++ take (tx_room s) (delimited_frame data) ∧
  rx (Health.write_delimited s data (Z.of_nat (length data))).2 = rx s ∧
  ((Health.write_delimited s data (Z.of_nat (length data))).1 = 0
   ↔ (length (delimited_frame data) ≤ tx_room s)%nat) ∧
  ((Health.write_delimited s data (Z.of_nat (length data))).1 = 0
   ∨ (Health.write_delimited s data (Z.of_nat (length data))).1 = -1).
Proof. exact (write_delimited_cases s data). Qed.

Lemma write_delimited_prefix_witness :
  tx (Health.write_delimited (Sock [] 2 [] true) [8; 1] (Z.of_nat 2)).2
  = [] ++ take 2 (delimited_frame [8; 1]) ∧
  rx (Health.write_delimited (Sock [] 2 [] true) [8; 1] (Z.of_nat 2)).2 = [] ∧
  ((Health.write_delimited (Sock [] 2 [] true) [8; 1] (Z.of_nat 2)).1 = 0
   ↔ (length (delimited_frame [8%Z; 1%Z]) ≤ 2)%nat) ∧
  ((Health.write_delimited (Sock [] 2 [] true) [8; 1] (Z.of_nat 2)).1 = 0
   ∨ (Health.write_delimited (Sock [] 2 [] true) [8; 1] (Z.of_nat 2)).1 = -1).
Proof.
  apply (write_delimited_prefix (Sock [] 2 [] true) [8; 1]);
    [reflexivity | by vm_compute].
Defined.

Lemma write_framed_cases s data :
  is_open s = true → Z.of_nat (length data) <= INT_MAX →
  tx (Cnode.write_framed s data (Z.of_nat (length data))).2
  = tx s ++ take (tx_room s) (frame data) ∧
  rx (Cnode.write_framed s data (Z.of_nat (length data))).2 = rx s ∧
  ((Cnode.write_framed s data (Z.of_nat (length data))).1 = 0
   ↔ (length (frame data) ≤ tx_room s)%nat) ∧
  ((Cnode.write_framed s data (Z.of_nat (length data))).1 = 0
   ∨ (Cnode.write_framed s data (Z.of_nat (length data))).1 = -1).
Proof.
  intros Ho Hmax. unfold Cnode.write_framed, frame.
  assert (to_uint32 (Z.of_nat (length data)) = Z.of_nat (length data)) as ->
    by (unfold to_uint32, INT_MAX in *; apply Z.mod_small; lia).
  set (h := Cnode.le_bytes 4 (Z.of_nat (length data))).
  assert (length h = 4%nat) as Hh by apply length_le_bytes.
  destruct (send_cases s h Ho) as (Htx1 & Hrx1 & Ho1 & Hroom1 & Hret1).
  destruct (send s h) as [n1 s1]. cbn [fst snd] in *.
  rewrite length_app, Hh. rewrite Hh in Hret1, Hroom1.
  destruct (Z.eqb_spec n1 4) as [Hn1|Hn1]; cbn [negb].
  - apply Hret1 in Hn1.
    destruct (Z.gtb_spec (Z.of_nat (length data)) 0) as [Hpos|Hz].
    + rewrite Nat2Z.id, firstn_all.
      destruct (send_cases s1 data Ho1) as (Htx2 & Hrx2 & Ho2 & Hroom2 & Hret2).
      destruct (send s1 data) as [n2 s2]. cbn [fst snd] in *.
      assert (tx s2 = tx s ++ take (tx_room s) (h ++ data)) as Htx.
      { rewrite Htx2, Htx1, Hroom1, take_app_ge by lia.
        by rewrite (take_ge h), <- app_assoc, Hh by lia. }
      destruct (Z.eqb_spec n2 (Z.of_nat (length data))) as [Hn2|Hn2];
        cbn [negb fst snd].
      * apply Hret2 in Hn2.
        repeat split; try done; try lia; try congruence; by left.
      * repeat split; try done; try congruence; try lia;
          try (intros Hfit; apply Hn2, Hret2; lia); by right.
    + assert (data = []) as -> by (apply of_nat_length_0; lia).
      cbn [fst snd length]. rewrite app_nil_r, Htx1.
      repeat split; try done; try lia; by left.
  - cbn [fst snd]. rewrite Htx1.
    assert (¬ (4 ≤ tx_room s)%nat) by (intros H'; by apply Hn1, Hret1).
    rewrite take_app_le by lia.
    repeat split; try done; try lia; by right.
Qed.

(** X8. On an open connection [write_framed] hands the peer a prefix of
    the frame (the four-byte length, then the payload), as much of it as
    the connection takes; it returns [0] exactly when the whole frame was
    taken and [-1] otherwise. *)
Theorem write_framed_prefix s data :
  is_open s = true → Z.of_nat (length data) <= INT_MAX →
  tx (Cnode.write_framed s data (Z.of_nat (length data))).2
  = tx s ++ take (tx_room s) (frame data) ∧
  rx (Cnode.write_framed s data (Z.of_nat (length data))).2 = rx s ∧
  ((Cnode.write_framed s data (Z.of_nat (length data))).1 = 0
   ↔ (length (frame data) ≤ tx_room s)%nat) ∧
  ((Cnode.write_framed s data (Z.of_nat (length data))).1 = 0
   ∨ (Cnode.write_framed s data (Z.of_nat (length data))).1 = -1).
Proof. exact (write_framed_cases s data). Qed.

Lemma write_framed_prefix_witness :
  tx (Cnode.write_framed (Sock [] 5 [] true) [8; 1] (Z.of_nat 2)).2
  = [] ++ take 5 (frame [8; 1]) ∧
  rx (Cnode.write_framed (Sock [] 5 [] true) [8; 1] (Z.of_nat 2)).2 = [] ∧
  ((Cnode.write_framed (Sock [] 5 [] true) [8; 1] (Z.of_nat 2)).1 = 0
   ↔ (length (frame [8%Z; 1%Z]) ≤ 5)%nat) ∧
  ((Cnode.write_framed (Sock [] 5 [] true) [8; 1] (Z.of_nat 2)).1 = 0
   ∨ (Cnode.write_framed (Sock [] 5 [] true) [8; 1] (Z.of_nat 2)).1 = -1).
Proof.
  apply (write_framed_prefix (Sock [] 5 [] true) [8; 1]);
    [reflexivity | by vm_compute].
Defined.

(** ** The health server on any connection *)

Lemma handle_connection_effect req_buf cfd :
  is_open cfd = true →
  tx (Health.handle_connection req_buf cfd)
  = tx cfd ++ take (tx_room cfd) [0x02; 0x08; 0x01] ∧
  is_open (Health.handle_connection req_buf cfd) = false ∧
  ∃ k : nat, stream (Health.handle_connection req_buf cfd)
             = drop k (stream cfd) ∧ (k ≤ 74)%nat.
Proof.
  intros Ho. unfold Health.handle_connection.
  destruct (read_delimited_keeps_tx cfd req_buf 64) as (r & Hr).
  destruct (read_delimited_effect cfd req_buf 64 ltac:(lia))
    as (_ & _ & k & Hk & Hk74).
  destruct (Health.read_delimited cfd req_buf 64) as [[n out] s1].
  cbn [snd] in Hr, Hk. subst s1.
  destruct (write_delimited_cases (set_rx cfd r) Health.HEALTH_RESP_SERVING
              Ho ltac:(by vm_compute)) as (Htx & Hrx & _).
  change (Z.of_nat (length Health.HEALTH_RESP_SERVING)) with 2 in Htx, Hrx.
  change (delimited_frame Health.HEALTH_RESP_SERVING)
    with [0x02; 0x08; 0x01] in Htx.
  unfold Health.HEALTH_RESP_LEN.
  destruct (Health.write_delimited (set_rx cfd r) Health.HEALTH_RESP_SERVING 2)
    as [rc s2]. cbn [snd] in Htx, Hrx.
  cbn [close tx is_open]. split; [done|]. split; [done|].
  exists k. split; [|lia]. rewrite <- Hk. unfold stream, close. cbn [rx].
  by rewrite Hrx.
Qed.

(** X9. On every open connection, whatever the client sent and whether or
    not the reply can be written, [handle_connection] hands the peer a
    prefix of [02 08 01] (as much as the connection takes) and nothing
    else, closes the connection, and has read at most 74 bytes of what the
    client sent. *)
Theorem handle_connection_closes req_buf cfd :
  is_open cfd = true →
  tx (Health.handle_connection req_buf cfd)
  = tx cfd ++ take (tx_room cfd) [0x02; 0x08; 0x01] ∧
  is_open (Health.handle_connection req_buf cfd) = false ∧
  ∃ k : nat, stream (Health.handle_connection req_buf cfd)
             = drop k (stream cfd) ∧ (k ≤ 74)%nat.
Proof. apply handle_connection_effect. Qed.

Lemma handle_connection_closes_witness :
  tx (Health.handle_connection (replicate 64 0)
        (Sock [replicate 100 0x41] 1 [] true))
  = [] ++ take 1 [0x02; 0x08; 0x01] ∧
  is_open (Health.handle_connection (replicate 64 0)
             (Sock [replicate 100 0x41] 1 [] true)) = false ∧
  ∃ k : nat,
    stream (Health.handle_connection (replicate 64 0)
              (Sock [replicate 100 0x41] 1 [] true))
    = drop k (stream (Sock [replicate 100 0x41] 1 [] true)) ∧ (k ≤ 74)%nat.
Proof.
  apply (handle_connection_closes (replicate 64 0)
           (Sock [replicate 100 0x41] 1 [] true)). reflexivity.
Defined.

(** ** The accept loop *)

Lemma accept_loop_all k acc done errors :
  Forall accept_ok acc → (2 * length acc ≤ k)%nat →
  Health.handled (Health.accept_loop k acc done errors)
  = done ++ map (Health.handle_connection (replicate 64 0)) (accepted acc) ∧
  Health.accepts (Health.accept_loop k acc done errors) = [] ∧
  Health.accept_errors (Health.accept_loop k acc done errors)
  = (errors + hard_failures acc)%nat.
Proof.
  revert k done errors.
  induction acc as [|a acc IH]; intros k done errors Hok Hk.
  - destruct k as [|[|k]]; cbn; rewrite app_nil_r; repeat split; lia.
  - apply Forall_cons in Hok as [Ha Hok]. cbn [length] in Hk.
    destruct k as [|k]; [lia|]. destruct a as [errno|cfd].
    + destruct k as [|k]; [lia|]. cbn [Health.accept_loop accepted hard_failures].
      simpl in Ha.
      destruct ((errno =? Health.EINTR) || (errno =? Health.EAGAIN)
                || (errno =? Health.EWOULDBLOCK)).
      * apply IH; [done|lia].
      * destruct (Z.eqb_spec errno Health.EBADF); [done|].
        destruct (IH k done (S errors) Hok ltac:(lia)) as (H1 & H2 & H3).
        repeat split; try done. lia.
    + cbn [Health.accept_loop accepted hard_failures map].
      destruct (IH k (done ++ [Health.handle_connection (replicate 64 0) cfd])
                  errors Hok ltac:(lia)) as (H1 & H2 & H3).
      repeat split; try done. by rewrite H1, <- app_assoc.
Qed.

Lemma handled_open l :
  Forall (λ cfd, is_open cfd = true) l →
  map tx (map (Health.handle_connection (replicate 64 0)) l)
  = map (λ cfd, tx cfd ++ take (tx_room cfd) [0x02; 0x08; 0x01]) l ∧
  map is_open (map (Health.handle_connection (replicate 64 0)) l)
  = map (λ _, false) l.
Proof.
  induction 1 as [|cfd l Ho _ [IH1 IH2]]; [done|].
  destruct (handle_connection_effect (replicate 64 0) cfd Ho) as (E1 & E2 & _).
  cbn [map]. by rewrite IH1, IH2, E1, E2.
Qed.

(** X10. As long as the flag stays set, the accept loop handles every
    connection that [accept] returns, in order: each is handed
    [02 08 01] (as much of it as it takes) and closed.  A failed [accept]
    other than [EBADF] never ends the loop, and only failures that are not
    interruptions or would-block are logged. *)
Theorem health_server_loop_serves w :
  Forall accept_ok (Health.accepts w) →
  (2 * length (Health.accepts w) ≤ Health.serving w)%nat →
  map tx (Health.handled (Health.health_server_loop w))
  = map tx (Health.handled w)
    ++ map (λ cfd, tx cfd ++ take (tx_room cfd) [0x02; 0x08; 0x01])
         (accepted (Health.accepts w)) ∧
  map is_open (Health.handled (Health.health_server_loop w))
  = map is_open (Health.handled w)
    ++ map (λ _, false) (accepted (Health.accepts w)) ∧
  Health.accepts (Health.health_server_loop w) = [] ∧
  Health.accept_errors (Health.health_server_loop w)
  = (Health.accept_errors w + hard_failures (Health.accepts w))%nat.
Proof.
  intros Hok Hk. unfold Health.health_server_loop.
  destruct (accept_loop_all _ _ (Health.handled w) (Health.accept_errors w)
              Hok Hk) as (H1 & H2 & H3).
  rewrite H1, H2, H3, !map_app.
  assert (Forall (λ cfd, is_open cfd = true) (accepted (Health.accepts w)))
    as Hopen.
  { clear -Hok. induction (Health.accepts w) as [|[e|cfd] acc IH];
      cbn [accepted].
    - constructor.
    - apply Forall_cons in Hok as [_ Hok]. by apply IH.
    - apply Forall_cons in Hok as [Ho Hok]. constructor; [done|]. by apply IH. }
  destruct (handled_open _ Hopen) as [-> ->]. done.
Qed.

Lemma health_server_loop_serves_witness :
  let w := Health.ServerWorld 8
             [Health.Accepted (Sock [] 3 [] true);
              Health.AcceptFailed Health.EINTR;
              Health.AcceptFailed 24;
              Health.Accepted (Sock [[0x00]] 2 [] true)] [] 0 in
  map tx (Health.handled (Health.health_server_loop w))
  = map tx (Health.handled w)
    ++ map (λ cfd, tx cfd ++ take (tx_room cfd) [0x02; 0x08; 0x01])
         (accepted (Health.accepts w)) ∧
  map is_open (Health.handled (Health.health_server_loop w))
  = map is_open (Health.handled w)
    ++ map (λ _, false) (accepted (Health.accepts w)) ∧
  Health.accepts (Health.health_server_loop w) = [] ∧
  Health.accept_errors (Health.health_server_loop w)
  = (Health.accept_errors w + hard_failures (Health.accepts w))%nat.
Proof.
  intros w. apply (health_server_loop_serves w);
    [repeat constructor; done | simpl; lia].
Defined.





(** ** Opening and closing the health server *)

(** X12. When the server is not disabled, [amf_health_open] returns
    [OGS_OK] exactly when [socket], [bind], [listen] and [pthread_create]
    all succeed; it then holds the listening descriptor with the flag set
    and the accept loop started.  Otherwise it returns [OGS_ERROR], holds no
    descriptor, has started no thread, and has closed the descriptor it
    got, if it got one. *)
Theorem amf_health_open_outcome atoi env os st :
  env_disables env "AMF_GRPC_ENABLE" = false →
  let r := Health.amf_health_open atoi env os st in
  (r.1 = OGS_OK
   ↔ 0 <= Health.os_socket os ∧ 0 <= Health.os_bind os
     ∧ 0 <= Health.os_listen os ∧ Health.os_pthread_create os = 0) ∧
  (r.1 = OGS_OK →
   Health.server_fd r.2 = Health.os_socket os ∧
   Health.server_running r.2 = 1 ∧
   Health.health_events r.2
   = Health.health_events st ++ [Health.AcceptLoopStarted]) ∧
  (r.1 ≠ OGS_OK →
   r.1 = OGS_ERROR ∧ Health.server_fd r.2 < 0 ∧
   Health.health_events r.2
   = Health.health_events st
     ++ (if 0 <=? Health.os_socket os
         then [Health.FdClosed (Health.os_socket os)] else [])).
Proof.
  intros Hen. cbn zeta. unfold Health.amf_health_open. rewrite Hen.
  destruct (Z.ltb_spec (Health.os_socket os) 0) as [Hs|Hs].
  { cbn [fst snd Health.set_server Health.server_fd Health.health_events
         Health.health_load_config].
    destruct (Z.leb_spec 0 (Health.os_socket os)); [lia|].
    rewrite app_nil_r. unfold OGS_OK, OGS_ERROR. repeat split; try lia; done. }
  destruct (Z.leb_spec 0 (Health.os_socket os)); [|lia].
  destruct (Z.ltb_spec (Health.os_bind os) 0) as [Hb|Hb].
  { cbn [fst snd Health.set_server Health.server_fd Health.health_events
         Health.health_load_config].
    unfold OGS_OK, OGS_ERROR. repeat split; try lia; done. }
  destruct (Z.ltb_spec (Health.os_listen os) 0) as [Hl|Hl].
  { cbn [fst snd Health.set_server Health.server_fd Health.health_events
         Health.health_load_config].
    unfold OGS_OK, OGS_ERROR. repeat split; try lia; done. }
  destruct (Z.eqb_spec (Health.os_pthread_create os) 0) as [Hp|Hp]; cbn [negb].
  - cbn [fst snd Health.set_server Health.server_fd Health.server_running
         Health.health_events Health.health_load_config].
    unfold OGS_OK, OGS_ERROR. repeat split; try lia; done.
  - cbn [fst snd Health.set_server Health.server_fd Health.health_events
         Health.health_load_config].
    unfold OGS_OK, OGS_ERROR. repeat split; try lia; done.
Qed.

Lemma amf_health_open_outcome_witness :
  let r := Health.amf_health_open (λ _, 0) ∅ (Health.OsOutcome 5 (-1) 0 0)
             Health.health_init in
  (r.1 = OGS_OK
   ↔ 0 <= Health.os_socket (Health.OsOutcome 5 (-1) 0 0)
     ∧ 0 <= Health.os_bind (Health.OsOutcome 5 (-1) 0 0)
     ∧ 0 <= Health.os_listen (Health.OsOutcome 5 (-1) 0 0)
     ∧ Health.os_pthread_create (Health.OsOutcome 5 (-1) 0 0) = 0) ∧
  (r.1 = OGS_OK →
   Health.server_fd r.2 = Health.os_socket (Health.OsOutcome 5 (-1) 0 0) ∧
   Health.server_running r.2 = 1 ∧
   Health.health_events r.2
   = Health.health_events Health.health_init ++ [Health.AcceptLoopStarted]) ∧
  (r.1 ≠ OGS_OK →
   r.1 = OGS_ERROR ∧ Health.server_fd r.2 < 0 ∧
   Health.health_events r.2
   = Health.health_events Health.health_init
     ++ (if 0 <=? Health.os_socket (Health.OsOutcome 5 (-1) 0 0)
         then [Health.FdClosed (Health.os_socket (Health.OsOutcome 5 (-1) 0 0))]
         else [])).
Proof.
  apply (amf_health_open_outcome (λ _, 0) ∅ (Health.OsOutcome 5 (-1) 0 0)
           Health.health_init). reflexivity.
Defined.

(** X13. From a stopped server, [amf_health_open] followed by
    [amf_health_close] leaves a stopped server again, whatever the
    environment and the system calls did: no descriptor held, flag
    cleared; nothing happened, or the one descriptor obtained was closed
    once, or the accept loop was started, the descriptor closed and the
    loop joined. *)
Theorem amf_health_open_close atoi env os st :
  Health.server_fd st < 0 → Health.server_running st = 0 →
  let st' := Health.amf_health_close (Health.amf_health_open atoi env os st).2 in
  Health.server_fd st' < 0 ∧ Health.server_running st' = 0 ∧
  (Health.health_events st' = Health.health_events st
   ∨ Health.health_events st'
     = Health.health_events st ++ [Health.FdClosed (Health.os_socket os)]
   ∨ Health.health_events st'
     = Health.health_events st
       ++ [Health.AcceptLoopStarted; Health.FdClosed (Health.os_socket os);
           Health.AcceptLoopJoined]).
Proof.
  intros Hfd Hrun. cbn zeta. unfold Health.amf_health_open.
  destruct (env_disables env "AMF_GRPC_ENABLE").
  { cbn [snd]. unfold Health.amf_health_close.
    destruct (Z.ltb_spec (Health.server_fd st) 0); [|lia]. by repeat split; try left. }
  destruct (Z.ltb_spec (Health.os_socket os) 0) as [Hs|Hs].
  { cbn [snd]. unfold Health.amf_health_close.
    cbn [Health.set_server Health.server_fd Health.server_running
         Health.health_events Health.health_load_config].
    destruct (Z.ltb_spec (Health.os_socket os) 0); [|lia].
    cbn [Health.set_server Health.server_fd Health.server_running
         Health.health_events Health.health_load_config].
    rewrite app_nil_r. repeat split; try done. by left. }
  assert (∀ cfg run,
    let st1 := Health.set_server cfg (-1) run
                 [Health.FdClosed (Health.os_socket os)] in
    Health.amf_health_close st1 = st1) as Hclosed.
  { intros cfg run. unfold Health.amf_health_close. done. }
  destruct (Health.os_bind os <? 0).
  { cbn [snd]. rewrite Hclosed.
    cbn [Health.set_server Health.server_fd Health.server_running
         Health.health_events Health.health_load_config].
    repeat split; try done; try lia. right. by left. }
  destruct (Health.os_listen os <? 0).
  { cbn [snd]. rewrite Hclosed.
    cbn [Health.set_server Health.server_fd Health.server_running
         Health.health_events Health.health_load_config].
    repeat split; try done; try lia. right. by left. }
  destruct (negb (Health.os_pthread_create os =? 0)).
  { cbn [snd]. rewrite Hclosed.
    cbn [Health.set_server Health.server_fd Health.server_running
         Health.health_events Health.health_load_config].
    repeat split; try done; try lia. right. by left. }
  cbn [snd]. unfold Health.amf_health_close.
  cbn [Health.set_server Health.server_fd Health.server_running
       Health.health_events Health.health_load_config].
  destruct (Z.ltb_spec (Health.os_socket os) 0); [lia|].
  cbn [Health.set_server Health.server_fd Health.server_running
       Health.health_events Health.health_load_config].
  rewrite <- app_assoc. repeat split; try done; try lia. right. by right.
Qed.

Lemma amf_health_open_close_witness :
  let st' := Health.amf_health_close
               (Health.amf_health_open (λ _, 0) ∅ (Health.OsOutcome 5 0 0 0)
                  Health.health_init).2 in
  Health.server_fd st' < 0 ∧ Health.server_running st' = 0 ∧
  (Health.health_events st' = Health.health_events Health.health_init
   ∨ Health.health_events st'
     = Health.health_events Health.health_init
       ++ [Health.FdClosed (Health.os_socket (Health.OsOutcome 5 0 0 0))]
   ∨ Health.health_events st'
     = Health.health_events Health.health_init
       ++ [Health.AcceptLoopStarted;
           Health.FdClosed (Health.os_socket (Health.OsOutcome 5 0 0 0));
           Health.AcceptLoopJoined]).
Proof.
  apply (amf_health_open_close (λ _, 0) ∅ (Health.OsOutcome 5 0 0 0)
           Health.health_init); [by vm_compute | reflexivity].
Defined.

(** ** The configuration read from the environment *)

Lemma length_strncpy63 src : (String.length (Health.strncpy63 src) ≤ 63)%nat.
Proof.
  unfold Health.strncpy63. generalize 63%nat as m. intros m. revert src.
  induction m as [|m IH]; intros src.
  - destruct src; simpl; lia.
  - destruct src as [|c src]; [simpl; lia|].
    simpl. specialize (IH src). lia.
Qed.

Lemma env_port_range atoi env name old :
  0 <= old < 2 ^ 16 → 0 <= env_port atoi env name old < 2 ^ 16.
Proof.
  intros H. unfold env_port. destruct (env !! name) as [v|]; [|done].
  destruct (atoi v >? 0); [|done]. apply Z.mod_pos_bound. lia.
Qed.

Lemma health_load_config_fits atoi env st :
  config_fits st → config_fits (Health.health_load_config atoi env st).
Proof.
  intros (Hb & Ha & Hr & Hp & Hrp). unfold config_fits, Health.health_load_config.
  cbn [Health.g_bind_addr Health.g_advertise_ip Health.g_reg_server_ip
       Health.g_port Health.g_reg_server_port].
  repeat split;
    repeat match goal with
           | |- context [match ?x with _ => _ end] => destruct x
           end;
    try apply length_strncpy63; try done; try apply env_port_range; try lia;
    try (pose proof (env_port_range atoi env "AMF_GRPC_PORT" _ Hp); lia);
    try (pose proof (env_port_range atoi env
                       "AMF_GRPC_REGISTRATION_SERVER_PORT" _ Hrp); lia).
Qed.

(** X14. Whatever the environment holds (addresses of any length, ports
    of any size) and whatever [atoi] returns, after [amf_health_open] the
    stored addresses have at most 63 characters and the stored ports are
    within [0, 65535]: a port above 65535 is stored modulo [2^16]. *)
Theorem amf_health_open_config_fits atoi env os st :
  config_fits st → config_fits (Health.amf_health_open atoi env os st).2.
Proof.
  intros Hfit. unfold Health.amf_health_open.
  destruct (env_disables env "AMF_GRPC_ENABLE"); [done|].
  pose proof (health_load_config_fits atoi env st Hfit) as Hcfg.
  repeat match goal with |- context [if ?c then _ else _] => destruct c end;
    exact Hcfg.
Qed.

Lemma amf_health_open_config_fits_witness :
  config_fits
    (Health.amf_health_open (λ _, 70000)
       (<["AMF_GRPC_PORT"%string := "70000"%string]> ∅)
       (Health.OsOutcome 5 0 0 0) Health.health_init).2.
Proof.
  apply (amf_health_open_config_fits (λ _, 70000)
           (<["AMF_GRPC_PORT"%string := "70000"%string]> ∅)
           (Health.OsOutcome 5 0 0 0) Health.health_init).
  unfold config_fits. simpl. lia.
Defined.

(** ** The RegisterRequest encoder on any configuration *)

Lemma varint_groups_small (k : nat) v :
  0 <= v < 128 → (0 < k)%nat → varint_groups k v = [v].
Proof.
  intros Hv Hk. destruct k as [|k]; [lia|]. cbn [varint_groups].
  rewrite shiftr_7, Z.div_small, low_group_byte, Z.mod_small by lia. done.
Qed.

Lemma varint_groups_fuel (k k' : nat) v :
  0 <= v < 128 ^ Z.of_nat k → 0 <= v < 128 ^ Z.of_nat k' →
  (0 < k)%nat → (0 < k')%nat →
  varint_groups k v = varint_groups k' v.
Proof.
  revert k' v. induction k as [|k IH]; intros k' v Hv Hv' Hk Hk'; [lia|].
  destruct k' as [|k']; [lia|].
  cbn [varint_groups]. rewrite shiftr_7.
  destruct (Z.eqb_spec (v / 128) 0); [done|]. f_equal.
  pose proof (div128_bound k v Hv). pose proof (div128_bound k' v Hv').
  destruct k as [|k]; [simpl in *; lia|].
  destruct k' as [|k']; [simpl in *; lia|].
  apply IH; (done || lia).
Qed.

Lemma buf_store_0_app buf data :
  (length data ≤ length buf)%nat →
  buf_store buf 0 data = data ++ drop (length data) buf.
Proof.
  intros H. unfold buf_store. cbn [Z.to_nat].
  rewrite <- (take_drop (length data) buf) at 1.
  apply list_inserts_0_r. rewrite length_take. lia.
Qed.

Lemma varint_bytes_groups v :
  0 <= v < 2 ^ 64 →
  varint_bytes v = varint_groups 10 v ∧
  (1 ≤ length (varint_groups 10 v) ≤ 10)%nat.
Proof.
  intros Hv. pose proof (uint64_fits_ten_groups v Hv) as Hv10.
  pose proof (length_varint_groups 10 10 v Hv10 ltac:(lia) ltac:(lia)) as Hg.
  split; [|done]. unfold varint_bytes, Health.varint_encode. cbn zeta.
  change (Z.to_nat 10) with 10%nat.
  rewrite varint_encode_from_groups by (done || lia). cbn [fst snd].
  rewrite Z.add_0_l, Nat2Z.id, buf_store_0_take by (rewrite length_replicate; lia).
  done.
Qed.

(** [varint_encode] into any buffer with room for ten bytes. *)
Lemma varint_encode_at v buf bufsz :
  0 <= v < 2 ^ 64 → 10 <= bufsz → (10 ≤ length buf)%nat →
  Health.varint_encode v buf bufsz
  = (Z.of_nat (length (varint_bytes v)),
     varint_bytes v ++ drop (length (varint_bytes v)) buf).
Proof.
  intros Hv Hsz Hbuf. destruct (varint_bytes_groups v Hv) as [-> Hg].
  pose proof (uint64_fits_ten_groups v Hv) as Hv10.
  assert (0 <= v < 128 ^ Z.of_nat (Z.to_nat bufsz)) as Hvr.
  { split; [lia|]. apply Z.lt_le_trans with (128 ^ Z.of_nat 10); [lia|].
    apply Z.pow_le_mono_r; lia. }
  unfold Health.varint_encode.
  rewrite varint_encode_from_groups by (done || lia).
  rewrite (varint_groups_fuel (Z.to_nat bufsz) 10 v Hvr Hv10) by lia.
  rewrite Z.add_0_l.
  by rewrite buf_store_0_app by lia.
Qed.

Lemma length_string_bytes ip :
  length (Health.string_bytes ip) = String.length ip.
Proof.
  unfold Health.string_bytes. rewrite length_map.
  induction ip as [|c ip IH]; simpl; auto.
Qed.

Lemma register_request_built st proto :
  (String.length (Health.g_advertise_ip st) ≤ 63)%nat →
  0 <= Health.g_port st < 2 ^ 16 → length proto = 256%nat →
  let msg := register_request_message (Health.g_advertise_ip st)
               (Health.g_port st) in
  Health.register_request st proto
  = Some (Z.of_nat (length msg), msg ++ drop (length msg) proto) ∧
  (length msg ≤ 71)%nat.
Proof.
  intros Hip Hport Hlen. cbn zeta.
  destruct st as [fd run bind ip port en rip rport evs].
  cbn [Health.g_advertise_ip Health.g_port] in *.
  destruct (varint_bytes_groups port ltac:(lia)) as [Hvb Hg].
  assert (length (varint_groups 10 port) ≤ 3)%nat as Hg3.
  { assert (0 <= port < 128 ^ Z.of_nat 3) as Hp3
      by (change (128 ^ Z.of_nat 3) with 2097152; lia).
    rewrite <- (varint_groups_fuel 3 10 port Hp3) by
      (first [apply uint64_fits_ten_groups; lia | lia]).
    pose proof (length_varint_groups 3 3 port Hp3 ltac:(lia) ltac:(lia)). lia. }
  do 4 (destruct proto as [|? proto]; [discriminate Hlen|]).
  cbn [length] in Hlen. assert (length proto = 252%nat) as Ht by lia. clear Hlen.
  unfold Health.register_request. cbn [Health.g_advertise_ip Health.g_port].
  rewrite to_int_small by (unfold INT_MAX; lia).
  assert (to_uint64 (Z.of_nat (String.length ip)) = Z.of_nat (String.length ip))
    as -> by (unfold to_uint64; apply Z.mod_small; lia).
  assert (to_uint64 port = port) as ->
    by (unfold to_uint64; apply Z.mod_small; lia).
  change (Z.to_nat 0) with 0%nat. change (Z.to_nat (0 + 1)) with 1%nat.
  change (Z.to_nat (0 + 1 + 1)) with 2%nat.
  change (Z.to_nat (0 + 1 + 1 + 1)) with 3%nat.
  change (256 - (0 + 1 + 1 + 1)) with 253.
  cbn [insert list_insert drop take app].
  pose proof (length_string_bytes ip) as Hipb.
  set (L := String.length ip) in *. set (ipb := Health.string_bytes ip) in *.
  assert (varint_bytes (Z.of_nat L) = [Z.of_nat L]) as HvL.
  { destruct (varint_bytes_groups (Z.of_nat L) ltac:(lia)) as [-> _].
    apply varint_groups_small; lia. }
  rewrite (varint_encode_at (Z.of_nat L)) by (cbn [length]; lia).
  rewrite HvL. cbn [length app drop]. rewrite drop_0.
  change (Z.of_nat 1 <? 0) with false.
  cbn iota. rewrite Nat2Z.id, (take_ge ipb) by lia.
  replace (0 + 1 + 1 + 1 + Z.of_nat 1) with 4 by lia.
  assert (buf_store (8 :: 13 :: 18 :: Z.of_nat L :: proto) 4 ipb
          = [8; 13; 18; Z.of_nat L] ++ ipb ++ drop L proto) as ->.
  { unfold buf_store. set (h4 := [8; 13; 18; Z.of_nat L]).
    change (Z.to_nat 4) with (length h4 + 0)%nat.
    change (8 :: 13 :: 18 :: Z.of_nat L :: proto) with (h4 ++ proto).
    rewrite list_inserts_app_r. f_equal.
    rewrite <- Hipb. apply (buf_store_0_app proto ipb). lia. }
  destruct (drop L proto) as [|e t2] eqn:Hdrop.
  { apply (f_equal length) in Hdrop. rewrite length_drop in Hdrop.
    simpl in Hdrop. lia. }
  assert (length t2 = (251 - L)%nat) as Ht2.
  { apply (f_equal length) in Hdrop. rewrite length_drop in Hdrop.
    simpl in Hdrop. lia. }
  set (pre := [8; 13; 18; Z.of_nat L] ++ ipb).
  assert (length pre = (4 + L)%nat) as Hpre
    by (unfold pre; rewrite length_app; simpl; lia).
  rewrite (app_assoc [8; 13; 18; Z.of_nat L] ipb). fold pre.
  replace (Z.to_nat (4 + Z.of_nat L)) with (length pre + 0)%nat by lia.
  rewrite insert_app_r. cbn [insert list_insert].
  replace (Z.to_nat (4 + Z.of_nat L + 1)) with (length (pre ++ [24]))
    by (rewrite length_app; simpl; lia).
  change (pre ++ 24 :: t2) with (pre ++ [24] ++ t2).
  rewrite (app_assoc pre [24] t2), drop_app_length, take_app_length.
  rewrite (varint_encode_at port) by lia.
  set (vb := varint_bytes port) in *.
  assert (length vb ≤ 3)%nat as Hvb3 by (rewrite Hvb; done).
  destruct (Z.ltb_spec (Z.of_nat (length vb)) 0); [lia|].
  assert (length (register_request_message ip port) = (4 + L + 1 + length vb)%nat)
    as Hmsg.
  { unfold register_request_message. fold L ipb vb.
    rewrite !length_app. simpl. lia. }
  rewrite Hmsg. split; [|lia]. f_equal. f_equal; [lia|].
  unfold register_request_message. fold L ipb vb.
  rewrite <- !app_assoc. cbn [app]. do 4 f_equal.
  f_equal. f_equal. f_equal.
  replace (4 + L + 1 + length vb)%nat with (4 + (L + (1 + length vb)))%nat by lia.
  cbn [drop plus]. rewrite <- drop_drop, Hdrop. done.
Qed.

(** X15. For every configuration that fits its variables (any address of
    at most 63 characters, any 16-bit port) and whatever the 256-byte buffer
    held, the encoder of [do_registration] never fails: it fills the start
    of the buffer with [08 0D], [12], the address length, the address, [18]
    and the varint of the port, returns that length (at most 71) as the
    offset, and leaves the rest of the buffer as it was. *)
Theorem register_request_layout st proto :
  config_fits st → length proto = 256%nat →
  let msg := register_request_message (Health.g_advertise_ip st)
               (Health.g_port st) in
  Health.register_request st proto
  = Some (Z.of_nat (length msg), msg ++ drop (length msg) proto) ∧
  (length msg ≤ 71)%nat.
Proof.
  intros (_ & Hip & _ & Hport & _) Hlen.
  by apply register_request_built.
Qed.

Lemma register_request_layout_witness :
  let st := Health.HealthState (-1) 0 "0.0.0.0" "192.168.100.200" 443 0 "" 0 [] in
  let msg := register_request_message (Health.g_advertise_ip st)
               (Health.g_port st) in
  Health.register_request st (replicate 256 0xEE)
  = Some (Z.of_nat (length msg), msg ++ drop (length msg) (replicate 256 0xEE)) ∧
  (length msg ≤ 71)%nat.
Proof.
  intros st.
  apply (register_request_layout st (replicate 256 0xEE));
    [unfold config_fits; simpl; lia | reflexivity].
Defined.

(** ** The registration exchange *)

Lemma write_delimited_take s data (n : nat) :
  Health.write_delimited s data (Z.of_nat n)
  = Health.write_delimited s (take n data) (Z.of_nat n).
Proof.
  unfold Health.write_delimited. by rewrite Nat2Z.id, take_take, Nat.min_id.
Qed.

Lemma verdict_of_response resp out :
  (length resp ≤ length out)%nat → take (length resp) out = resp →
  (if (Z.of_nat (length resp) >=? 2) && (default 0 (out !! 0%nat) =? 0x08)
   then if default 0 (out !! 1%nat) =? 0x01
        then [Health.RegAccepted] else [Health.RegRejected]
   else [])
  = expected_verdict resp.
Proof.
  intros Hlen Htake.
  destruct resp as [|b0 [|b1 resp]]; [done| |].
  - cbn [length]. change (Z.of_nat 1 >=? 2) with false. done.
  - destruct out as [|o0 [|o1 out]]; [simpl in Hlen; lia..|].
    cbn [length take] in Htake. injection Htake as -> -> _.
    assert ((Z.of_nat (length (b0 :: b1 :: resp)) >=? 2) = true) as ->
      by (apply Z.geb_le; cbn [length]; lia).
    done.
Qed.

(** X16. On a connection that takes the request, [do_registration] sends
    exactly one Variant-V frame holding the RegisterRequest of the
    configuration, then reads one response frame of at most 128 bytes, logs
    acceptance when the response starts with [08 01], rejection when it
    starts with [08] and another byte, and nothing otherwise, and closes
    the connection.  Whatever dialling comes to, a socket that was
    connected is closed when [do_registration] returns. *)
Theorem do_registration_exchange st proto resp_buf sfd resp rest d :
  config_fits st → length proto = 256%nat → (128 ≤ length resp_buf)%nat →
  is_open sfd = true →
  (length (delimited_frame
             (register_request_message (Health.g_advertise_ip st)
                (Health.g_port st))) ≤ tx_room sfd)%nat →
  (length resp ≤ 128)%nat → stream sfd = delimited_frame resp ++ rest →
  (∃ s', Health.do_registration st proto resp_buf (Health.RegConnected sfd)
         = (Health.RegSent :: expected_verdict resp, Some s') ∧
     tx s' = tx sfd
             ++ delimited_frame
                  (register_request_message (Health.g_advertise_ip st)
                     (Health.g_port st)) ∧
     is_open s' = false) ∧
  (∀ s', (Health.do_registration st proto resp_buf d).2 = Some s' →
         is_open s' = false).
Proof.
  intros Hfit Hlen Hresp Ho Hroom Hr Hs.
  destruct Hfit as (_ & Hip & _ & Hport & _).
  destruct (register_request_built st proto Hip Hport Hlen) as [E Hmsg].
  set (msg := register_request_message (Health.g_advertise_ip st)
                (Health.g_port st)) in *.
  split.
  - unfold Health.do_registration. rewrite E.
    rewrite write_delimited_take, take_app_length.
    destruct (delimited_frame_groups msg ltac:(unfold INT_MAX; lia))
      as (Hframe & _ & _).
    destruct (write_delimited_sends sfd msg Ho ltac:(unfold INT_MAX; lia))
      as (s1 & E1 & Htx1 & Hrx1 & Ho1).
    { rewrite Hframe, length_app in Hroom. lia. }
    rewrite E1. change (0 <? 0) with false. cbn iota.
    destruct (delimited_frame_groups resp ltac:(unfold INT_MAX; lia))
      as (Hrframe & _ & _).
    destruct (read_delimited_frame s1 resp rest resp_buf 128 Ho1 ltac:(lia)
                ltac:(by vm_compute) ltac:(lia))
      as (out & r' & E2 & Htake & _ & Hout).
    { unfold stream. rewrite Hrx1. fold (stream sfd).
      by rewrite Hs, Hrframe, <- app_assoc. }
    rewrite E2. rewrite verdict_of_response by (done || lia).
    eexists. split; [done|]. cbn [close tx is_open set_rx].
    by rewrite Htx1, Hframe.
  - intros s'. unfold Health.do_registration. rewrite E.
    destruct d as [| | |c]; try done.
    destruct (Health.write_delimited c _ _) as [rc s1].
    destruct (rc <? 0); [by intros [= <-]|].
    destruct (Health.read_delimited s1 resp_buf 128) as [[n out] s2].
    by intros [= <-].
Qed.

Lemma do_registration_exchange_witness :
  let st := Health.health_init in
  let sfd := Sock [[0x02; 0x08]; [0x01]] 64 [] true in
  (∃ s', Health.do_registration st (replicate 256 0) (replicate 128 0)
           (Health.RegConnected sfd)
         = (Health.RegSent :: expected_verdict [0x08; 0x01], Some s') ∧
     tx s' = tx sfd
             ++ delimited_frame
                  (register_request_message (Health.g_advertise_ip st)
                     (Health.g_port st)) ∧
     is_open s' = false) ∧
  (∀ s', (Health.do_registration st (replicate 256 0) (replicate 128 0)
            Health.RegRefused).2 = Some s' →
         is_open s' = false).
Proof.
  intros st sfd.
  apply (do_registration_exchange st (replicate 256 0) (replicate 128 0) sfd
           [0x08; 0x01] [] Health.RegRefused);
    [ unfold config_fits; simpl; lia | reflexivity | simpl; lia | reflexivity
    | vm_compute; lia | simpl; lia | reflexivity ].
Defined.

(** ** Sessions of the cnode client on any peer *)

Lemma read_framed_keeps_tx s buf max_len :
  ∃ r, (Cnode.read_framed s buf max_len).2 = set_rx s r.
Proof.
  unfold Cnode.read_framed.
  destruct (recv_exact_keeps_tx 4 s (Cnode.le_bytes 4 0) 4 0) as (r & Hr).
  destruct (recv_exact 4 s (Cnode.le_bytes 4 0) 4 0) as [[rc hdr] s1].
  cbn [snd] in Hr. subst s1.
  destruct (rc <? 0); [by exists r|].
  destruct (Cnode.le_value hdr =? 0); [by exists r|].
  destruct (to_int (Cnode.le_value hdr) >? max_len); [by exists r|].
  match goal with |- context [recv_exact ?l _ ?b ?n ?t] =>
    destruct (recv_exact_keeps_tx l (set_rx s r) b n t) as (r' & Hr');
    destruct (recv_exact l (set_rx s r) b n t) as [[rc' out] s2] end.
  cbn [snd] in Hr'. subst s2. rewrite set_rx_set_rx.
  destruct (rc' <? 0); by exists r'.
Qed.

(** One frame of two bytes written on an open connection: a prefix of it
    is sent; on success all six bytes are and the connection stays open. *)
Lemma write_framed_two s data :
  is_open s = true → length data = 2%nat →
  tx (Cnode.write_framed s data 2).2 = tx s ++ take (tx_room s) (frame data) ∧
  ((Cnode.write_framed s data 2).1 = 0 ∨ (Cnode.write_framed s data 2).1 = -1) ∧
  ((Cnode.write_framed s data 2).1 = 0 →
   (6 ≤ tx_room s)%nat ∧ is_open (Cnode.write_framed s data 2).2 = true ∧
   rx (Cnode.write_framed s data 2).2 = rx s ∧
   tx_room (Cnode.write_framed s data 2).2 = (tx_room s - 6)%nat).
Proof.
  intros Ho Hlen.
  destruct (write_framed_cases s data Ho ltac:(unfold INT_MAX; lia))
    as (Htx & _ & Hiff & Hrc).
  rewrite Hlen in Htx, Hiff, Hrc. change (Z.of_nat 2) with 2 in *.
  assert (length (frame data) = 6%nat) as Hf
    by (unfold frame; rewrite length_app, length_le_bytes; lia).
  rewrite Hf in Hiff. split; [done|]. split; [done|]. intros H0.
  apply Hiff in H0.
  destruct (write_framed_sends s data Ho ltac:(unfold INT_MAX; lia)
              ltac:(lia)) as (s' & E & _ & Hrx & Ho' & Hroom).
  rewrite Hlen in E, Hroom. change (Z.of_nat 2) with 2 in E. rewrite E.
  cbn [snd]. repeat split; try done; lia.
Qed.

(** Whatever the peer does, the session loop hands it whole SERVING
    frames, at most one for each poll that reported data, the last one
    possibly cut short by the connection. *)
Lemma session_loop_sends k polls s buf :
  is_open s = true →
  ∃ n : nat,
    (n ≤ readable polls)%nat ∧
    tx (Cnode.session_loop k polls s buf).2
    = tx s ++ take (tx_room s)
                (concat (replicate n (frame Cnode.HEALTH_RESP_SERVING))).
Proof.
  revert polls s buf. induction k as [|k IH]; intros polls s buf Ho.
  - exists 0%nat. cbn. rewrite take_nil, app_nil_r. split; [lia|done].
  - assert (∃ n : nat, (n ≤ readable polls)%nat ∧
              tx s = tx s ++ take (tx_room s)
                (concat (replicate n (frame Cnode.HEALTH_RESP_SERVING))))
      as Hstay.
    { exists 0%nat. cbn [replicate concat].
      rewrite take_nil, app_nil_r. split; [lia|done]. }
    cbn [Cnode.session_loop].
    destruct polls as [|[[|]| |revents] polls]; cbn [readable].
    + apply (IH [] s buf Ho).
    + apply (IH polls s buf Ho).
    + exact Hstay.
    + apply (IH polls s buf Ho).
    + destruct (negb _).
      { destruct Hstay as (n & _ & Hn). exists 0%nat. cbn [snd replicate concat].
        rewrite take_nil, app_nil_r. split; [lia|done]. }
      destruct (read_framed_keeps_tx s buf 256) as (r & Hr).
      destruct (Cnode.read_framed s buf 256) as [[n out] s1].
      cbn [snd] in Hr. subst s1.
      destruct (n <? 0).
      { exists 0%nat. cbn [snd replicate concat tx set_rx].
        rewrite take_nil, app_nil_r. split; [lia|done]. }
      destruct (write_framed_two (set_rx s r) Cnode.HEALTH_RESP_SERVING Ho
                  ltac:(done)) as (Htx & Hrc & Hok).
      destruct (Cnode.write_framed (set_rx s r) Cnode.HEALTH_RESP_SERVING 2)
        as [rc s2]. cbn [fst snd tx tx_room set_rx] in Htx, Hrc, Hok.
      destruct Hrc as [-> | ->].
      * destruct (Hok eq_refl) as (Hroom & Ho2 & _ & Hroom2).
        change (0 <? 0) with false. cbn iota.
        destruct (IH polls s2 out Ho2) as (m & Hm & Hsent).
        exists (S m). split; [lia|]. rewrite Hsent, Htx, Hroom2.
        assert (length (frame Cnode.HEALTH_RESP_SERVING) = 6%nat) as Hf by done.
        cbn [replicate concat].
        rewrite (take_app_ge (frame Cnode.HEALTH_RESP_SERVING)) by lia.
        rewrite (take_ge (frame Cnode.HEALTH_RESP_SERVING)) by lia.
        by rewrite Hf, <- app_assoc.
      * change (-1 <? 0) with true. cbn iota. cbn [snd].
        exists 1%nat. split; [lia|]. rewrite Htx. cbn [replicate concat].
        by rewrite app_nil_r.
Qed.

(** The ways [serve_session] can end. *)
Lemma serve_session_cases w :
  ((Cnode.serve_session w).1 = 0 ∨ (Cnode.serve_session w).1 = -1) ∧
  ((Cnode.serve_session w).1 = 0 →
   Cnode.running (Cnode.serve_session w).2 = 0%nat) ∧
  Cnode.dials (Cnode.serve_session w).2 = tail (Cnode.dials w) ∧
  match head (Cnode.dials w) with
  | Some (Cnode.Connected sfd polls) =>
      ∃ s', Cnode.trace (Cnode.serve_session w).2
            = Cnode.trace w ++ [Cnode.Attempt; Cnode.Hung s'] ∧
        is_open s' = false
  | _ =>
      (Cnode.serve_session w).1 = -1 ∧
      Cnode.trace (Cnode.serve_session w).2
      = Cnode.trace w ++ [Cnode.Attempt] ∧
      Cnode.running (Cnode.serve_session w).2 = Cnode.running w
  end.
Proof.
  unfold Cnode.serve_session, Cnode.next_dial, Cnode.log.
  cbn [Cnode.dials Cnode.running Cnode.trace].
  destruct (Cnode.dials w) as [|[| | |sfd polls] ds]; cbn [fst snd head tail
    Cnode.dials Cnode.running Cnode.trace];
    try (repeat split; try done; by right).
  destruct (Cnode.write_framed sfd Cnode.NODETYPE_AMF 2) as [rc s1].
  destruct (rc <? 0).
  - cbn [fst snd Cnode.dials Cnode.running Cnode.trace].
    split; [by right|]. split; [done|]. split; [done|].
    exists (close s1). by rewrite <- app_assoc.
  - match goal with |- context [Cnode.session_loop ?a ?b ?c ?d] =>
      destruct (Cnode.session_loop a b c d) as [k s2] end.
    unfold Cnode.read_running. cbn [Cnode.running Cnode.dials Cnode.trace].
    destruct k as [|k]; cbn [fst snd Cnode.dials Cnode.running Cnode.trace].
    + split; [by left|]. split; [done|]. split; [done|].
      exists (close s2). by rewrite <- app_assoc.
    + split; [by right|]. split; [done|]. split; [done|].
      exists (close s2). by rewrite <- app_assoc.
Qed.

(** X17. Whatever the world, [serve_session] returns [0] or [-1], and [0]
    only after it found the flag cleared.  It uses up one connection
    attempt.  When the attempt fails it returns [-1] without reading the
    flag; when it connects, the socket is closed when it returns. *)
Theorem serve_session_outcome w :
  ((Cnode.serve_session w).1 = 0 ∨ (Cnode.serve_session w).1 = -1) ∧
  ((Cnode.serve_session w).1 = 0 →
   Cnode.running (Cnode.serve_session w).2 = 0%nat) ∧
  Cnode.dials (Cnode.serve_session w).2 = tail (Cnode.dials w) ∧
  match head (Cnode.dials w) with
  | Some (Cnode.Connected sfd polls) =>
      ∃ s', Cnode.trace (Cnode.serve_session w).2
            = Cnode.trace w ++ [Cnode.Attempt; Cnode.Hung s'] ∧
        is_open s' = false
  | _ =>
      (Cnode.serve_session w).1 = -1 ∧
      Cnode.trace (Cnode.serve_session w).2
      = Cnode.trace w ++ [Cnode.Attempt] ∧
      Cnode.running (Cnode.serve_session w).2 = Cnode.running w
  end.
Proof. exact (serve_session_cases w). Qed.

(** X18. On a connection that was open, whatever the peer sends and the
    polls report, everything [serve_session] hands the peer is the identity
    frame followed by whole SERVING frames, at most one for each poll that
    reported data, cut short only where the connection stops taking
    bytes. *)
Theorem serve_session_sends w sfd polls ds :
  Cnode.dials w = Cnode.Connected sfd polls :: ds → is_open sfd = true →
  ∃ s' (n : nat),
    Cnode.trace (Cnode.serve_session w).2
    = Cnode.trace w ++ [Cnode.Attempt; Cnode.Hung s'] ∧
    (n ≤ readable polls)%nat ∧
    tx s' = tx sfd
            ++ take (tx_room sfd)
                 (frame Cnode.NODETYPE_AMF
                  ++ concat (replicate n (frame Cnode.HEALTH_RESP_SERVING))).
Proof.
  intros Hd Ho. unfold Cnode.serve_session, Cnode.next_dial, Cnode.log.
  cbn [Cnode.dials Cnode.running Cnode.trace]. rewrite Hd.
  destruct (write_framed_two sfd Cnode.NODETYPE_AMF Ho ltac:(done))
    as (Htx & Hrc & Hok).
  destruct (Cnode.write_framed sfd Cnode.NODETYPE_AMF 2) as [rc s1].
  cbn [fst snd] in Htx, Hrc, Hok.
  assert (length (frame Cnode.NODETYPE_AMF) = 6%nat) as Hf by done.
  destruct Hrc as [-> | ->].
  - destruct (Hok eq_refl) as (Hroom & Ho1 & _ & Hroom1).
    change (0 <? 0) with false. cbn iota.
    destruct (session_loop_sends (Cnode.running w) polls s1 (replicate 256 0)
                Ho1) as (n & Hn & Hsent).
    match goal with |- context [Cnode.session_loop ?a ?b ?c ?d] =>
      change (Cnode.session_loop a b c d)
        with (Cnode.session_loop (Cnode.running w) polls s1 (replicate 256 0))
    end.
    destruct (Cnode.session_loop (Cnode.running w) polls s1 (replicate 256 0))
      as [k s2]. cbn [snd] in Hsent.
    exists (close s2), n.
    unfold Cnode.read_running. cbn [Cnode.running Cnode.dials Cnode.trace].
    split; [destruct k; cbn [snd Cnode.trace]; by rewrite <- app_assoc|].
    split; [done|]. cbn [close tx]. rewrite Hsent, Htx, Hroom1.
    rewrite (take_app_ge (frame Cnode.NODETYPE_AMF)) by lia.
    rewrite (take_ge (frame Cnode.NODETYPE_AMF)) by lia.
    by rewrite Hf, <- app_assoc.
  - change (-1 <? 0) with true. cbn iota. cbn [snd Cnode.trace].
    exists (close s1), 0%nat. rewrite <- app_assoc. split; [done|].
    split; [lia|]. cbn [close tx replicate concat]. by rewrite app_nil_r.
Qed.

Lemma serve_session_sends_witness :
  let sfd := Sock [[1; 0; 0; 0; 0x2A]; [0xFF; 0xFF; 0xFF; 0xFF]] 9 [] true in
  let polls := [Cnode.PollReady Cnode.POLLIN; Cnode.PollReady Cnode.POLLIN] in
  let w := Cnode.World 5 [Cnode.Connected sfd polls] [] in
  ∃ s' (n : nat),
    Cnode.trace (Cnode.serve_session w).2
    = Cnode.trace w ++ [Cnode.Attempt; Cnode.Hung s'] ∧
    (n ≤ readable polls)%nat ∧
    tx s' = tx sfd
            ++ take (tx_room sfd)
                 (frame Cnode.NODETYPE_AMF
                  ++ concat (replicate n (frame Cnode.HEALTH_RESP_SERVING))).
Proof.
  intros sfd polls w.
  apply (serve_session_sends w sfd polls []); reflexivity.
Defined.

(** ** The client thread as a whole *)

Lemma attempts_app a b : attempts (a ++ b) = (attempts a + attempts b)%nat.
Proof.
  induction a as [|[| | |] a IH]; cbn [app attempts]; lia.
Qed.

Lemma backoff_sleep_dials todo w :
  Cnode.dials (Cnode.backoff_sleep todo w) = Cnode.dials w.
Proof.
  revert w. induction todo as [|todo IH]; intros w; [done|].
  cbn [Cnode.backoff_sleep]. unfold Cnode.read_running.
  destruct (Cnode.running w); [done|]. by rewrite IH.
Qed.

Lemma cnode_loop_ends fuel b w :
  (Cnode.running w < fuel)%nat →
  Cnode.running (Cnode.cnode_loop fuel b w) = 0%nat ∧
  ∃ n : nat,
    (n ≤ Cnode.running w)%nat ∧
    Cnode.dials (Cnode.cnode_loop fuel b w) = drop n (Cnode.dials w) ∧
    attempts (Cnode.trace (Cnode.cnode_loop fuel b w))
    = (attempts (Cnode.trace w) + n)%nat.
Proof.
  revert b w. induction fuel as [|fuel IH]; intros b w Hf; [lia|].
  cbn [Cnode.cnode_loop]. unfold Cnode.read_running.
  destruct (Cnode.running w) as [|k] eqn:Ek.
  { split; [done|]. exists 0%nat. rewrite drop_0. repeat split; lia. }
  set (w1 := Cnode.World k (Cnode.dials w) (Cnode.trace w)).
  destruct (serve_session_trace w1) as (sess & Hsess & Hq & Hrun).
  destruct (serve_session_cases w1) as (_ & Hclean & Hdials & _).
  destruct (Cnode.serve_session w1) as [rc w2].
  cbn [fst snd w1 Cnode.running Cnode.dials Cnode.trace] in *.
  assert (attempts (Cnode.trace w2) = (attempts (Cnode.trace w) + 1)%nat)
    as Hatt.
  { rewrite Hsess, attempts_app. cbn [attempts].
    rewrite <- (app_nil_r sess), attempts_quiet by done. cbn [attempts]. lia. }
  destruct (Z.eqb_spec rc 0) as [->|Hrc].
  - split; [by apply Hclean|]. exists 1%nat. split; [lia|].
    split; [|done]. rewrite Hdials. by destruct (Cnode.dials w).
  - set (w3 := Cnode.backoff_sleep (Z.to_nat b)
                 (Cnode.log (Cnode.Reconnecting b) w2)).
    destruct (backoff_sleep_trace (Z.to_nat b)
                (Cnode.log (Cnode.Reconnecting b) w2)) as (Htr & Hr3).
    pose proof (backoff_sleep_dials (Z.to_nat b)
                  (Cnode.log (Cnode.Reconnecting b) w2)) as Hd3.
    fold w3 in Htr, Hr3, Hd3.
    cbn [Cnode.log Cnode.running Cnode.dials Cnode.trace] in Htr, Hr3, Hd3.
    match goal with |- context [Cnode.cnode_loop fuel ?b' w3] =>
      destruct (IH b' w3 ltac:(lia)) as (Hstop & n & Hn & Hdn & Han) end.
    split; [done|]. exists (S n). split; [lia|].
    rewrite Hdn, Han, Hd3, Hdials, Htr. split.
    + destruct (Cnode.dials w); cbn [tail]; [by rewrite !drop_nil|done].
    + rewrite !attempts_app, Hatt.
      rewrite <- (app_nil_r (replicate _ Cnode.Slept)), attempts_sleeps.
      cbn [attempts]. lia.
Qed.

(** X19. [cnode_thread] never gives up on its own: whatever the failures
    of its sessions, it returns only once it has read the flag cleared,
    and it makes at most one connection attempt for each read that found
    the flag set. *)
Theorem cnode_thread_ends_on_stop w :
  Cnode.running (Cnode.cnode_thread w) = 0%nat ∧
  ∃ n : nat,
    (n ≤ Cnode.running w)%nat ∧
    Cnode.dials (Cnode.cnode_thread w) = drop n (Cnode.dials w) ∧
    attempts (Cnode.trace (Cnode.cnode_thread w))
    = (attempts (Cnode.trace w) + n)%nat.
Proof.
  unfold Cnode.cnode_thread. apply cnode_loop_ends. lia.
Qed.

(** ** Starting and stopping the cnode client *)

(** X20. With the client enabled and a server address given,
    [amf_cnode_start] returns [OGS_OK] exactly when [pthread_create]
    succeeds, and [OGS_ERROR] otherwise.  It does not look at [g_running]:
    on success the flag is set and one more thread is started, on failure
    the flag is cleared and no thread is started.  Either way the address
    is stored cut to at most 63 characters and the port stays within
    [0, 65535]. *)
Theorem amf_cnode_start_outcome atoi env thread_rc st ip :
  env_disables env "AMF_CNODE_ENABLE" = false →
  env !! "AMF_CNODE_SERVER_IP" = Some ip → ip ≠ ""%string →
  0 <= Cnode.g_server_port st < 2 ^ 16 →
  let r := Cnode.amf_cnode_start atoi env thread_rc st in
  (r.1 = OGS_OK ↔ thread_rc = 0) ∧
  (r.1 ≠ OGS_OK → r.1 = OGS_ERROR) ∧
  Cnode.g_running r.2 = (if thread_rc =? 0 then 1 else 0) ∧
  Cnode.cnode_events r.2
  = Cnode.cnode_events st
    ++ (if thread_rc =? 0 then [Cnode.ThreadStarted] else []) ∧
  (String.length (Cnode.g_server_ip r.2) ≤ 63)%nat ∧
  (String.length (Cnode.g_server_ip r.2)
   = Nat.min 63 (String.length ip))%nat ∧
  String.prefix (Cnode.g_server_ip r.2) ip = true ∧
  0 <= Cnode.g_server_port r.2 < 2 ^ 16.
Proof.
  intros Hen Hip Hne Hport. cbn zeta. unfold Cnode.amf_cnode_start.
  rewrite Hen, Hip.
  assert ((String.length ip =? 0)%nat = false) as ->.
  { apply Nat.eqb_neq. by destruct ip. }
  assert (∀ m s, String.length (String.substring 0 m s)
                 = Nat.min m (String.length s)) as Hlen.
  { induction m as [|m IH]; intros s; [by destruct s|].
    destruct s as [|c s]; [done|]. cbn [String.substring String.length].
    rewrite IH. lia. }
  assert (∀ m s, String.prefix (String.substring 0 m s) s = true) as Hpre.
  { induction m as [|m IH]; intros s; [by destruct s|].
    destruct s as [|c s]; [done|]. cbn [String.substring String.prefix].
    destruct (Ascii.ascii_dec c c); [apply IH|done]. }
  pose proof (env_port_range atoi env "AMF_CNODE_SERVER_PORT" _ Hport) as Hp.
  destruct (Z.eqb_spec thread_rc 0) as [->|Hrc];
    cbn [negb fst snd Cnode.g_running Cnode.cnode_events Cnode.g_server_ip
         Cnode.g_server_port]; rewrite ?app_nil_r, ?Hlen, ?Hpre;
    unfold OGS_OK, OGS_ERROR; repeat split; try done; try lia.
Qed.

Lemma amf_cnode_start_outcome_witness :
  let env : gmap string string :=
    <["AMF_CNODE_SERVER_IP" := "10.0.0.7"%string]>
      (<["AMF_CNODE_SERVER_PORT" := "70000"%string]> ∅) in
  let r := Cnode.amf_cnode_start (λ _, 70000) env 11 Cnode.cnode_init in
  (r.1 = OGS_OK ↔ 11 = 0) ∧
  (r.1 ≠ OGS_OK → r.1 = OGS_ERROR) ∧
  Cnode.g_running r.2 = (if 11 =? 0 then 1 else 0) ∧
  Cnode.cnode_events r.2
  = Cnode.cnode_events Cnode.cnode_init
    ++ (if 11 =? 0 then [Cnode.ThreadStarted] else []) ∧
  (String.length (Cnode.g_server_ip r.2) ≤ 63)%nat ∧
  (String.length (Cnode.g_server_ip r.2)
   = Nat.min 63 (String.length "10.0.0.7"))%nat ∧
  String.prefix (Cnode.g_server_ip r.2) "10.0.0.7" = true ∧
  0 <= Cnode.g_server_port r.2 < 2 ^ 16.
Proof.
  intros env.
  apply (amf_cnode_start_outcome (λ _, 70000) env 11 Cnode.cnode_init
           "10.0.0.7"); [reflexivity | reflexivity | done
                        | vm_compute; split; [discriminate | reflexivity]].
Defined.

(** X21. From a stopped client, [amf_cnode_start] followed by
    [amf_cnode_stop] leaves a stopped client, whatever the environment and
    [pthread_create] did: either no thread was started, or one thread was
    started and then joined. *)
Theorem amf_cnode_start_stop atoi env thread_rc st :
  Cnode.g_running st = 0 →
  let st' := Cnode.amf_cnode_stop
               (Cnode.amf_cnode_start atoi env thread_rc st).2 in
  Cnode.g_running st' = 0 ∧
  (Cnode.cnode_events st' = Cnode.cnode_events st
   ∨ (Cnode.amf_cnode_start atoi env thread_rc st).1 = OGS_OK
     ∧ thread_rc = 0
     ∧ Cnode.cnode_events st'
       = Cnode.cnode_events st ++ [Cnode.ThreadStarted; Cnode.ThreadJoined]).
Proof.
  intros Hrun. cbn zeta. unfold Cnode.amf_cnode_start.
  assert (Cnode.amf_cnode_stop st = st) as Hst
    by (unfold Cnode.amf_cnode_stop; by rewrite Hrun).
  destruct (env_disables env "AMF_CNODE_ENABLE");
    [cbn [snd]; rewrite Hst; split; [done|by left]|].
  destruct (env !! "AMF_CNODE_SERVER_IP") as [ip|];
    [|cbn [snd]; rewrite Hst; split; [done|by left]].
  destruct (String.length ip =? 0)%nat;
    [cbn [snd]; rewrite Hst; split; [done|by left]|].
  destruct (Z.eqb_spec thread_rc 0) as [->|Hrc]; cbn [negb fst snd].
  - unfold Cnode.amf_cnode_stop.
    cbn [Cnode.g_running Cnode.cnode_events Cnode.g_server_ip
         Cnode.g_server_port]. change (1 =? 0) with false. cbn iota.
    cbn [Cnode.g_running Cnode.cnode_events]. split; [done|]. right.
    by rewrite <- app_assoc.
  - unfold Cnode.amf_cnode_stop.
    cbn [Cnode.g_running Cnode.cnode_events]. change (0 =? 0) with true.
    cbn iota. cbn [Cnode.g_running Cnode.cnode_events]. split; [done|by left].
Qed.

Lemma amf_cnode_start_stop_witness :
  let env : gmap string string :=
    <["AMF_CNODE_SERVER_IP" := "10.0.0.7"%string]> ∅ in
  let st' := Cnode.amf_cnode_stop
               (Cnode.amf_cnode_start (λ _, 0) env 0 Cnode.cnode_init).2 in
  Cnode.g_running st' = 0 ∧
  (Cnode.cnode_events st' = Cnode.cnode_events Cnode.cnode_init
   ∨ (Cnode.amf_cnode_start (λ _, 0) env 0 Cnode.cnode_init).1 = OGS_OK
     ∧ 0 = 0
     ∧ Cnode.cnode_events st'
       = Cnode.cnode_events Cnode.cnode_init
         ++ [Cnode.ThreadStarted; Cnode.ThreadJoined]).
Proof.
  intros env.
  apply (amf_cnode_start_stop (λ _, 0) env 0 Cnode.cnode_init). reflexivity.
Defined.

(** ** From the environment to the registration task *)

Lemma send_registration_started thread_rc st :
  Health.health_events (Health.amf_health_send_registration thread_rc st)
  = Health.health_events st ++ [Health.RegistrationStarted]
  ↔ Health.g_reg_enable st ≠ 0 ∧ Health.g_reg_server_ip st ≠ ""%string
    ∧ Health.g_reg_server_port st ≠ 0 ∧ thread_rc = 0.
Proof.
  unfold Health.amf_health_send_registration.
  assert (Health.health_events st
          ≠ Health.health_events st ++ [Health.RegistrationStarted]) as Hnil.
  { intros H. apply (f_equal length) in H. rewrite length_app in H.
    cbn [length] in H. lia. }
  assert (Health.health_events st ++ [Health.Warned]
          ≠ Health.health_events st ++ [Health.RegistrationStarted]) as Hwarn.
  { intros H. by apply app_inv_head in H. }
  destruct (Z.eqb_spec (Health.g_reg_enable st) 0) as [Hen|Hen];
    [split; [done|by intros (? & _)]|].
  destruct (Nat.eqb_spec (String.length (Health.g_reg_server_ip st)) 0)
    as [Hip|Hip].
  { cbn [orb Health.set_server Health.health_events].
    split; [done|]. intros (_ & H & _).
    by destruct (Health.g_reg_server_ip st). }
  assert (Health.g_reg_server_ip st ≠ ""%string) as Hip'
    by (intros E; by rewrite E in Hip).
  destruct (Z.eqb_spec (Health.g_reg_server_port st) 0) as [Hp|Hp].
  { cbn [orb Health.set_server Health.health_events].
    split; [done|]. by intros (_ & _ & ? & _). }
  cbn [orb]. destruct (Z.eqb_spec thread_rc 0) as [Hrc|Hrc];
    cbn [negb Health.set_server Health.health_events].
  - done.
  - split; [done|]. by intros (_ & _ & _ & ?).
Qed.

Lemma strncpy63_empty v : Health.strncpy63 v = ""%string ↔ v = ""%string.
Proof.
  unfold Health.strncpy63. destruct v; [done|]. cbn. split; discriminate.
Qed.

(** X22. After [amf_health_open] on the initial state, whatever its
    result, [amf_health_send_registration] starts the registration task
    exactly when the health server is not disabled, the environment sets
    [AMF_GRPC_REGISTRATION_ENABLE] to ["1"], gives a non-empty server
    address and a port on which [atoi] is positive and not a multiple of
    [65536], and [pthread_create] succeeds. *)
Theorem registration_started_iff atoi env os thread_rc :
  let st := (Health.amf_health_open atoi env os Health.health_init).2 in
  Health.health_events (Health.amf_health_send_registration thread_rc st)
  = Health.health_events st ++ [Health.RegistrationStarted]
  ↔ env_disables env "AMF_GRPC_ENABLE" = false ∧
    env !! "AMF_GRPC_REGISTRATION_ENABLE" = Some "1"%string ∧
    (∃ ip, env !! "AMF_GRPC_REGISTRATION_SERVER_IP" = Some ip
           ∧ ip ≠ ""%string) ∧
    (∃ p, env !! "AMF_GRPC_REGISTRATION_SERVER_PORT" = Some p
          ∧ 0 < atoi p ∧ to_uint16 (atoi p) ≠ 0) ∧
    thread_rc = 0.
Proof.
  cbn zeta. rewrite send_registration_started.
  unfold Health.amf_health_open.
  destruct (env_disables env "AMF_GRPC_ENABLE") eqn:Hdis.
  { cbn [snd Health.health_init Health.g_reg_enable].
    split; [by intros (? & _)|by intros (? & _)]. }
  set (cfg := Health.health_load_config atoi env Health.health_init).
  assert (∀ st', Health.g_reg_enable st' = Health.g_reg_enable cfg →
            Health.g_reg_server_ip st' = Health.g_reg_server_ip cfg →
            Health.g_reg_server_port st' = Health.g_reg_server_port cfg →
    (Health.g_reg_enable st' ≠ 0 ∧ Health.g_reg_server_ip st' ≠ ""%string
     ∧ Health.g_reg_server_port st' ≠ 0 ∧ thread_rc = 0)
    ↔ false = false ∧
      env !! "AMF_GRPC_REGISTRATION_ENABLE" = Some "1"%string ∧
      (∃ ip, env !! "AMF_GRPC_REGISTRATION_SERVER_IP" = Some ip
             ∧ ip ≠ ""%string) ∧
      (∃ p, env !! "AMF_GRPC_REGISTRATION_SERVER_PORT" = Some p
            ∧ 0 < atoi p ∧ to_uint16 (atoi p) ≠ 0) ∧
      thread_rc = 0) as Hcfg.
  { intros st' -> -> ->. subst cfg. unfold Health.health_load_config.
    cbn [Health.g_reg_enable Health.g_reg_server_ip Health.g_reg_server_port
         Health.health_init].
    destruct (env !! "AMF_GRPC_REGISTRATION_ENABLE") as [en|] eqn:Een;
      [|split; [by intros (? & _)|by intros (_ & ? & _)]].
    destruct (String.eqb_spec en "1") as [->|Hen];
      [|split; [by intros (? & _)|intros (_ & [=] & _); done]].
    change (1 =? 0) with false. cbn iota. unfold env_port.
    destruct (env !! "AMF_GRPC_REGISTRATION_SERVER_IP") as [ip|] eqn:Eip;
      [|split; [by intros (_ & ? & _)|by intros (_ & _ & (? & ? & _) & _)]].
    destruct (env !! "AMF_GRPC_REGISTRATION_SERVER_PORT") as [p|] eqn:Ep;
      [|split; [by intros (_ & _ & ? & _)
               |by intros (_ & _ & _ & (? & ? & _) & _)]].
    rewrite strncpy63_empty.
    destruct (Z.gtb_spec (atoi p) 0) as [Hpos|Hneg].
    - split.
      + intros (_ & Hip & Hp & Hrc). repeat split; try done;
          [by exists ip|exists p; repeat split; try done; lia].
      + intros (_ & _ & (ip' & [= <-] & Hip) & (p' & [= <-] & _ & Hp) & Hrc).
        done.
    - split; [by intros (_ & _ & ? & _)|].
      intros (_ & _ & _ & (p' & [= <-] & ? & _) & _). lia. }
  destruct (Health.os_socket os <? 0); [by apply Hcfg|].
  destruct (Health.os_bind os <? 0); [by apply Hcfg|].
  destruct (Health.os_listen os <? 0); [by apply Hcfg|].
  destruct (negb _); by apply Hcfg.
Qed.

(** ** Length prefixes that are not the shortest *)

(** Continued bytes followed by a final one are read to the final one and
    leave the sum of their groups modulo [2^64]. *)
Lemma varint_scan_terminated bs b rest (rounds : nat) msg_len shift :
  Forall (λ b, Z.land b 0x80 ≠ 0) bs → Z.land b 0x80 = 0 →
  (length bs < rounds)%nat →
  0 <= shift → shift + 7 * Z.of_nat (length bs) <= 64 →
  0 <= msg_len < 2 ^ shift → msg_len < 2 ^ 64 →
  varint_scan rounds (bs ++ b :: rest) msg_len shift
  = (Some ((msg_len + low7_sum shift (bs ++ [b])) mod 2 ^ 64), rest).
Proof.
  revert rounds msg_len shift.
  induction bs as [|c bs IH]; intros rounds msg_len shift Hc Hb Hr Hs Hl Hm Hw;
    (destruct rounds as [|rounds]; [cbn [length] in Hr; lia|]);
    cbn [length] in *.
  - cbn [app varint_scan low7_sum]. rewrite Hb. change (0 =? 0) with true.
    cbn iota. pose proof (land_0x7F b) as Hg.
    pose proof (Z.mod_pos_bound b 128 ltac:(lia)) as Hg'.
    rewrite lor_group by lia. by rewrite Z.add_0_r.
  - apply Forall_cons in Hc as [Hc1 Hc]. cbn [app varint_scan low7_sum].
    destruct (Z.eqb_spec (Z.land c 0x80) 0) as [|_]; [done|].
    pose proof (land_0x7F c) as Hg.
    pose proof (Z.mod_pos_bound c 128 ltac:(lia)) as Hg'.
    assert (0 < 2 ^ shift) as Hp by (apply Z.pow_pos_nonneg; lia).
    assert (2 ^ (shift + 7) = 128 * 2 ^ shift) as Hp7
      by (rewrite Z.pow_add_r by lia; change (2 ^ 7) with 128; lia).
    rewrite lor_group by lia.
    pose proof (Z.mod_pos_bound (msg_len + Z.land c 0x7F * 2 ^ shift)
                  (2 ^ 64) ltac:(lia)) as Hw'.
    assert ((msg_len + Z.land c 0x7F * 2 ^ shift) mod 2 ^ 64
            <= msg_len + Z.land c 0x7F * 2 ^ shift) as Hle
      by (apply Z.mod_le; nia).
    rewrite IH; [|done|done|lia|lia|lia|nia|lia].
    rewrite Z.add_mod_idemp_l, Z.add_assoc by lia. done.
Qed.

(** X23. [read_delimited] takes any length prefix of at most ten bytes,
    not only the shortest one for its value: bytes with the continuation
    bit followed by one without it are read up to that byte, and the
    length is the sum of their low seven bits (at shifts 0, 7, ...) modulo
    [2^64].  Padding a prefix with [0x80] groups and a final [0x00] does not
    change the frame. *)
Theorem read_delimited_any_prefix bs b rest s buf max_len :
  Forall (λ b, Z.land b 0x80 ≠ 0) bs → Z.land b 0x80 = 0 →
  (length bs < 10)%nat → is_open s = true → stream s = bs ++ b :: rest →
  ∃ r, Health.read_varint 10 s 0 0
       = (Some (low7_sum 0 (bs ++ [b]) mod 2 ^ 64), set_rx s r) ∧
       concat r = rest ∧
       Health.read_delimited s buf max_len
       = Health.read_delimited_body (low7_sum 0 (bs ++ [b]) mod 2 ^ 64)
           (set_rx s r) buf max_len.
Proof.
  intros Hc Hb Hl Ho Hs.
  destruct (read_varint_scan 10 s 0 0 Ho) as (r & E & Hr).
  assert (varint_scan 10 (stream s) 0 0
          = (Some (low7_sum 0 (bs ++ [b]) mod 2 ^ 64), rest)) as Hscan.
  { rewrite Hs, varint_scan_terminated by (done || lia).
    by rewrite Z.add_0_l. }
  rewrite Hscan in E, Hr. cbn [fst snd] in E, Hr.
  exists r. split; [done|]. split; [done|].
  unfold Health.read_delimited. by rewrite E.
Qed.

Lemma read_delimited_any_prefix_witness :
  let s := Sock [[0x82; 0x80]; [0x80; 0x00; 0xAA]; [0xBB; 0xCC]] 0 [] true in
  ∃ r, Health.read_varint 10 s 0 0
       = (Some (low7_sum 0 ([0x82; 0x80; 0x80] ++ [0x00]) mod 2 ^ 64),
          set_rx s r) ∧
       concat r = [0xAA; 0xBB; 0xCC] ∧
       Health.read_delimited s (replicate 64 0) 64
       = Health.read_delimited_body
           (low7_sum 0 ([0x82; 0x80; 0x80] ++ [0x00]) mod 2 ^ 64)
           (set_rx s r) (replicate 64 0) 64.
Proof.
  intros s.
  apply (read_delimited_any_prefix [0x82; 0x80; 0x80] 0x00 [0xAA; 0xBB; 0xCC]
           s (replicate 64 0) 64);
    [repeat constructor; discriminate | reflexivity | simpl; lia
    | reflexivity | reflexivity].
Defined.
